(** * Kingshot gift-code bot: a shallow embedding of the redemption core

    The development follows the Python sources module by module:
    [config] (constants), [bot_core] (the Selenium-driven bot), [utils]
    (the code fetcher) and [bot] (the command-line orchestrator).

    Python values are rendered as follows.
    - [str] is a sequence of Unicode code points, [list N]; the literals of
      the sources are written as UTF-8 text and decoded by [u].
    - [int] counters are unbounded, [nat].
    - [float] delays are exact rationals ([Q]): the delays are only passed
      to [time.sleep] and printed, never compared.
    - exceptions are the values of [exn]; a computation that may raise
      returns a [Res].
    - the Selenium driver, the HTTP client, the HTML parser, the clock and
      the case and whitespace functions of [str] are outside the
      repository: they appear as interfaces ([WebDriver], [Scraping],
      [Clock], [PyStr]) whose operations the code calls, and every theorem
      holds for all their implementations. The one regular expression of
      the sources is written out as a matcher.
    - what the bot logs and prints is recorded in a trace; writing a line
      of the log or of the console does not fail. *)

From Stdlib Require Import QArith Qround Ascii String NArith.
From stdpp Require Import base numbers list strings gmap.

Open Scope string_scope.
Open Scope list_scope.

(** ** Python strings *)

Definition str : Type := list N.

Definition cont (a : ascii) : N := N.land (N_of_ascii a) 63.

(** UTF-8 decoding of a literal of the sources into its code points. *)
Fixpoint decode_utf8 (s : string) : str :=
  match s with
  | EmptyString => []
  | String a r =>
    let b := N_of_ascii a in
    if (b <? 128)%N then b :: decode_utf8 r
    else if (b <? 224)%N then
      match r with
      | String a1 r1 =>
        N.lor (N.shiftl (N.land b 31) 6) (cont a1) :: decode_utf8 r1
      | _ => [65533%N]
      end
    else if (b <? 240)%N then
      match r with
      | String a1 (String a2 r2) =>
        N.lor (N.shiftl (N.land b 15) 12)
          (N.lor (N.shiftl (cont a1) 6) (cont a2)) :: decode_utf8 r2
      | _ => [65533%N]
      end
    else
      match r with
      | String a1 (String a2 (String a3 r3)) =>
        N.lor (N.shiftl (N.land b 7) 18)
          (N.lor (N.shiftl (cont a1) 12)
             (N.lor (N.shiftl (cont a2) 6) (cont a3))) :: decode_utf8 r3
      | _ => [65533%N]
      end
  end.

Definition u (s : string) : str := decode_utf8 s.
Arguments u : simpl never.

(** [p] is a prefix of [s]: [s.startswith(p)]. *)
Fixpoint startswith (s p : str) {struct p} : bool :=
  match p, s with
  | [], _ => true
  | _ :: _, [] => false
  | x :: p', y :: s' => (x =? y)%N && startswith s' p'
  end.

(** [contains s p] is Python's [p in s] on strings. *)
Fixpoint contains (s p : str) : bool :=
  startswith s p ||
  match s with
  | [] => false
  | _ :: s' => contains s' p
  end.

(** [any(word in text for word in words)] *)
Definition any_in (words : list str) (text : str) : bool :=
  existsb (fun word => contains text word) words.

(** The declarative reading of [p in s]. *)
Definition substring (p s : str) : Prop := ∃ a b, s = a ++ p ++ b.

(** Decimal rendering of an [int], for f-strings. *)
Definition digit (n : nat) : N := (48 + N.of_nat n)%N.

Fixpoint str_of_nat_fuel (fuel n : nat) (acc : str) : str :=
  match fuel with
  | O => acc
  | S fuel' =>
    let acc' := digit (n mod 10) :: acc in
    if (n / 10 =? 0)%nat then acc' else str_of_nat_fuel fuel' (n / 10) acc'
  end.

Definition str_of_nat (n : nat) : str := str_of_nat_fuel (S n) n [].

(** [sep.join(l)] *)
Fixpoint join (sep : str) (l : list str) : str :=
  match l with
  | [] => []
  | x :: rest =>
    match rest with
    | [] => x
    | _ :: _ => x ++ sep ++ join sep rest
    end
  end.

(** ** The operating system

    [platform.system()], [os.environ.get], [os.path.join] and
    [os.path.exists], as the configuration and the browser detector read
    them. *)
Class OS := {
  system : str;
  environ_get : str → option str;
  path_join : str → str → str;
  path_exists : str → bool
}.

(** ** config.py *)

Module config.

Record Timeouts := {
  vue_load : Q;
  vue_extra_wait : Q;
  login_response : Q;
  redeem_response : Q;
  between_codes : Q;
  page_update : Q;
  modal_check : Q;
  click_delay : Q;
  input_delay : Q;
  webdriver_wait : Q;
  http_request : Q;
  edge_init : Q;
  edge_stop : Q;
  navigation_retry : Q
}.

Definition TIMEOUTS : Timeouts := {|
  vue_load := 3;
  vue_extra_wait := 1;
  login_response := 7;
  redeem_response := 5;
  between_codes := 3;
  page_update := 3;
  modal_check := 1;
  click_delay := 1 # 2;
  input_delay := 3 # 10;
  webdriver_wait := 20;
  http_request := 10;
  edge_init := 1;
  edge_stop := 1 # 2;
  navigation_retry := 1
|}.

Record RetryConfig := {
  max_attempts : nat;
  delay_between : Q;
  backoff_multiplier : Q
}.

Definition RETRY_CONFIG : RetryConfig := {|
  max_attempts := 3;
  delay_between := 2;
  backoff_multiplier := 3 # 2
|}.

Record Selectors := {
  text_inputs : str;
  all_inputs : str;
  login_button : str;
  exchange_button : str;
  clickable_buttons : list str;
  close_buttons : list str;
  mask : str;
  vue_app : str
}.

Definition SELECTORS : Selectors := {|
  text_inputs := u "input[type='text']";
  all_inputs := u "input";
  login_button := u ".login_btn";
  exchange_button := u ".exchange_btn";
  clickable_buttons := map u
    [ "div[class*='btn']";
      "div[class*='button']";
      "button" ];
  close_buttons := map u
    [ "div[class*='close']";
      "button[class*='close']";
      "div[class*='btn-close']";
      "div[class*='modal'] button";
      "div[class*='dialog'] button" ];
  mask := u "div.mask";
  vue_app := u "#app"
|}.

Record LanguageKeywords := {
  login : list str;
  confirm : list str;
  already_claimed : list str;
  success : list str;
  error : list str;
  code_placeholder : list str
}.

Definition LANGUAGE_KEYWORDS : LanguageKeywords := {|
  login := map u
    [ "login"; "iniciar"; "sesion"; "entrar"; "connexion";
      "anmelden"; "accedi"; "登录"; "ログイン"; "entrar" ];
  confirm := map u
    [ "confirm"; "confirmar"; "confirmer"; "bestätigen";
      "conferma"; "exchange"; "canjear"; "échanger";
      "确认"; "交换"; "確認"; "交換"; "trocar" ];
  already_claimed := map u
    [ "already"; "claimed"; "received"; "redeemed"; "used";
      "ya recogido"; "ya canjeado"; "ya reclamado"; "ya usado"; "ya obtenido";
      "déjà récupéré"; "déjà utilisé"; "déjà réclamé"; "déjà reçu";
      "bereits"; "schon"; "erhalten"; "eingelöst";
      "già riscattato"; "già utilizzato"; "già rivendicato"; "già ottenuto";
      "已领取"; "已使用"; "已兑换"; "已获得";
      "既に"; "すでに"; "受け取り済み"; "使用済み";
      "já resgatado"; "já usado"; "já recebido"; "já obtido" ];
  success := map u
    [ "success"; "successful"; "exitoso"; "éxito"; "succès"; "erfolg";
      "successo"; "mail"; "correo"; "e-mail"; "email"; "inbox";
      "成功"; "成功了"; "メール"; "正常"; "sucesso"; "enviado" ];
  error := map u
    [ "error"; "fail"; "failed"; "invalid"; "expired"; "not found";
      "no existe"; "inválido"; "expirado"; "erreur"; "invalide"; "expiré";
      "fehler"; "ungültig"; "abgelaufen"; "errore"; "non valido"; "scaduto";
      "错误"; "失败"; "無効"; "期限切れ"; "erro"; "inválido"; "expirado" ];
  code_placeholder := map u
    [ "codigo"; "code"; "código"; "gift"; "regalo" ]
|}.

Definition MAX_CODES_TO_FETCH : nat := 20.

(** [os.environ.get(key, default)] *)
Definition environ_get_or `{!OS} (key default : str) : str :=
  match environ_get key with
  | Some value => value
  | None => default
  end.

(** [BrowserPaths]. The tables are dictionaries; they are kept as
    association lists in insertion order, the order in which
    [dict.items()] lists them. *)
Definition get_windows_paths `{!OS} : list (str * list str) :=
  let program_files :=
    environ_get_or (u "PROGRAMFILES") (u "C:\Program Files") in
  let program_files_x86 :=
    environ_get_or (u "PROGRAMFILES(X86)") (u "C:\Program Files (x86)") in
  let local_app_data := environ_get_or (u "LOCALAPPDATA") [] in
  [(u "Chrome",
    [path_join program_files (u "Google\Chrome\Application\chrome.exe");
     path_join program_files_x86
       (u "Google\Chrome\Application\chrome.exe");
     path_join local_app_data
       (u "Google\Chrome\Application\chrome.exe")]);
   (u "Brave",
    [path_join program_files
       (u "BraveSoftware\Brave-Browser\Application\brave.exe");
     path_join program_files_x86
       (u "BraveSoftware\Brave-Browser\Application\brave.exe");
     path_join local_app_data
       (u "BraveSoftware\Brave-Browser\Application\brave.exe")]);
   (u "Edge",
    [path_join program_files (u "Microsoft\Edge\Application\msedge.exe");
     path_join program_files_x86
       (u "Microsoft\Edge\Application\msedge.exe")])].

Definition get_linux_paths : list (str * list str) :=
  [(u "Chrome",
    map u ["/usr/bin/google-chrome"; "/usr/bin/google-chrome-stable"]);
   (u "Brave", map u ["/usr/bin/brave-browser"; "/usr/bin/brave"]);
   (u "Chromium", map u ["/usr/bin/chromium-browser"; "/usr/bin/chromium"]);
   (u "Edge", map u ["/usr/bin/microsoft-edge"])].

Definition get_macos_paths : list (str * list str) :=
  [(u "Chrome",
    map u ["/Applications/Google Chrome.app/Contents/MacOS/Google Chrome"]);
   (u "Brave",
    map u ["/Applications/Brave Browser.app/Contents/MacOS/Brave Browser"]);
   (u "Edge",
    map u ["/Applications/Microsoft Edge.app/Contents/MacOS/Microsoft Edge"])].

Definition BROWSER_PRIORITY : list str :=
  map u ["Chrome"; "Brave"; "Edge"; "Chromium"].

Definition PLAYER_ID_FILE : str := u "login_id.txt".

End config.


(** ** Exceptions and results *)

Inductive exn_class :=
| BaseException
| Exception
| KeyboardInterrupt
| AttributeError
| WebDriverException
| TimeoutException
| NoSuchElementException
| ElementClickInterceptedException
| StaleElementReferenceException
| RequestException
| requests_Timeout
| requests_ConnectionError
| requests_HTTPError.

#[global] Instance exn_class_eq_dec : EqDecision exn_class.
Proof. solve_decision. Defined.

(** The classes an exception class derives from, itself included. *)
Definition mro (c : exn_class) : list exn_class :=
  match c with
  | BaseException => [BaseException]
  | Exception => [Exception; BaseException]
  | KeyboardInterrupt => [KeyboardInterrupt; BaseException]
  | AttributeError => [AttributeError; Exception; BaseException]
  | WebDriverException => [WebDriverException; Exception; BaseException]
  | TimeoutException =>
      [TimeoutException; WebDriverException; Exception; BaseException]
  | NoSuchElementException =>
      [NoSuchElementException; WebDriverException; Exception; BaseException]
  | ElementClickInterceptedException =>
      [ElementClickInterceptedException; WebDriverException; Exception;
       BaseException]
  | StaleElementReferenceException =>
      [StaleElementReferenceException; WebDriverException; Exception;
       BaseException]
  | RequestException => [RequestException; Exception; BaseException]
  | requests_Timeout =>
      [requests_Timeout; RequestException; Exception; BaseException]
  | requests_ConnectionError =>
      [requests_ConnectionError; RequestException; Exception; BaseException]
  | requests_HTTPError =>
      [requests_HTTPError; RequestException; Exception; BaseException]
  end.

(** A raised exception: its class, [str(e)], and for an HTTP error the
    status code of the response it carries. *)
Record exn := {
  cls : exn_class;
  message : str;
  status_code : nat
}.

Definition isinstance (e : exn) (c : exn_class) : bool :=
  bool_decide (c ∈ mro (cls e)).

Inductive Res (A : Type) :=
| Ok (a : A)
| Raise (e : exn).
Arguments Ok {A} a.
Arguments Raise {A} e.

(** ** The libraries the bot drives *)

Definition WebElement : Type := nat.

Inductive By := CSS_SELECTOR | TAG_NAME.

(** The scripts handed to [execute_script], in the order they appear in
    bot_core.py: [window.stop();], [window.sessionStorage.clear();],
    [window.localStorage.clear();], [arguments[0].click();],
    [arguments[0].scrollIntoView(true);] and the script of [dismiss_modal]
    that hides and removes every mask, modal and dialog element. *)
Inductive Script :=
| js_window_stop
| js_sessionStorage_clear
| js_localStorage_clear
| js_click
| js_scrollIntoView
| js_force_close_modals.

Inductive Action :=
| a_Chrome (headless : bool)
| a_get (url : str)
| a_delete_all_cookies
| a_execute_script (script : Script) (args : list WebElement)
| a_click (element : WebElement)
| a_clear (element : WebElement)
| a_send_keys (element : WebElement) (keys : str)
| a_quit
| a_requests_get (url : str).

Record Response := {
  resp_status : nat;
  resp_text : str
}.

(** Selenium, seen from the bot. Reading the page does not change the
    environment; acting on it and letting time pass ([Clock]) do. Every
    operation may raise. *)
Class WebDriver (Env : Type) := {
  Chrome : bool → Env → Res unit * Env;
  find_elements : By → str → Env → Res (list WebElement);
  find_element : By → str → Env → Res WebElement;
  is_displayed : WebElement → Env → Res bool;
  get_attribute : WebElement → str → Env → Res (option str);
  text : WebElement → Env → Res str;
  page_source : Env → Res str;
  current_url : Env → Res str;
  get : str → Env → Res unit * Env;
  delete_all_cookies : Env → Res unit * Env;
  execute_script : Script → list WebElement → Env → Res unit * Env;
  click : WebElement → Env → Res unit * Env;
  clear : WebElement → Env → Res unit * Env;
  send_keys : WebElement → str → Env → Res unit * Env;
  quit : Env → Res unit * Env
}.

(** The environment while the program sleeps. *)
Class Clock (Env : Type) := {
  elapse : Q → Env → Env
}.

(** requests and BeautifulSoup, seen from the fetcher. *)
Class Scraping (Env : Type) := {
  requests_get : str → Q → Env → Res Response * Env;
  get_text : str → Env → Res str
}.

(** The machine the program is started on, seen from the dependency
    manager and the command line. What a call does is returned as a value:
    [__import__(name)] imports, raises [ImportError] or raises something
    else; [subprocess.run] of
    [[sys.executable, "-m", "pip", "install", "--upgrade"] + packages]
    completes with a return code and its error output, raises
    [TimeoutExpired] or raises something else; reading a text file gives
    its content, raises [FileNotFoundError] or raises something else;
    [input()] gives a line, raises [EOFError] or raises something else (an
    interrupt, say). *)
Inductive Imported :=
| imported
| import_ImportError
| import_raises (e : exn).

Inductive Completed :=
| completed (returncode : Z) (stderr : str)
| run_TimeoutExpired
| run_raises (e : exn).

Inductive Read :=
| read_content (content : str)
| read_FileNotFoundError
| read_raises (e : exn).

Inductive Typed :=
| typed (line : str)
| input_EOFError
| input_raises (e : exn).

Class Machine (Env : Type) := {
  import_module : str → Env → Imported * Env;
  pip_install_upgrade : list str → Env → Completed * Env;
  read_text : str → Env → Read;
  stdout_write : str → Env → Env;
  input : Env → Typed * Env
}.

(** [str.lower] and [str.strip] of the Python runtime. *)
Class PyStr := {
  lower : str → str;
  strip : str → str
}.

(** ** Observable events and the state of a run

    The [trace] of a run lists, oldest first, what the program did to its
    surroundings: log calls, console lines, sleeps, progress reports and
    calls that act on the browser or the network, each with its outcome. *)

Inductive Event :=
| Log (level : str) (formatted_msg : str)
| LogSection (title : str)
| LogHeader (player_id : str)
| Print (line : str)
| Sleep (seconds : Q)
| Progress (step total_steps : nat) (description : str)
| Call (a : Action) (outcome : Res unit).

Record World (Env : Type) := {
  env : Env;
  driver : bool;
  trace : list Event
}.
Arguments env {Env} _.
Arguments driver {Env} _.
Arguments trace {Env} _.

Section Monad.
Context {Env : Type}.

Definition M (A : Type) : Type := World Env → Res A * World Env.

Definition ret {A} (a : A) : M A := fun w => (Ok a, w).

Definition raise {A} (e : exn) : M A := fun w => (Raise e, w).

Definition bind {A B} (m : M A) (k : A → M B) : M B :=
  fun w =>
    match m w with
    | (Ok a, w') => k a w'
    | (Raise e, w') => (Raise e, w')
    end.

(** Runs [m] and hands its outcome to the [except] clauses that follow. *)
Definition try {A} (m : M A) : M (Res A) :=
  fun w => (Ok (fst (m w)), snd (m w)).

(** [try: m finally: fin] *)
Definition finally {A} (m : M A) (fin : M unit) : M A :=
  bind (try m) (fun r =>
  bind fin (fun _ =>
  match r with
  | Ok a => ret a
  | Raise e => raise e
  end)).

(** [w] after the events [new]. *)
Definition extend (w : World Env) (new : list Event) : World Env :=
  {| env := env w; driver := driver w; trace := trace w ++ new |}.

Definition emit (ev : Event) : M unit :=
  fun w => (Ok tt, extend w [ev]).

(** A read through [self.driver]; [None] has no attributes. *)
Definition none_type_error : exn :=
  {| cls := AttributeError;
     message := u "'NoneType' object has no attribute";
     status_code := 0 |}.

Definition observe {A} (f : Env → Res A) : M A :=
  fun w => (f (env w), w).

(** The outcome of a call, without its value. *)
Definition outcome {A} (r : Res A) : Res unit :=
  match r with
  | Ok _ => Ok tt
  | Raise e => Raise e
  end.

Definition act {A} (a : Action) (f : Env → Res A * Env) : M A :=
  fun w =>
    (fst (f (env w)),
     {| env := snd (f (env w)); driver := driver w;
        trace := trace w ++ [Call a (outcome (fst (f (env w))))] |}).

Definition via_driver {A} (m : M A) : M A :=
  fun w => if driver w then m w else (Raise none_type_error, w).

Definition set_driver (b : bool) : M unit :=
  fun w => (Ok tt, {| env := env w; driver := b; trace := trace w |}).

Definition get_driver : M bool := fun w => (Ok (driver w), w).

(** [time.sleep(seconds)] *)
Definition sleep `{!Clock Env} (seconds : Q) : M unit :=
  fun w => (Ok tt, {| env := elapse seconds (env w); driver := driver w;
                      trace := trace w ++ [Sleep seconds] |}).

(** [print(line)] *)
Definition print (line : str) : M unit := emit (Print line).

(** A call to the machine; its outcome is the value returned. *)
Definition host_call {A} (f : Env → A * Env) : M A :=
  fun w => (Ok (fst (f (env w))),
            {| env := snd (f (env w)); driver := driver w;
               trace := trace w |}).

(** [print(text, end='')]: [text] is written to the console without a
    line end. *)
Definition print_no_end `{!Machine Env} (text_ : str) : M unit :=
  fun w => (Ok tt, {| env := stdout_write text_ (env w); driver := driver w;
                      trace := trace w |}).

End Monad.

Declare Scope py_scope.
Delimit Scope py_scope with py.
Notation "x <- m ;; k" := (bind m (fun x => k))
  (at level 100, m at next level, right associativity) : py_scope.
Notation "m ;; k" := (bind m (fun _ => k))
  (at level 100, right associativity) : py_scope.
Open Scope py_scope.

(** ** bot_core.py *)

Module bot_core.

Inductive RedeemResult :=
| SUCCESS
| ALREADY_CLAIMED
| FAILED
| INVALID
| EXPIRED.

#[global] Instance RedeemResult_eq_dec : EqDecision RedeemResult.
Proof. solve_decision. Defined.

Record RedeemStats := {
  successful : nat;
  already_claimed : nat;
  failed : nat
}.

(** [RedeemStats()] *)
Definition RedeemStats_new : RedeemStats :=
  {| successful := 0; already_claimed := 0; failed := 0 |}.

Definition total (self : RedeemStats) : nat :=
  successful self + already_claimed self + failed self.

Definition update (self : RedeemStats) (result : RedeemResult) : RedeemStats :=
  if decide (result = SUCCESS) then
    {| successful := successful self + 1;
       already_claimed := already_claimed self;
       failed := failed self |}
  else if decide (result = ALREADY_CLAIMED) then
    {| successful := successful self;
       already_claimed := already_claimed self + 1;
       failed := failed self |}
  else
    {| successful := successful self;
       already_claimed := already_claimed self;
       failed := failed self + 1 |}.

(** The constructor arguments of [KingshotBotHeadless] kept on [self]. The
    mutable attribute [self.driver] is the [driver] flag of the [World]. *)
Record KingshotBotHeadless := {
  player_id : str;
  url : str;
  headless : bool;
  browser_path : option str;
  browser_name : str
}.

Definition REDEEM_URL : str := u "https://ks-giftcode.centurygame.com/".

Section Bot.
Context {Env : Type} `{!WebDriver Env} `{!Clock Env} `{!PyStr}.

Local Abbreviation M := (@M Env).

(** *** BotLogger *)

Definition _log (level prefix msg : str) : M unit :=
  emit (Log level (prefix ++ u " " ++ msg)).

Definition info (msg : str) : M unit := _log (u "info") (u "[*]") msg.
Definition success (msg : str) : M unit := _log (u "info") (u "[+]") msg.
Definition error (msg : str) : M unit := _log (u "error") (u "[ERROR]") msg.
Definition warning (msg : str) : M unit := _log (u "warning") (u "[!]") msg.
Definition debug (msg : str) : M unit := _log (u "debug") (u "[DEBUG]") msg.
Definition section (title : str) : M unit := emit (LogSection title).

(** *** KingshotBotHeadless *)

Definition _find_elements_safe (by_ : By) (value : str) : M (list WebElement) :=
  r <- try (via_driver (observe (find_elements by_ value))) ;;
  match r with
  | Ok elements => ret elements
  | Raise e =>
    if isinstance e NoSuchElementException
       || isinstance e StaleElementReferenceException
    then ret []
    else raise e
  end.

Definition _find_element_safe (by_ : By) (value : str) : M (option WebElement) :=
  r <- try (via_driver (observe (find_element by_ value))) ;;
  match r with
  | Ok element => ret (Some element)
  | Raise e =>
    if isinstance e NoSuchElementException
       || isinstance e StaleElementReferenceException
    then ret None
    else raise e
  end.

(** The loop [for attempt in range(max_attempts)] of [_click_element_safe],
    over the attempts that remain. *)
Fixpoint _click_element_safe_loop (element : WebElement) (max_attempts : nat)
    (attempts : list nat) : M bool :=
  match attempts with
  | [] => ret false
  | attempt :: rest =>
    r <- try (act (a_click element) (click element)) ;;
    match r with
    | Ok _ => ret true
    | Raise e =>
      if isinstance e ElementClickInterceptedException then
        debug (u "Click intercepted, attempt " ++ str_of_nat (attempt + 1)
               ++ u "/" ++ str_of_nat max_attempts) ;;
        sleep (config.click_delay config.TIMEOUTS) ;;
        if (attempt =? max_attempts - 1)%nat then
          r' <- try (via_driver (act (a_execute_script js_click [element])
                                     (execute_script js_click [element]))) ;;
          match r' with
          | Ok _ => ret true
          | Raise e' =>
            if isinstance e' Exception
            then _click_element_safe_loop element max_attempts rest
            else raise e'
          end
        else _click_element_safe_loop element max_attempts rest
      else if isinstance e StaleElementReferenceException then
        debug (u "Element became stale") ;;
        ret false
      else if isinstance e Exception then
        debug (u "Click error: " ++ message e) ;;
        ret false
      else raise e
    end
  end.

Definition _click_element_safe (element : WebElement) : M bool :=
  let max_attempts := 3 in
  _click_element_safe_loop element max_attempts (seq 0 max_attempts).

(** [WebDriverWait(driver, TIMEOUTS.webdriver_wait).until(method)]: the
    condition is polled every half second, [NoSuchElementException] is
    ignored, and [TimeoutException] is raised when the twenty seconds are
    up, that is after forty further polls. *)
Definition wait_timeout : exn :=
  {| cls := TimeoutException; message := u "Message: "; status_code := 0 |}.

Fixpoint until_loop (method : M bool) (polls : nat) : M unit :=
  r <- try method ;;
  match r with
  | Ok true => ret tt
  | Ok false =>
    match polls with
    | O => raise wait_timeout
    | S polls' => sleep (1 # 2) ;; until_loop method polls'
    end
  | Raise e =>
    if isinstance e NoSuchElementException then
      match polls with
      | O => raise wait_timeout
      | S polls' => sleep (1 # 2) ;; until_loop method polls'
      end
    else raise e
  end.

Definition wait_until (method : M bool) : M unit :=
  until_loop method 40.

Definition _wait_for_vue : M bool :=
  info (u "Waiting for Vue.js to load...") ;;
  r <- try (
    sleep (config.vue_load config.TIMEOUTS) ;;
    wait_until (
      app <- observe (find_element CSS_SELECTOR
                        (config.vue_app config.SELECTORS)) ;;
      t <- observe (text app) ;;
      ret (0 <? length t)%nat) ;;
    sleep (config.vue_extra_wait config.TIMEOUTS) ;;
    success (u "Vue.js loaded successfully") ;;
    ret true) ;;
  match r with
  | Ok b => ret b
  | Raise e =>
    if isinstance e TimeoutException then
      error (u "Vue.js failed to load within timeout") ;;
      ret false
    else raise e
  end.

(** The inner loop of [_find_all_clickables] over the elements of one
    selector. *)
Fixpoint _find_all_clickables_elems (elements clickables : list WebElement)
    : M (list WebElement) :=
  match elements with
  | [] => ret clickables
  | elem :: rest =>
    r <- try (observe (is_displayed elem)) ;;
    match r with
    | Ok true => _find_all_clickables_elems rest (clickables ++ [elem])
    | Ok false => _find_all_clickables_elems rest clickables
    | Raise e =>
      if isinstance e StaleElementReferenceException
      then _find_all_clickables_elems rest clickables
      else raise e
    end
  end.

Fixpoint _find_all_clickables_loop (selectors : list str)
    (clickables : list WebElement) : M (list WebElement) :=
  match selectors with
  | [] => ret clickables
  | selector :: rest =>
    elements <- _find_elements_safe CSS_SELECTOR selector ;;
    clickables' <- _find_all_clickables_elems elements clickables ;;
    _find_all_clickables_loop rest clickables'
  end.

Definition _find_all_clickables : M (list WebElement) :=
  _find_all_clickables_loop (config.clickable_buttons config.SELECTORS) [].

(** [s or ''] for an optional string. *)
Definition or_empty (s : option str) : str :=
  match s with
  | Some v => v
  | None => []
  end.

(** A non-empty string is truthy. *)
Definition truthy (s : str) : bool :=
  match s with
  | [] => false
  | _ => true
  end.

Fixpoint _find_button_by_keywords_loop (keywords : list str)
    (clickables : list WebElement) : M (option WebElement) :=
  match clickables with
  | [] => ret None
  | elem :: rest =>
    r <- try (
      t <- observe (text elem) ;;
      let txt := lower (strip t) in
      if truthy txt && any_in keywords txt then
        class_attr <- observe (get_attribute elem (u "class")) ;;
        if negb (contains (lower (or_empty class_attr)) (u "disabled")) then
          t' <- observe (text elem) ;;
          success (u "Button found by text: '" ++ t' ++ u "'") ;;
          ret (Some elem)
        else ret None
      else ret None) ;;
    match r with
    | Ok (Some found) => ret (Some found)
    | Ok None => _find_button_by_keywords_loop keywords rest
    | Raise e =>
      if isinstance e StaleElementReferenceException
      then _find_button_by_keywords_loop keywords rest
      else raise e
    end
  end.

(** Method 1 of [_find_button_by_keywords]: [Some button] when the selector
    gives a displayed element. *)
Definition _find_button_by_selector (css_selector : option str)
    : M (option WebElement) :=
  if truthy (or_empty css_selector) then
    button <- _find_element_safe CSS_SELECTOR (or_empty css_selector) ;;
    match button with
    | Some button =>
      shown <- observe (is_displayed button) ;;
      if shown then
        t <- observe (text button) ;;
        success (u "Button found by selector: '" ++ t ++ u "'") ;;
        ret (Some button)
      else ret None
    | None => ret None
    end
  else ret None.

Definition _find_button_by_keywords (keywords : list str)
    (css_selector : option str) : M (option WebElement) :=
  by_selector <- _find_button_by_selector css_selector ;;
  match by_selector with
  | Some button => ret (Some button)
  | None =>
    clickables <- _find_all_clickables ;;
    info (u "Searching " ++ str_of_nat (length clickables)
          ++ u " clickable elements...") ;;
    _find_button_by_keywords_loop keywords clickables
  end.

Definition _is_element_visible (element : WebElement) : M bool :=
  r <- try (observe (is_displayed element)) ;;
  match r with
  | Ok b => ret b
  | Raise e =>
    if isinstance e StaleElementReferenceException then ret false else raise e
  end.

(** [[inp for inp in inputs if self._is_element_visible(inp)]] *)
Fixpoint visible_only (inputs : list WebElement) : M (list WebElement) :=
  match inputs with
  | [] => ret []
  | inp :: rest =>
    b <- _is_element_visible inp ;;
    rest' <- visible_only rest ;;
    ret (if b then inp :: rest' else rest')
  end.

Fixpoint _find_input_field_by_maxlength (maxlength : str)
    (visible_inputs : list WebElement) : M (option WebElement) :=
  match visible_inputs with
  | [] => ret None
  | inp :: rest =>
    a <- observe (get_attribute inp (u "maxlength")) ;;
    if bool_decide (a = Some maxlength) then
      success (u "Field found by maxlength=" ++ maxlength) ;;
      ret (Some inp)
    else _find_input_field_by_maxlength maxlength rest
  end.

Definition placeholder_keywords (field_type : str) : list str :=
  if bool_decide (field_type = u "code")
  then config.code_placeholder config.LANGUAGE_KEYWORDS
  else map u ["player"; "id"; "jugador"].

Fixpoint _find_input_field_by_placeholder (field_type : str)
    (visible_inputs : list WebElement) : M (option WebElement) :=
  match visible_inputs with
  | [] => ret None
  | inp :: rest =>
    a <- observe (get_attribute inp (u "placeholder")) ;;
    let placeholder := lower (or_empty a) in
    let keywords := placeholder_keywords field_type in
    if any_in keywords placeholder then
      success (u "Field found by placeholder: '" ++ placeholder ++ u "'") ;;
      ret (Some inp)
    else _find_input_field_by_placeholder field_type rest
  end.

(** The inputs [_find_input_field] chooses from. *)
Definition gather_visible_inputs : M (list WebElement) :=
  inputs <- _find_elements_safe CSS_SELECTOR
              (config.text_inputs config.SELECTORS) ;;
  inputs <- match inputs with
            | [] =>
              all_inputs <- _find_elements_safe TAG_NAME (u "input") ;;
              visible_only all_inputs
            | _ => ret inputs
            end ;;
  visible_only inputs.

Definition _find_input_field (field_type : str) (maxlength : option str)
    : M (option WebElement) :=
  visible_inputs <- gather_visible_inputs ;;
  info (u "Found " ++ str_of_nat (length visible_inputs)
        ++ u " visible input fields") ;;
  by_maxlength <-
    (if truthy (or_empty maxlength)
     then _find_input_field_by_maxlength (or_empty maxlength) visible_inputs
     else ret None) ;;
  match by_maxlength with
  | Some inp => ret (Some inp)
  | None =>
    by_placeholder <-
      _find_input_field_by_placeholder field_type visible_inputs ;;
    match by_placeholder with
    | Some inp => ret (Some inp)
    | None =>
      match visible_inputs with
      | first :: _ =>
        warning (u "Using first visible input field") ;;
        ret (Some first)
      | [] => ret None
      end
    end
  end.

Definition _clear_browser_state (self : KingshotBotHeadless) : M unit :=
  if bool_decide (browser_name self = u "Edge") then
    r <- try (
      via_driver (act a_delete_all_cookies delete_all_cookies) ;;
      via_driver (act (a_execute_script js_sessionStorage_clear [])
                      (execute_script js_sessionStorage_clear [])) ;;
      via_driver (act (a_execute_script js_localStorage_clear [])
                      (execute_script js_localStorage_clear [])) ;;
      sleep (config.edge_stop config.TIMEOUTS)) ;;
    match r with
    | Ok _ => ret tt
    | Raise e =>
      if isinstance e Exception
      then debug (u "Could not clear browser state: " ++ message e)
      else raise e
    end
  else ret tt.

(** Method 1 of [dismiss_modal], the loop over the buttons of one selector;
    [true] when the method has closed the modal and returned [True]. *)
Fixpoint dismiss_modal_buttons (buttons : list WebElement) : M bool :=
  match buttons with
  | [] => ret false
  | btn :: rest =>
    visible <- _is_element_visible btn ;;
    if visible then
      t <- observe (text btn) ;;
      info (u "Found close button: "
            ++ (if truthy t then t else u "no text")) ;;
      clicked <- _click_element_safe btn ;;
      if clicked then
        sleep (config.modal_check config.TIMEOUTS) ;;
        success (u "Modal closed with button") ;;
        ret true
      else dismiss_modal_buttons rest
    else dismiss_modal_buttons rest
  end.

Fixpoint dismiss_modal_selectors (selectors : list str) : M bool :=
  match selectors with
  | [] => ret false
  | selector :: rest =>
    buttons <- _find_elements_safe CSS_SELECTOR selector ;;
    closed <- dismiss_modal_buttons buttons ;;
    if closed then ret true else dismiss_modal_selectors rest
  end.

(** Method 2 of [dismiss_modal]. *)
Definition dismiss_modal_mask : M bool :=
  mask <- _find_element_safe CSS_SELECTOR (config.mask config.SELECTORS) ;;
  match mask with
  | Some mask =>
    visible <- _is_element_visible mask ;;
    if visible then
      info (u "Clicking background mask...") ;;
      clicked <- _click_element_safe mask ;;
      if clicked then
        sleep (config.modal_check config.TIMEOUTS) ;;
        success (u "Modal closed by clicking mask") ;;
        ret true
      else ret false
    else ret false
  | None => ret false
  end.

(** Method 3 of [dismiss_modal]. *)
Definition dismiss_modal_force : M bool :=
  r <- try (
    via_driver (act (a_execute_script js_force_close_modals [])
                    (execute_script js_force_close_modals [])) ;;
    success (u "Modal force-closed with JavaScript") ;;
    sleep (config.modal_check config.TIMEOUTS) ;;
    ret true) ;;
  match r with
  | Ok b => ret b
  | Raise e => if isinstance e Exception then ret false else raise e
  end.

(** The body of the outer [try] of [dismiss_modal]. *)
Definition dismiss_modal_body : M bool :=
  info (u "Checking for active modal...") ;;
  sleep (config.modal_check config.TIMEOUTS) ;;
  by_button <- dismiss_modal_selectors
                 (config.close_buttons config.SELECTORS) ;;
  if by_button then ret true else
  by_mask <- dismiss_modal_mask ;;
  if by_mask then ret true else
  forced <- dismiss_modal_force ;;
  if forced then ret true else
  info (u "No active modal found") ;;
  ret false.

Definition dismiss_modal : M bool :=
  r <- try dismiss_modal_body ;;
  match r with
  | Ok b => ret b
  | Raise e =>
    if isinstance e Exception then
      warning (u "Error closing modal: " ++ message e) ;;
      ret false
    else raise e
  end.

(** [traceback.format_exc()] while [e] is being handled. *)
Definition format_exc (e : exn) : str :=
  u "Traceback (most recent call last): " ++ message e.

(** The body of the [try] of [login]. *)
Definition login_body (self : KingshotBotHeadless) : M bool :=
  loaded <- _wait_for_vue ;;
  if negb loaded then ret false else
  info (u "Looking for Player ID field...") ;;
  player_id_field <- _find_input_field (u "player_id") None ;;
  match player_id_field with
  | None =>
    error (u "Player ID field not found") ;;
    ret false
  | Some player_id_field =>
    a <- observe (get_attribute player_id_field (u "placeholder")) ;;
    let placeholder := or_empty a in
    success (u "Field found: '" ++ placeholder ++ u "'") ;;
    info (u "Entering Player ID: " ++ player_id self) ;;
    act (a_click player_id_field) (click player_id_field) ;;
    sleep (config.click_delay config.TIMEOUTS) ;;
    act (a_clear player_id_field) (clear player_id_field) ;;
    act (a_send_keys player_id_field (player_id self))
        (send_keys player_id_field (player_id self)) ;;
    sleep (config.click_delay config.TIMEOUTS) ;;
    success (u "Player ID entered successfully") ;;
    info (u "Looking for login button...") ;;
    login_button <- _find_button_by_keywords
                      (config.login config.LANGUAGE_KEYWORDS)
                      (Some (config.login_button config.SELECTORS)) ;;
    match login_button with
    | None =>
      error (u "Login button not found") ;;
      ret false
    | Some login_button =>
      info (u "Clicking login button...") ;;
      clicked <- _click_element_safe login_button ;;
      if negb clicked then
        error (u "Failed to click login button") ;;
        ret false
      else
        success (u "Click performed") ;;
        info (u "Waiting for server response (7.0s)...") ;;
        sleep (config.login_response config.TIMEOUTS) ;;
        success (u "Login completed successfully") ;;
        ret true
    end
  end.

Definition login (self : KingshotBotHeadless) : M bool :=
  info (u "Opening " ++ url self) ;;
  _clear_browser_state self ;;
  via_driver (act (a_get (url self)) (get (url self))) ;;
  sleep (config.navigation_retry config.TIMEOUTS) ;;
  current_url_ <- via_driver (observe current_url) ;;
  info (u "Current URL: " ++ current_url_) ;;
  (if contains current_url_ (u "data:")
      || bool_decide (current_url_ = u "about:blank")
   then
     warning (u "Navigation failed, retrying...") ;;
     sleep (config.navigation_retry config.TIMEOUTS) ;;
     via_driver (act (a_get (url self)) (get (url self))) ;;
     sleep (config.navigation_retry config.TIMEOUTS) ;;
     current_url_ <- via_driver (observe current_url) ;;
     info (u "URL after retry: " ++ current_url_)
   else ret tt) ;;
  r <- try (login_body self) ;;
  match r with
  | Ok b => ret b
  | Raise e =>
    if isinstance e Exception then
      error (u "Login error: " ++ message e) ;;
      debug (format_exc e) ;;
      ret false
    else raise e
  end.

Definition _analyze_result (code : str) : M RedeemResult :=
  source <- via_driver (observe page_source) ;;
  let page_text := lower source in
  debug (u "Page content preview: " ++ take 500 page_text) ;;
  if any_in (config.already_claimed config.LANGUAGE_KEYWORDS) page_text then
    warning (u "Code " ++ code ++ u " was already claimed previously") ;;
    ret ALREADY_CLAIMED
  else if any_in (config.success config.LANGUAGE_KEYWORDS) page_text then
    success (u "Code " ++ code ++ u " redeemed successfully!") ;;
    ret SUCCESS
  else if any_in (config.error config.LANGUAGE_KEYWORDS) page_text then
    error (u "Error redeeming code " ++ code) ;;
    ret FAILED
  else
    warning (u "Could not determine result for code " ++ code
             ++ u " - marking as failed") ;;
    ret FAILED.

(** The optional [progress_callback(step, total_steps, description)] of
    [redeem_code]: code of the caller, which may raise. *)
Definition ProgressCallback : Type := nat → nat → str → Res unit.

(** The closure [report_progress] of [redeem_code]; the [nonlocal] counter
    is passed in and its new value returned. *)
Definition report_progress (progress_callback : option ProgressCallback)
    (total_steps current_step : nat) (description : str) : M nat :=
  let current_step := current_step + 1 in
  match progress_callback with
  | Some callback =>
    emit (Progress current_step total_steps description) ;;
    match callback current_step total_steps description with
    | Ok _ => ret current_step
    | Raise e => raise e
    end
  | None => ret current_step
  end.

(** The body of the [try] of [redeem_code]. *)
Definition redeem_code_body (code : str)
    (progress_callback : option ProgressCallback) : M RedeemResult :=
  let total_steps := 7 in
  let current_step := 0 in
  current_step <- report_progress progress_callback total_steps current_step
                    (u "Waiting for page update") ;;
  info (u "Waiting for page update...") ;;
  sleep (config.page_update config.TIMEOUTS) ;;
  current_step <- report_progress progress_callback total_steps current_step
                    (u "Finding gift code field") ;;
  info (u "Looking for Gift Code field...") ;;
  gift_code_field <- _find_input_field (u "code") (Some (u "20")) ;;
  match gift_code_field with
  | None =>
    error (u "Gift Code field not found") ;;
    ret FAILED
  | Some gift_code_field =>
    current_step <- report_progress progress_callback total_steps current_step
                      (u "Entering code: " ++ code) ;;
    info (u "Entering code: " ++ code) ;;
    via_driver (act (a_execute_script js_scrollIntoView [gift_code_field])
                    (execute_script js_scrollIntoView [gift_code_field])) ;;
    sleep (config.click_delay config.TIMEOUTS) ;;
    act (a_click gift_code_field) (click gift_code_field) ;;
    sleep (config.click_delay config.TIMEOUTS) ;;
    act (a_clear gift_code_field) (clear gift_code_field) ;;
    sleep (config.input_delay config.TIMEOUTS) ;;
    act (a_send_keys gift_code_field code) (send_keys gift_code_field code) ;;
    sleep (config.modal_check config.TIMEOUTS) ;;
    success (u "Code entered successfully") ;;
    current_step <- report_progress progress_callback total_steps current_step
                      (u "Finding confirm button") ;;
    info (u "Looking for confirm button...") ;;
    confirm_button <- _find_button_by_keywords
                        (config.confirm config.LANGUAGE_KEYWORDS)
                        (Some (config.exchange_button config.SELECTORS)) ;;
    match confirm_button with
    | None =>
      error (u "Confirm button not found") ;;
      ret FAILED
    | Some confirm_button =>
      current_step <- report_progress progress_callback total_steps
                        current_step (u "Clicking confirm button") ;;
      info (u "Clicking confirm button...") ;;
      clicked <- _click_element_safe confirm_button ;;
      if negb clicked then
        error (u "Failed to click confirm button") ;;
        ret FAILED
      else
        success (u "Click performed") ;;
        current_step <- report_progress progress_callback total_steps
                          current_step (u "Waiting for server response") ;;
        info (u "Waiting for server response (5.0s)...") ;;
        sleep (config.redeem_response config.TIMEOUTS) ;;
        current_step <- report_progress progress_callback total_steps
                          current_step (u "Analyzing result") ;;
        result <- _analyze_result code ;;
        dismiss_modal ;;
        ret result
    end
  end.

Definition redeem_code (code : str)
    (progress_callback : option ProgressCallback) : M RedeemResult :=
  section (u "REDEEMING CODE: " ++ code) ;;
  r <- try (redeem_code_body code progress_callback) ;;
  match r with
  | Ok result => ret result
  | Raise e =>
    if isinstance e Exception then
      error (u "Redemption error: " ++ message e) ;;
      debug (format_exc e) ;;
      ret FAILED
    else raise e
  end.

Definition close : M unit :=
  info (u "Closing browser...") ;;
  r <- try (
    d <- get_driver ;;
    (if d then
       via_driver (act a_quit quit) ;;
       set_driver false
     else ret tt) ;;
    success (u "Browser closed successfully")) ;;
  match r with
  | Ok _ => ret tt
  | Raise e =>
    if isinstance e Exception
    then debug (u "Error closing browser: " ++ message e)
    else raise e
  end.

Definition _initialize_edge : M unit :=
  r <- try (
    via_driver (act (a_get (u "about:blank")) (get (u "about:blank"))) ;;
    sleep (config.edge_init config.TIMEOUTS) ;;
    via_driver (act (a_execute_script js_window_stop [])
                    (execute_script js_window_stop [])) ;;
    sleep (config.edge_stop config.TIMEOUTS)) ;;
  match r with
  | Ok _ => ret tt
  | Raise e =>
    if isinstance e Exception
    then debug (u "Edge initialization note: " ++ message e)
    else raise e
  end.

Definition _initialize_driver (self : KingshotBotHeadless) : M unit :=
  (if truthy (or_empty (browser_path self)) then
     info (u "Using " ++ browser_name self ++ u " browser: "
           ++ or_empty (browser_path self))
   else ret tt) ;;
  (if headless self
   then info (u "Headless mode enabled (INVISIBLE browser)")
   else info (u "Visible mode enabled")) ;;
  info (u "Starting ChromeDriver...") ;;
  r <- try (
    act (a_Chrome (headless self)) (Chrome (headless self)) ;;
    set_driver true ;;
    success (u "ChromeDriver started successfully") ;;
    if bool_decide (browser_name self = u "Edge")
    then _initialize_edge
    else ret tt) ;;
  match r with
  | Ok _ => ret tt
  | Raise e =>
    if isinstance e WebDriverException then
      error (u "Failed to start ChromeDriver: " ++ message e) ;;
      raise e
    else raise e
  end.

(** [KingshotBotHeadless(player_id, headless, log_callback, browser_path,
    browser_name)] *)
Definition __init__ (player_id : str) (headless : bool)
    (browser_path browser_name : option str) : M KingshotBotHeadless :=
  let self := {| player_id := player_id;
                 url := REDEEM_URL;
                 headless := headless;
                 browser_path := browser_path;
                 browser_name := if truthy (or_empty browser_name)
                                 then or_empty browser_name
                                 else u "Chrome" |} in
  emit (LogHeader player_id) ;;
  set_driver false ;;
  _initialize_driver self ;;
  ret self.

End Bot.

End bot_core.

(** ** utils.py *)

Module utils.

Definition CODES_SOURCE_URL : str := u "https://kingshot.net/gift-codes".

(** *** The scraping pattern

    [SCRAPING_PATTERN = r'Active([A-Za-z0-9]{5,20})(?:Copy|Expires)'], as
    [re] matches it: the group is greedy and gives characters back one at
    a time, down to five, until [Copy] or [Expires] follows. *)

Definition is_alnum (c : N) : bool :=
  ((48 <=? c) && (c <=? 57) || (65 <=? c) && (c <=? 90)
   || (97 <=? c) && (c <=? 122))%N.

(** The length of the longest run of [[A-Za-z0-9]] that starts [s], at
    most [n]. *)
Fixpoint alnum_run (s : str) (n : nat) : nat :=
  match n, s with
  | S n', c :: s' => if is_alnum c then S (alnum_run s' n') else 0
  | _, _ => 0
  end.

Definition tail_length (s : str) : option nat :=
  if startswith s (u "Copy") then Some 4
  else if startswith s (u "Expires") then Some 7
  else None.

(** The group lengths [k], [k - 1], ... down to five are tried in turn;
    the result is the group length and the length of the tail. *)
Fixpoint match_group (s : str) (k : nat) : option (nat * nat) :=
  match (if (5 <=? k)%nat then tail_length (drop k s) else None) with
  | Some t => Some (k, t)
  | None =>
    match k with
    | O => None
    | S k' => match_group s k'
    end
  end.

(** A match of the pattern at the start of [s]: the group and the length
    of the whole match. *)
Definition match_at (s : str) : option (str * nat) :=
  if startswith s (u "Active") then
    let rest := drop 6 s in
    match match_group rest (alnum_run rest 20) with
    | Some (k, t) => Some (take k rest, 6 + k + t)
    | None => None
    end
  else None.

Fixpoint findall_fuel (fuel : nat) (s : str) : list str :=
  match fuel with
  | O => []
  | S fuel' =>
    match s with
    | [] => []
    | _ :: s' =>
      match match_at s with
      | Some (group, len) => group :: findall_fuel fuel' (drop len s)
      | None => findall_fuel fuel' s'
      end
    end
  end.

(** [self.pattern.findall(all_text)] *)
Definition findall (all_text : str) : list str :=
  findall_fuel (length all_text) all_text.

(** [f"{delay:.1f}"], for the delays of [RETRY_CONFIG], which have one
    decimal: the rounding to tenths that is written here never has a tie
    to break. *)
Definition format_1f (q : Q) : str :=
  let tenths := Z.to_nat (Qfloor (q * 10 + (1 # 2))) in
  str_of_nat (tenths / 10) ++ u "." ++ str_of_nat (tenths mod 10).

(** [response.raise_for_status()] *)
Definition raise_for_status (url : str) (response : Response) : Res unit :=
  if ((400 <=? resp_status response) && (resp_status response <? 600))%nat
  then Raise {| cls := requests_HTTPError;
                message := str_of_nat (resp_status response)
                           ++ u " Error for url: " ++ url;
                status_code := resp_status response |}
  else Ok tt.

Section Fetcher.
Context {Env : Type} `{!Scraping Env} `{!Clock Env}.

Local Abbreviation M := (@M Env).

(** The loop [for attempt in range(RETRY_CONFIG.max_attempts)] of
    [_fetch_with_retry]; [last_error] is [None] before the first failure. *)
Fixpoint _fetch_with_retry_loop (url : str) (attempts : list nat)
    (last_error : option str) : M (option str) :=
  let max_attempts := config.max_attempts config.RETRY_CONFIG in
  match attempts with
  | [] =>
    print (u "[ERROR] All " ++ str_of_nat max_attempts
           ++ u " attempts failed. Last error: "
           ++ match last_error with Some s => s | None => u "None" end) ;;
    ret None
  | attempt :: rest =>
    r <- try (
      (if (0 <? attempt)%nat then
         let delay := (config.delay_between config.RETRY_CONFIG
                       * config.backoff_multiplier config.RETRY_CONFIG
                         ^ (Z.of_nat attempt - 1))%Q in
         print (u "[*] Retry " ++ str_of_nat (attempt + 1) ++ u "/"
                ++ str_of_nat max_attempts ++ u " after "
                ++ format_1f delay ++ u "s...") ;;
         sleep delay
       else ret tt) ;;
      response <- act (a_requests_get url)
                    (requests_get url (config.http_request config.TIMEOUTS)) ;;
      match raise_for_status url response with
      | Ok _ => ret (resp_text response)
      | Raise e => raise e
      end) ;;
    match r with
    | Ok text_ => ret (Some text_)
    | Raise e =>
      let failed_with (last_error : str) :=
        print (u "[!] Attempt " ++ str_of_nat (attempt + 1) ++ u ": "
               ++ last_error) ;;
        _fetch_with_retry_loop url rest (Some last_error) in
      if isinstance e requests_Timeout then
        failed_with (u "Connection timed out")
      else if isinstance e requests_ConnectionError then
        failed_with (u "Connection failed")
      else if isinstance e requests_HTTPError then
        failed_with (u "HTTP error: " ++ str_of_nat (status_code e))
      else if isinstance e Exception then
        failed_with (message e)
      else raise e
    end
  end.

Definition _fetch_with_retry (HAS_SCRAPING : bool) (url : str)
    : M (option str) :=
  if negb HAS_SCRAPING then
    print (u "[ERROR] Scraping dependencies not available") ;;
    ret None
  else
    _fetch_with_retry_loop url
      (seq 0 (config.max_attempts config.RETRY_CONFIG)) None.

(** The loop of [fetch] that removes duplicates while preserving order. *)
Fixpoint unique_loop (matches : list str) (seen : gset str)
    (unique_codes : list str) : list str :=
  match matches with
  | [] => unique_codes
  | code :: rest =>
    if bool_decide (code ∉ seen)
    then unique_loop rest ({[code]} ∪ seen) (unique_codes ++ [code])
    else unique_loop rest seen unique_codes
  end.

Fixpoint print_codes (active_codes : list str) : M unit :=
  match active_codes with
  | [] => ret tt
  | code :: rest => print (u "    - " ++ code) ;; print_codes rest
  end.

(** The body of the [try] of [fetch]. *)
Definition fetch_body (html_content : str) : M (list str) :=
  all_text <- observe (get_text html_content) ;;
  let matches := findall all_text in
  let unique_codes := unique_loop matches ∅ [] in
  let active_codes := take config.MAX_CODES_TO_FETCH unique_codes in
  (match active_codes with
   | _ :: _ =>
     print (u "[+] Found " ++ str_of_nat (length active_codes)
            ++ u " active codes:") ;;
     print_codes active_codes
   | [] => print (u "[!] No active codes found")
   end) ;;
  ret active_codes.

Definition fetch (HAS_SCRAPING : bool) : M (list str) :=
  let url := CODES_SOURCE_URL in
  print (u "[*] Fetching active codes from " ++ url ++ u "...") ;;
  html_content <- _fetch_with_retry HAS_SCRAPING url ;;
  match html_content with
  | None => ret []
  | Some [] => ret []
  | Some html_content =>
    r <- try (fetch_body html_content) ;;
    match r with
    | Ok active_codes => ret active_codes
    | Raise e =>
      if isinstance e Exception then
        print (u "[ERROR] Failed to parse codes: " ++ message e) ;;
        ret []
      else raise e
    end
  end.

Definition fetch_active_gift_codes (HAS_SCRAPING : bool) : M (list str) :=
  fetch HAS_SCRAPING.

End Fetcher.

(** *** BrowserInfo *)

Record BrowserInfo := {
  name : str;
  path : str;
  has_issues : bool
}.

Definition __str__ (self : BrowserInfo) : str :=
  let suffix := if has_issues self then u " (may have issues)" else [] in
  name self ++ suffix.

(** *** DependencyManager *)

Definition REQUIRED_PACKAGES : list (str * str) :=
  [(u "requests", u "requests");
   (u "bs4", u "beautifulsoup4");
   (u "selenium", u "selenium")].

Section Dependencies.
Context {Env : Type} `{!Machine Env}.

Local Abbreviation M := (@M Env).

(** The loop of [check_missing] over the packages that remain. *)
Fixpoint check_missing_loop (packages : list (str * str))
    (missing : list str) : M (list str) :=
  match packages with
  | [] => ret missing
  | (module_name, package_name) :: rest =>
    r <- host_call (import_module module_name) ;;
    match r with
    | imported => check_missing_loop rest missing
    | import_ImportError => check_missing_loop rest (missing ++ [package_name])
    | import_raises e => raise e
    end
  end.

Definition check_missing : M (list str) :=
  check_missing_loop REQUIRED_PACKAGES [].

Definition install (packages : list str) : M bool :=
  match packages with
  | [] => ret true
  | _ :: _ =>
    print (u "[*] Installing packages: " ++ join (u ", ") packages) ;;
    result <- host_call (pip_install_upgrade packages) ;;
    match result with
    | completed returncode stderr =>
      if (returncode =? 0)%Z then
        print (u "[+] Packages installed successfully!") ;;
        ret true
      else
        print (u "[ERROR] Installation failed: " ++ stderr) ;;
        ret false
    | run_TimeoutExpired =>
      print (u "[ERROR] Installation timed out") ;;
      ret false
    | run_raises e =>
      if isinstance e Exception then
        print (u "[ERROR] Failed to install packages: " ++ message e) ;;
        ret false
      else raise e
    end
  end.

Definition check_and_install_dependencies : M (option (list str)) :=
  missing <- check_missing ;;
  ret (match missing with
       | [] => None
       | _ :: _ => Some missing
       end).

Definition install_packages (packages : list str) : M bool :=
  install packages.

End Dependencies.

(** *** BrowserDetector *)

Section BrowserDetector.
Context `{!OS}.

Definition _get_paths_for_platform : list (str * list str) :=
  if bool_decide (system = u "Windows") then config.get_windows_paths
  else if bool_decide (system = u "Linux") then config.get_linux_paths
  else if bool_decide (system = u "Darwin") then config.get_macos_paths
  else [].

Fixpoint _find_browser_path (paths : list str) : option str :=
  match paths with
  | [] => None
  | path :: rest =>
    if path_exists path then Some path else _find_browser_path rest
  end.

(** The loop of [detect] over the items of the table that remain; an
    empty string is falsy, like [None]. *)
Fixpoint detect_loop (items : list (str * list str))
    (available : list BrowserInfo) : list BrowserInfo :=
  match items with
  | [] => available
  | (browser_name, paths) :: rest =>
    match _find_browser_path paths with
    | Some (c :: found_path) =>
      let has_issues := bool_decide (browser_name = u "Edge") in
      detect_loop rest
        (available ++ [{| name := browser_name;
                          path := c :: found_path;
                          has_issues := has_issues |}])
    | Some [] | None => detect_loop rest available
    end
  end.

Definition detect : list BrowserInfo :=
  detect_loop _get_paths_for_platform [].

(** The inner loop of [get_preferred]: the first browser named
    [priority_name]. *)
Fixpoint get_preferred_named (priority_name : str)
    (browsers : list BrowserInfo) : option BrowserInfo :=
  match browsers with
  | [] => None
  | browser :: rest =>
    if bool_decide (name browser = priority_name) then Some browser
    else get_preferred_named priority_name rest
  end.

(** The outer loop of [get_preferred], over the priorities that remain. *)
Fixpoint get_preferred_loop (priorities : list str)
    (browsers : list BrowserInfo) : option BrowserInfo :=
  match priorities with
  | [] => None
  | priority_name :: rest =>
    match get_preferred_named priority_name browsers with
    | Some browser => Some browser
    | None => get_preferred_loop rest browsers
    end
  end.

Definition get_preferred : option BrowserInfo :=
  let browsers := detect in
  match browsers with
  | [] => None
  | first :: _ =>
    match get_preferred_loop config.BROWSER_PRIORITY browsers with
    | Some browser => Some browser
    | None => Some first
    end
  end.

Definition detect_available_browsers : list (str * str) :=
  let browsers := detect in
  map (fun b => (__str__ b, path b)) browsers.

Definition get_preferred_browser : option str * option str :=
  match get_preferred with
  | Some browser => (Some (name browser), Some (path browser))
  | None => (None, None)
  end.

End BrowserDetector.

End utils.


(** ** bot.py *)

Module bot.

Import bot_core.

(** What [run_cli] learns from the machine before it starts the browser:
    the outcome of [check_and_install_cli_dependencies], of
    [load_player_id], of [get_preferred_browser], whether [--visible] is in
    [sys.argv] and whether the scraping packages could be imported. *)
Record Host := {
  dependencies_ok : bool;
  loaded_player_id : option str;
  preferred_browser : option str * option str;
  visible : bool;
  HAS_SCRAPING : bool
}.

Section Cli.
Context {Env : Type} `{!WebDriver Env} `{!Scraping Env} `{!Clock Env} `{!PyStr}.

Local Abbreviation M := (@M Env).

Definition rule : str := repeat 61%N 70.

Definition print_banner : M unit :=
  print [] ;;
  print rule ;;
  print (u "  Kingshot Gift Code Bot v3.0.0") ;;
  print rule.

(** One turn of the tally of [run_cli]. *)
Definition tally (counts : nat * nat * nat) (result : RedeemResult)
    : nat * nat * nat :=
  let '(successful, already_claimed, failed) := counts in
  if decide (result = SUCCESS) then
    (successful + 1, already_claimed, failed)
  else if decide (result = ALREADY_CLAIMED) then
    (successful, already_claimed + 1, failed)
  else
    (successful, already_claimed, failed + 1).

(** The loop [for i, code in enumerate(codes, 1)] of [run_cli]; [len_codes]
    is [len(codes)] of the whole list. *)
Fixpoint process_codes (len_codes i : nat) (codes : list str)
    (counts : nat * nat * nat) : M (nat * nat * nat) :=
  match codes with
  | [] => ret counts
  | code :: rest =>
    result <- redeem_code code None ;;
    let counts := tally counts result in
    (if (i <? len_codes)%nat
     then sleep (config.between_codes config.TIMEOUTS)
     else ret tt) ;;
    process_codes len_codes (i + 1) rest counts
  end.

(** The [try] body of [run_cli] once [bot] is bound. *)
Definition run_cli_session (bot : KingshotBotHeadless) (codes : list str)
    : M nat :=
  logged_in <- login bot ;;
  if negb logged_in then
    error (u "Login failed. Aborting.") ;;
    ret 1
  else
    let successful := 0 in
    let already_claimed := 0 in
    let failed := 0 in
    counts <- process_codes (length codes) 1 codes
                (successful, already_claimed, failed) ;;
    let '(successful, already_claimed, failed) := counts in
    print [] ;;
    print rule ;;
    print (u "FINAL SUMMARY") ;;
    print rule ;;
    print (u "[+] Successful: " ++ str_of_nat successful) ;;
    print (u "[!] Already claimed: " ++ str_of_nat already_claimed) ;;
    print (u "[-] Failed: " ++ str_of_nat failed) ;;
    print (u "[*] Total: "
           ++ str_of_nat (successful + already_claimed + failed)) ;;
    print rule ;;
    print [] ;;
    print (u "[+] Process completed!") ;;
    ret 0.

(** The line feed that opens the messages of the [except] clauses. *)
Definition newline : str := [10%N].

(** The [except] clauses of [run_cli]. *)
Definition run_cli_except (r : Res nat) : M nat :=
  match r with
  | Ok exit_code => ret exit_code
  | Raise e =>
    if isinstance e KeyboardInterrupt then
      print (newline ++ u "[!] Process interrupted by user") ;;
      ret 1
    else if isinstance e Exception then
      print (newline ++ u "[ERROR] Unexpected error: " ++ message e) ;;
      print (format_exc e) ;;
      ret 1
    else raise e
  end.

(** [bot = None; try: ... except: ... finally: if bot: bot.close()]. The
    name [bot] is bound exactly when the constructor has returned, so the
    [finally] block closes the bot in that case and does nothing when the
    constructor raised. *)
Definition run_cli_guarded (player_id : str) (headless : bool)
    (browser_path browser_name : option str) (codes : list str) : M nat :=
  constructed <- try (__init__ player_id headless browser_path browser_name) ;;
  match constructed with
  | Raise e => run_cli_except (Raise e)
  | Ok bot =>
    finally (r <- try (run_cli_session bot codes) ;; run_cli_except r) close
  end.

Definition run_cli (host : Host) : M nat :=
  print_banner ;;
  if negb (dependencies_ok host) then ret 1 else
  if negb (truthy (or_empty (loaded_player_id host))) then ret 1 else
  let player_id := or_empty (loaded_player_id host) in
  print [] ;;
  codes <- utils.fetch_active_gift_codes (HAS_SCRAPING host) ;;
  match codes with
  | [] =>
    print (u "[ERROR] Could not fetch active codes") ;;
    print (u "        Check your connection or visit: "
           ++ utils.CODES_SOURCE_URL) ;;
    ret 1
  | _ =>
    let headless := negb (visible host) in
    let '(browser_name, browser_path) := preferred_browser host in
    if negb (truthy (or_empty browser_name)) then
      print (u "[ERROR] No compatible browser found!") ;;
      print (u "        Please install one of: Chrome, Brave, Edge") ;;
      ret 1
    else
      print [] ;;
      print (u "Player ID: " ++ player_id) ;;
      print (u "Browser: " ++ or_empty browser_name) ;;
      print (u "Mode: " ++ (if headless then u "Headless" else u "Visible")) ;;
      print (u "Codes to redeem: " ++ str_of_nat (length codes)) ;;
      print [] ;;
      print rule ;;
      print [] ;;
      run_cli_guarded player_id headless browser_path browser_name codes
  end.

End Cli.

Section CliHost.
Context {Env : Type} `{!Machine Env} `{!PyStr}.

Local Abbreviation M := (@M Env).

Fixpoint print_packages (missing : list str) : M unit :=
  match missing with
  | [] => ret tt
  | pkg :: rest => print (u "  - " ++ pkg) ;; print_packages rest
  end.

(** The [except (KeyboardInterrupt, EOFError)] clause. *)
Definition installation_cancelled : M bool :=
  print (newline ++ newline ++ u "[!] Installation cancelled.") ;;
  ret false.

(** What follows [input()] in the [try] of
    [check_and_install_cli_dependencies]. *)
Definition answer_dependencies (missing : list str) (line : str) : M bool :=
  let response := lower (strip line) in
  if bool_decide (response ∈ [u "y"; u "yes"]) then
    installed <- utils.install_packages missing ;;
    if installed then
      print (newline ++ u "[+] Packages installed successfully!") ;;
      print (u "[!] Please restart the application.") ;;
      ret false
    else
      print (newline ++ u "[ERROR] Installation failed. Please run manually:") ;;
      print (u "        pip install " ++ join (u " ") missing) ;;
      ret false
  else
    print (newline ++ u "[!] Cannot continue without required packages.") ;;
    print (u "    Please install manually: pip install "
           ++ join (u " ") missing) ;;
    ret false.

(** [check_and_install_cli_dependencies] once [missing] is not empty. *)
Definition ask_to_install (missing : list str) : M bool :=
  print (u "[ERROR] Missing required packages:") ;;
  print_packages missing ;;
  print [] ;;
  print_no_end (u "Would you like to install them now? (y/n): ") ;;
  answer <- host_call input ;;
  match answer with
  | typed line =>
    r <- try (answer_dependencies missing line) ;;
    match r with
    | Ok b => ret b
    | Raise e =>
      if isinstance e KeyboardInterrupt then installation_cancelled
      else raise e
    end
  | input_EOFError => installation_cancelled
  | input_raises e =>
    if isinstance e KeyboardInterrupt then installation_cancelled
    else raise e
  end.

Definition check_and_install_cli_dependencies : M bool :=
  missing <- utils.check_and_install_dependencies ;;
  match missing with
  | None => ret true
  | Some missing => ask_to_install missing
  end.

Definition load_player_id : M (option str) :=
  file <- observe (fun env0 => Ok (read_text config.PLAYER_ID_FILE env0)) ;;
  match file with
  | read_content content =>
    let player_id := strip content in
    if negb (truthy player_id) then
      print (u "[ERROR] The " ++ config.PLAYER_ID_FILE ++ u " file is empty") ;;
      ret None
    else ret (Some player_id)
  | read_FileNotFoundError =>
    print (u "[ERROR] " ++ config.PLAYER_ID_FILE ++ u " file not found") ;;
    print (u "        Create the file and add your player ID") ;;
    ret None
  | read_raises e => raise e
  end.

End CliHost.

End bot.

(** ** gui.py *)

Module gui.

(** [_log_callback] classifies a line of the bot by its prefix and queues
    it with the tag; the queued pair is returned here. *)
Definition _log_callback (message : str) : str * str :=
  let tag := u "info" in
  let tag :=
    if startswith message (u "[+]") then u "success"
    else if startswith message (u "[ERROR]") then u "error"
    else if startswith message (u "[!]") then u "warning"
    else tag in
  (message, tag).

End gui.

(** ** A scripted environment

    A site whose answers are functions of the actions performed so far. It
    instantiates the interfaces for the concrete runs below. *)

Module sim.

Definition exc (c : exn_class) (msg : string) : exn :=
  {| cls := c; message := u msg; status_code := 0 |}.

Record Site := {
  found : list Action → By → str → Res (list WebElement);
  displayed : list Action → WebElement → Res bool;
  attribute : list Action → WebElement → str → Res (option str);
  inner_text : list Action → WebElement → Res str;
  source : list Action → Res str;
  location : list Action → Res str;
  reaction : list Action → Action → Res unit;
  http : list Action → Res Response;
  soup : str → Res str
}.

Record Browser := {
  site : Site;
  history : list Action
}.

Definition perform (a : Action) (b : Browser) : Res unit * Browser :=
  (reaction (site b) (history b) a,
   {| site := site b; history := history b ++ [a] |}).

#[global] Instance sim_webdriver : WebDriver Browser := {|
  Chrome headless := perform (a_Chrome headless);
  find_elements by_ value b := found (site b) (history b) by_ value;
  find_element by_ value b :=
    match found (site b) (history b) by_ value with
    | Ok (element :: _) => Ok element
    | Ok [] => Raise (exc NoSuchElementException "no such element")
    | Raise e => Raise e
    end;
  is_displayed element b := displayed (site b) (history b) element;
  get_attribute element name b := attribute (site b) (history b) element name;
  text element b := inner_text (site b) (history b) element;
  page_source b := source (site b) (history b);
  current_url b := location (site b) (history b);
  get url_ := perform (a_get url_);
  delete_all_cookies := perform a_delete_all_cookies;
  execute_script script args := perform (a_execute_script script args);
  click element := perform (a_click element);
  clear element := perform (a_clear element);
  send_keys element keys := perform (a_send_keys element keys);
  quit := perform a_quit
|}.

#[global] Instance sim_clock : Clock Browser := {|
  elapse _ b := b
|}.

#[global] Instance sim_scraping : Scraping Browser := {|
  requests_get url_ _ b :=
    (http (site b) (history b),
     {| site := site b; history := history b ++ [a_requests_get url_] |});
  get_text html b := soup (site b) html
|}.

(** [str.lower] and [str.strip] on ASCII text. *)
Definition ascii_lower (s : str) : str :=
  map (fun c => if ((65 <=? c) && (c <=? 90))%N then (c + 32)%N else c) s.

Definition is_space (c : N) : bool :=
  bool_decide (c ∈ [32; 9; 10; 11; 12; 13]%N).

Fixpoint lstrip (s : str) : str :=
  match s with
  | c :: s' => if is_space c then lstrip s' else s
  | [] => []
  end.

Definition ascii_strip (s : str) : str :=
  reverse (lstrip (reverse (lstrip s))).

#[global] Instance sim_pystr : PyStr := {|
  lower := ascii_lower;
  strip := ascii_strip
|}.

(** The last code typed into a field, if any. *)
Fixpoint last_keys (h : list Action) (acc : option str) : option str :=
  match h with
  | [] => acc
  | a_send_keys _ keys :: h' => last_keys h' (Some keys)
  | _ :: h' => last_keys h' acc
  end.

(** The number of actions of [h] that satisfy [p]. *)
Definition count_actions (p : Action → bool) (h : list Action) : nat :=
  length (List.filter p h).

Definition is_click (a : Action) : bool :=
  match a with
  | a_click _ => true
  | _ => false
  end.

Definition is_request (a : Action) : bool :=
  match a with
  | a_requests_get _ => true
  | _ => false
  end.

(** A site on which nothing is found and every action succeeds. *)
Definition blank : Site := {|
  found _ _ _ := Ok [];
  displayed _ _ := Ok true;
  attribute _ _ _ := Ok None;
  inner_text _ _ := Ok [];
  source _ := Ok (u "<html><body></body></html>");
  location _ := Ok bot_core.REDEEM_URL;
  reaction _ _ := Ok tt;
  http _ := Ok {| resp_status := 200; resp_text := [] |};
  soup html := Ok html
|}.

(** A site on which nothing is found and [reaction] answers the actions. *)
Definition reacting (reaction : list Action → Action → Res unit) : Site := {|
  found _ _ _ := Ok [];
  displayed _ _ := Ok true;
  attribute _ _ _ := Ok None;
  inner_text _ _ := Ok [];
  source _ := Ok (u "<html><body></body></html>");
  location _ := Ok bot_core.REDEEM_URL;
  reaction := reaction;
  http _ := Ok {| resp_status := 200; resp_text := [] |};
  soup html := Ok html
|}.

(** A browser that cannot be shut down: [quit] raises. *)
Definition stuck : Site :=
  reacting (fun _ a =>
    match a with
    | a_quit => Raise (exc WebDriverException "Message: chrome not reachable")
    | _ => Ok tt
    end).

(** The redemption portal: element 0 is the application root, 1 the input
    field, 2 the login button, 3 the confirm button. The page answers the
    code typed last: [used] codes are reported as already claimed, [bad]
    codes as invalid, every other code as redeemed; typing a [broken] code
    makes the driver raise. The code source lists [listing]. *)
Definition portal (used bad broken : list str) (listing : str) : Site := {|
  found _ by_ value :=
    if bool_decide (value = config.vue_app config.SELECTORS) then Ok [0]
    else if bool_decide (value = config.text_inputs config.SELECTORS)
    then Ok [1]
    else if bool_decide (value = config.login_button config.SELECTORS)
    then Ok [2]
    else if bool_decide (value = config.exchange_button config.SELECTORS)
    then Ok [3]
    else Ok [];
  displayed _ _ := Ok true;
  attribute _ element name :=
    if bool_decide (element = 1 ∧ name = u "maxlength") then Ok (Some (u "20"))
    else if bool_decide (element = 1 ∧ name = u "placeholder")
    then Ok (Some (u "Enter Gift Code"))
    else Ok None;
  inner_text _ element :=
    match element with
    | 0 => Ok (u "Kingshot")
    | 2 => Ok (u "Login")
    | 3 => Ok (u "Confirm")
    | _ => Ok []
    end;
  source h :=
    match last_keys h None with
    | Some code =>
      if bool_decide (code ∈ used)
      then Ok (u "<div id='app'><p>Gift code already claimed.</p></div>")
      else if bool_decide (code ∈ bad)
      then Ok (u "<div id='app'><p>Invalid gift code.</p></div>")
      else Ok (u "<div id='app'><p>Success! Check your mail.</p></div>")
    | None => Ok (u "<div id='app'></div>")
    end;
  location _ := Ok bot_core.REDEEM_URL;
  reaction _ a :=
    match a with
    | a_send_keys _ keys =>
      if bool_decide (keys ∈ broken)
      then Raise (exc WebDriverException "Message: unknown error")
      else Ok tt
    | _ => Ok tt
    end;
  http _ := Ok {| resp_status := 200; resp_text := listing |};
  soup html := Ok html
|}.

(** A browser whose first page load is interrupted from the keyboard. *)
Definition interrupted : Site :=
  reacting (fun _ a =>
    match a with
    | a_get _ => Raise (exc KeyboardInterrupt "KeyboardInterrupt")
    | _ => Ok tt
    end).

(** A page whose element is covered by an overlay: every click on it is
    intercepted; the script-level click works when [script_ok]. *)
Definition overlaid (script_ok : bool) : Site :=
  reacting (fun _ a =>
    match a with
    | a_click _ =>
      Raise (exc ElementClickInterceptedException
                 "Message: element click intercepted")
    | a_execute_script js_click _ =>
      if script_ok then Ok tt
      else Raise (exc WebDriverException "Message: javascript error")
    | _ => Ok tt
    end).

(** A page that was re-rendered: every click finds its handle stale. *)
Definition rerendered : Site :=
  reacting (fun _ a =>
    match a with
    | a_click _ =>
      Raise (exc StaleElementReferenceException
                 "Message: stale element reference")
    | _ => Ok tt
    end).

(** A form with three visible text inputs: 1 has the placeholder
    [Gift code], 2 an empty [maxlength] attribute, 3 the [maxlength]
    attribute [20]. *)
Definition form : Site := {|
  found _ _ value :=
    if bool_decide (value = config.text_inputs config.SELECTORS)
    then Ok [1; 2; 3]
    else Ok [];
  displayed _ _ := Ok true;
  attribute _ element name :=
    if bool_decide (element = 1 ∧ name = u "placeholder")
    then Ok (Some (u "Gift code"))
    else if bool_decide (element = 2 ∧ name = u "maxlength")
    then Ok (Some [])
    else if bool_decide (element = 3 ∧ name = u "maxlength")
    then Ok (Some (u "20"))
    else Ok None;
  inner_text _ _ := Ok [];
  source _ := Ok (u "<html><body></body></html>");
  location _ := Ok bot_core.REDEEM_URL;
  reaction _ _ := Ok tt;
  http _ := Ok {| resp_status := 200; resp_text := [] |};
  soup html := Ok html
|}.

(** A code source that answers with status [status] and the body
    [body], read by a parser that fails when [parses] is false. *)
Definition source_site (status : nat) (body : str) (parses : bool) : Site := {|
  found _ _ _ := Ok [];
  displayed _ _ := Ok true;
  attribute _ _ _ := Ok None;
  inner_text _ _ := Ok [];
  source _ := Ok [];
  location _ := Ok bot_core.REDEEM_URL;
  reaction _ _ := Ok tt;
  http _ := Ok {| resp_status := status; resp_text := body |};
  soup html := if parses then Ok html
               else Raise (exc Exception "parser error")
|}.

(** A site that shows the markup [markup] and nothing else. *)
Definition showing (markup : str) : Site := {|
  found _ _ _ := Ok [];
  displayed _ _ := Ok true;
  attribute _ _ _ := Ok None;
  inner_text _ _ := Ok [];
  source _ := Ok markup;
  location _ := Ok bot_core.REDEEM_URL;
  reaction _ _ := Ok tt;
  http _ := Ok {| resp_status := 200; resp_text := [] |};
  soup html := Ok html
|}.

(** The first state of a run on [s]. *)
Definition start (s : Site) : World Browser :=
  {| env := {| site := s; history := [] |}; driver := false; trace := [] |}.

(** A run on [s] whose bot has been constructed. *)
Definition started (s : Site) : World Browser :=
  {| env := {| site := s; history := [] |}; driver := true; trace := [] |}.

Definition cli_host : bot.Host := {|
  bot.dependencies_ok := true;
  bot.loaded_player_id := Some (u "12345678");
  bot.preferred_browser := (Some (u "Chrome"), Some (u "/usr/bin/google-chrome"));
  bot.visible := false;
  bot.HAS_SCRAPING := true
|}.

(** A button under an overlay that goes away at the first click: the
    first click is intercepted, the later ones are delivered. *)
Definition overlay_once : Site :=
  reacting (fun h a =>
    match a with
    | a_click _ =>
      if (count_actions is_click h =? 0)%nat
      then Raise (exc ElementClickInterceptedException
                      "Message: element click intercepted")
      else Ok tt
    | _ => Ok tt
    end).

(** A page covered by a dialog: element 7 is its close button. *)
Definition popup : Site := {|
  found _ _ value :=
    if bool_decide (value = u "div[class*='close']") then Ok [7] else Ok [];
  displayed _ _ := Ok true;
  attribute _ _ _ := Ok None;
  inner_text _ _ := Ok (u "Close");
  source _ := Ok (u "<html><body></body></html>");
  location _ := Ok bot_core.REDEEM_URL;
  reaction _ _ := Ok tt;
  http _ := Ok {| resp_status := 200; resp_text := [] |};
  soup html := Ok html
|}.

(** A network on which no page loads. *)
Definition unreachable : Site :=
  reacting (fun _ a =>
    match a with
    | a_get _ =>
      Raise (exc WebDriverException
                 "Message: unknown error: net::ERR_NAME_NOT_RESOLVED")
    | _ => Ok tt
    end).

(** A machine on which the driver does not start. *)
Definition driverless : Site :=
  reacting (fun _ a =>
    match a with
    | a_Chrome _ =>
      Raise (exc WebDriverException
                 "Message: session not created: cannot find Chrome binary")
    | _ => Ok tt
    end).

(** A Linux machine on which the paths [installed] exist. *)
Definition linux_box (installed : list str) : OS := {|
  system := u "Linux";
  environ_get _ := None;
  path_join a b := a ++ u "/" ++ b;
  path_exists path := bool_decide (path ∈ installed)
|}.

(** A machine of a platform the detector has no table for. *)
Definition bsd_box (installed : list str) : OS := {|
  system := u "FreeBSD";
  environ_get _ := None;
  path_join a b := a ++ u "/" ++ b;
  path_exists path := bool_decide (path ∈ installed)
|}.

(** The desk the program is started from: which modules import, what pip
    does, the files, what is typed, and what has been written to the
    console and asked of pip so far. *)
Record Desk := {
  modules : str → Imported;
  pip : Completed;
  files : str → Read;
  keyboard : list Typed;
  console : list str;
  pip_runs : list (list str)
}.

#[global] Instance sim_machine : Machine Desk := {|
  import_module module_name d := (modules d module_name, d);
  pip_install_upgrade packages d :=
    (pip d,
     {| modules := modules d; pip := pip d; files := files d;
        keyboard := keyboard d; console := console d;
        pip_runs := pip_runs d ++ [packages] |});
  read_text path d := files d path;
  stdout_write text_ d :=
    {| modules := modules d; pip := pip d; files := files d;
       keyboard := keyboard d; console := console d ++ [text_];
       pip_runs := pip_runs d |};
  input d :=
    match keyboard d with
    | [] => (input_EOFError, d)
    | answer :: rest =>
      (answer,
       {| modules := modules d; pip := pip d; files := files d;
          keyboard := rest; console := console d;
          pip_runs := pip_runs d |})
    end
|}.

(** A desk on which [bs4] and [selenium] are not installed, pip works,
    and [answers] are typed. *)
Definition bare_desk (answers : list Typed) : Desk := {|
  modules module_name :=
    if bool_decide (module_name = u "requests") then imported
    else import_ImportError;
  pip := completed 0 [];
  files _ := read_FileNotFoundError;
  keyboard := answers;
  console := [];
  pip_runs := []
|}.

(** A bot that drives Chrome. *)
Definition chrome_bot : bot_core.KingshotBotHeadless :=
  {| bot_core.player_id := u "12345678";
     bot_core.url := bot_core.REDEEM_URL;
     bot_core.headless := true;
     bot_core.browser_path := None;
     bot_core.browser_name := u "Chrome" |}.

(** A Linux machine with Chrome (the stable channel) and Edge. *)
Definition office_box : OS :=
  linux_box [u "/usr/bin/google-chrome-stable"; u "/usr/bin/microsoft-edge"].

(** The first state of a run at the desk [d]. *)
Definition at_desk (d : Desk) : World Desk :=
  {| env := d; driver := false; trace := [] |}.


(** A form with two displayed text inputs whose first input has been
    replaced by the page: reading an attribute of 1 finds the handle
    stale; 2 carries the [maxlength] attribute [20]. *)
Definition replaced_field : Site := {|
  found _ _ value :=
    if bool_decide (value = config.text_inputs config.SELECTORS)
    then Ok [1; 2]
    else Ok [];
  displayed _ _ := Ok true;
  attribute _ element name :=
    if bool_decide (element = 1)
    then Raise (exc StaleElementReferenceException
                    "Message: stale element reference")
    else if bool_decide (element = 2 ∧ name = u "maxlength")
    then Ok (Some (u "20"))
    else Ok None;
  inner_text _ _ := Ok [];
  source _ := Ok (u "<html><body></body></html>");
  location _ := Ok bot_core.REDEEM_URL;
  reaction _ _ := Ok tt;
  http _ := Ok {| resp_status := 200; resp_text := [] |};
  soup html := Ok html
|}.

(** The portal with someone at the keyboard: typing a code of [stop] is
    interrupted by Ctrl-C. *)
Definition interrupting (stop : list str) : Site := {|
  found := found (portal [] [] [] []);
  displayed := displayed (portal [] [] [] []);
  attribute := attribute (portal [] [] [] []);
  inner_text := inner_text (portal [] [] [] []);
  source := source (portal [] [] [] []);
  location := location (portal [] [] [] []);
  reaction _ a :=
    match a with
    | a_send_keys _ keys =>
      if bool_decide (keys ∈ stop)
      then Raise (exc KeyboardInterrupt "KeyboardInterrupt")
      else Ok tt
    | _ => Ok tt
    end;
  http := http (portal [] [] [] []);
  soup := soup (portal [] [] [] [])
|}.

End sim.

(** ** Reading a trace *)

Definition close_log : str := u "[*] Closing browser...".

(** The log line with which [close] starts. *)
Definition is_close (ev : Event) : bool :=
  match ev with
  | Log _ formatted_msg => startswith formatted_msg close_log
  | _ => false
  end.

Definition is_quit (ev : Event) : bool :=
  match ev with
  | Call a_quit _ => true
  | _ => false
  end.

Definition is_section (ev : Event) : bool :=
  match ev with
  | LogSection _ => true
  | _ => false
  end.

(** An event of the pipeline proper: no section header, no [close], no
    [quit]. *)
Definition quiet (ev : Event) : bool :=
  negb (is_close ev || is_quit ev || is_section ev).

(** No [close] and no [quit]; section headers are allowed. *)
Definition keeps_open (ev : Event) : bool :=
  negb (is_close ev || is_quit ev).

Definition count (p : Event → bool) (tr : list Event) : nat :=
  length (List.filter p tr).

(** The calls to [close], to [driver.quit] and the section titles of a
    trace. *)
Definition closes (tr : list Event) : nat := count is_close tr.
Definition quits (tr : list Event) : nat := count is_quit tr.
Definition sections (tr : list Event) : list str :=
  omap (fun ev => match ev with LogSection title => Some title | _ => None end)
       tr.

(** The direct clicks on [element], delivered or not. *)
Definition is_click_on (element : WebElement) (ev : Event) : bool :=
  match ev with
  | Call (a_click element') _ => bool_decide (element' = element)
  | _ => false
  end.

Definition is_log (ev : Event) : bool :=
  match ev with
  | Log _ _ => true
  | _ => false
  end.

(** The environment after an intercepted click on [element] and the delay
    that follows it. *)
Definition retried `{!WebDriver Env} `{!Clock Env} (element : WebElement)
    (env0 : Env) : Env :=
  elapse (config.click_delay config.TIMEOUTS) (snd (click element env0)).

(** A direct click on [element] is intercepted in [env0]. *)
Definition intercepted `{!WebDriver Env} (element : WebElement) (env0 : Env)
    : Prop :=
  ∃ e, fst (click element env0) = Raise e
       ∧ isinstance e ElementClickInterceptedException = true.

(** The outcome of the script-level click that [_click_element_safe] falls
    back to after three intercepted clicks from [w]. *)
Definition forced_click `{!WebDriver Env} `{!Clock Env} (element : WebElement)
    (w : World Env) : Res unit :=
  if driver w then
    fst (execute_script js_click [element]
           (retried element (retried element (retried element (env w)))))
  else Raise none_type_error.

(** A trace without its log lines. *)
Definition deeds (tr : list Event) : list Event :=
  List.filter (fun ev => negb (is_log ev)) tr.

(** The debug line [_analyze_result] logs before it classifies. *)
Definition preview `{!PyStr} (source : str) : Event :=
  Log (u "debug")
      (u "[DEBUG]" ++ u " " ++ u "Page content preview: "
       ++ take 500 (lower source)).

(** [successful + already_claimed + failed] for the counters of
    [run_cli]. *)
Definition tally_total (counts : nat * nat * nat) : nat :=
  let '(successful, already_claimed, failed) := counts in
  successful + already_claimed + failed.

(** The section title [redeem_code] logs for [code]. *)
Definition title_of (code : str) : str := u "REDEEMING CODE: " ++ code.

(** [m] only appends to the trace, and what it appends satisfies [P]. *)
Definition Emits {Env A} (P : Event → bool) (m : @M Env A) : Prop :=
  ∀ w, ∃ new, trace (snd (m w)) = trace w ++ new ∧ forallb P new = true.

(** [m] leaves the world as it is. *)
Definition Pure {Env A} (m : @M Env A) : Prop :=
  ∀ w, snd (m w) = w.

(** The test of [_is_element_visible] on the page [env0]. *)
Definition shown `{!WebDriver Env} (env0 : Env) (inp : WebElement) : bool :=
  match is_displayed inp env0 with
  | Ok b => b
  | Raise _ => false
  end.

(** The test of the first tier of [_find_input_field] on the page
    [env0]: the [maxlength] attribute of [inp] equals [maxlength]. *)
Definition maxlength_is `{!WebDriver Env} (env0 : Env) (maxlength : str)
    (inp : WebElement) : bool :=
  match get_attribute inp (u "maxlength") env0 with
  | Ok a => bool_decide (a = Some maxlength)
  | Raise _ => false
  end.


(** [m] returns or raises something that is not an [Exception]. *)
Definition NoException {Env A} (m : @M Env A) : Prop :=
  ∀ w e, fst (m w) = Raise e → isinstance e Exception = false.

(** [kw in text] for some [kw] of [keywords]. *)
Definition has_keyword (keywords : list str) (text_ : str) : Prop :=
  ∃ kw, kw ∈ keywords ∧ substring kw text_.

(** The elements of [l] that are not in [seen], each at its first
    occurrence: what the loop of [fetch] appends to [unique_codes]. *)
Fixpoint first_occurrences (seen : gset str) (l : list str) : list str :=
  match l with
  | [] => []
  | x :: l' =>
    if bool_decide (x ∉ seen)
    then x :: first_occurrences ({[x]} ∪ seen) l'
    else first_occurrences seen l'
  end.

Definition is_request_call (ev : Event) : bool :=
  match ev with
  | Call (a_requests_get _) _ => true
  | _ => false
  end.

(** A request to the code source fails in [env0]: [requests.get] raises an
    [Exception], or answers with a status that [raise_for_status]
    rejects. *)
Definition request_fails `{!Scraping Env} (env0 : Env) : Prop :=
  match fst (requests_get utils.CODES_SOURCE_URL
               (config.http_request config.TIMEOUTS) env0) with
  | Ok response =>
    (400 ≤ resp_status response)%nat ∧ (resp_status response < 600)%nat
  | Raise e => isinstance e Exception = true
  end.

(** The code source is down: [down] holds of the environments in which
    the fetcher finds itself, whatever it requests and however long it
    waits, and every request fails there. *)
Definition source_down `{!Scraping Env} `{!Clock Env} (down : Env → Prop)
    : Prop :=
  ∀ env0, down env0 →
    request_fails env0
    ∧ down (snd (requests_get utils.CODES_SOURCE_URL
                   (config.http_request config.TIMEOUTS) env0))
    ∧ ∀ seconds, down (elapse seconds env0).

(** [list.index]: the position of the first occurrence. *)
Fixpoint index_of (x : str) (l : list str) : option nat :=
  match l with
  | [] => None
  | y :: l' => if bool_decide (x = y) then Some 0 else S <$> index_of x l'
  end.

(** [codes] lists elements of [matches] by increasing position of their
    first occurrence. *)
Definition first_occurrence_order (codes matches : list str) : Prop :=
  ∀ i j a b, codes !! i = Some a → codes !! j = Some b → (i < j)%nat →
    ∃ ia ib, index_of a matches = Some ia ∧ index_of b matches = Some ib
             ∧ (ia < ib)%nat.

(** The first occurrence of [a] in [matches] comes before that of [b]. *)
Definition occurs_before (a b : str) (matches : list str) : Prop :=
  ∃ ia ib, index_of a matches = Some ia ∧ index_of b matches = Some ib
           ∧ (ia < ib)%nat.

(** The script-level clicks, delivered or not. *)
Definition is_script_click (ev : Event) : bool :=
  match ev with
  | Call (a_execute_script js_click _) _ => true
  | _ => false
  end.

(** The calls to the browser: every call but the requests of the
    fetcher. *)
Definition touches_browser (ev : Event) : bool :=
  match ev with
  | Call (a_requests_get _) _ => false
  | Call _ _ => true
  | _ => false
  end.

(** An event that is no call to the browser. *)
Definition leaves_browser (ev : Event) : bool := negb (touches_browser ev).

(** The delay before the attempt numbered [attempt] of
    [_fetch_with_retry], counted from 0:
    [delay_between * backoff_multiplier ** (attempt - 1)]. *)
Definition retry_delay (attempt : nat) : Q :=
  (config.delay_between config.RETRY_CONFIG
   * config.backoff_multiplier config.RETRY_CONFIG
     ^ (Z.of_nat attempt - 1))%Q.

(** The calls of a trace, to the browser or to the network. *)
Definition is_call (ev : Event) : bool :=
  match ev with
  | Call _ _ => true
  | _ => false
  end.

(** The requests and the delays of a trace. *)
Definition is_request_or_sleep (ev : Event) : bool :=
  match ev with
  | Call (a_requests_get _) _ => true
  | Sleep _ => true
  | _ => false
  end.

(** Every value [m] returns satisfies [Q]. *)
Definition Yields {Env A} (Q : A → Prop) (m : @M Env A) : Prop :=
  ∀ w a, fst (m w) = Ok a → Q a.

(** [m] leaves the environment and the driver reference as they are. *)
Definition Reads {Env A} (m : @M Env A) : Prop :=
  ∀ w, env (snd (m w)) = env w ∧ driver (snd (m w)) = driver w.

(** The results [redeem_code] reports. *)
Definition reported (result : bot_core.RedeemResult) : Prop :=
  result = bot_core.SUCCESS ∨ result = bot_core.ALREADY_CLAIMED
  ∨ result = bot_core.FAILED.

(** The exit codes of the command line. *)
Definition exit_status (exit_code : nat) : Prop :=
  exit_code = 0 ∨ exit_code = 1.

(** The [try] of [run_cli] with its [except] clauses, before the
    [finally] block runs. *)
Definition run_cli_handled {Env} `{!WebDriver Env} `{!Clock Env} `{!PyStr}
    (bot_ : bot_core.KingshotBotHeadless) (codes : list str) : @M Env nat :=
  r <- try (bot.run_cli_session bot_ codes) ;; bot.run_cli_except r.

(** What [check_missing] appends to its list for a module: the pip name
    of the package when the import raised [ImportError]. *)
Definition missing_package (r : Imported) (package_name : str) : list str :=
  match r with
  | import_ImportError => [package_name]
  | imported | import_raises _ => []
  end.

(** The import returned, or raised [ImportError]. *)
Definition import_settled (r : Imported) : Prop :=
  match r with
  | imported | import_ImportError => True
  | import_raises _ => False
  end.

(** What [print_banner] prints. *)
Definition banner : list Event :=
  [Print []; Print bot.rule; Print (u "  Kingshot Gift Code Bot v3.0.0");
   Print bot.rule].

(** A gift code as the scraping pattern captures it: five to twenty
    ASCII letters and digits. *)
Definition well_formed_code (code : str) : Prop :=
  (5 ≤ length code)%nat ∧ (length code ≤ 20)%nat
  ∧ forallb utils.is_alnum code = true.

(** The names of [config.BROWSER_PRIORITY] before position [j]. *)
Definition ranked_before (j : nat) (browser_name : str) : Prop :=
  ∃ i, (i < j)%nat ∧ config.BROWSER_PRIORITY !! i = Some browser_name.

(** * Properties *)

(** ** Strings *)

Section StringFacts.

(** The literals of the sources decode to their code points. *)
Example decode_check :
  u "已领取" = [24050; 39046; 21462]%N ∧ u "déjà" = [100; 233; 106; 224]%N.
Proof. split; reflexivity. Qed.

Lemma startswith_spec (s p : str) :
  startswith s p = true ↔ ∃ b, s = p ++ b.
Proof.
  revert s. induction p as [|x p IH]; intros s; simpl.
  - split; [intros _; by exists s | done].
  - destruct s as [|y s].
    + split; [done | intros [b Hb]; discriminate].
    + rewrite andb_true_iff, N.eqb_eq, IH. split.
      * intros [-> [b ->]]. by exists b.
      * intros [b Hb]. injection Hb as -> ->. eauto.
Qed.

Lemma contains_spec (s p : str) :
  contains s p = true ↔ substring p s.
Proof.
  unfold substring. induction s as [|y s IH]; simpl.
  - rewrite orb_false_r, startswith_spec. split.
    + intros [b Hb]. by exists [], b.
    + intros (a & b & Hab). destruct a; [by exists b |discriminate].
  - rewrite orb_true_iff, startswith_spec, IH. split.
    + intros [[b Hb] | (a & b & Hab)].
      * by exists [], b.
      * exists (y :: a), b. by rewrite Hab.
    + intros (a & b & Hab). destruct a as [|z a]; simpl in Hab.
      * left. by exists b.
      * right. injection Hab as _ ->. by exists a, b.
Qed.

Lemma any_in_spec (keywords : list str) (text_ : str) :
  any_in keywords text_ = true ↔ has_keyword keywords text_.
Proof.
  unfold any_in, has_keyword. rewrite existsb_exists. split.
  - intros (kw & Hin & Hc). exists kw.
    by rewrite list_elem_of_In, <- contains_spec.
  - intros (kw & Hin & Hc). exists kw.
    by rewrite <- list_elem_of_In, contains_spec.
Qed.

Lemma any_in_false (keywords : list str) (text_ : str) :
  ¬ has_keyword keywords text_ → any_in keywords text_ = false.
Proof.
  intros H. destruct (any_in keywords text_) eqn:E; [|done].
  by apply any_in_spec in E.
Qed.

End StringFacts.

(** ** The result classifier *)

Section Classifier.
Context {Env : Type} `{!WebDriver Env} `{!Clock Env} `{!PyStr}.
Import bot_core.

(** What [_analyze_result] does on a page it can read: the keyword lists
    are tried in the order already-claimed, success, error, and the last
    case is the default. *)
Lemma analyze_result_priority (code source : str) (w : World Env) :
  driver w = true →
  page_source (env w) = Ok source →
  _analyze_result code w =
    let page_text := lower source in
    if any_in (config.already_claimed config.LANGUAGE_KEYWORDS) page_text then
      (Ok ALREADY_CLAIMED,
       extend (extend w [preview source])
         [Log (u "warning")
            (u "[!]" ++ u " " ++ u "Code " ++ code
             ++ u " was already claimed previously")])
    else if any_in (config.success config.LANGUAGE_KEYWORDS) page_text then
      (Ok SUCCESS,
       extend (extend w [preview source])
         [Log (u "info")
            (u "[+]" ++ u " " ++ u "Code " ++ code
             ++ u " redeemed successfully!")])
    else if any_in (config.error config.LANGUAGE_KEYWORDS) page_text then
      (Ok FAILED,
       extend (extend w [preview source])
         [Log (u "error")
            (u "[ERROR]" ++ u " " ++ u "Error redeeming code " ++ code)])
    else
      (Ok FAILED,
       extend (extend w [preview source])
         [Log (u "warning")
            (u "[!]" ++ u " " ++ u "Could not determine result for code "
             ++ code ++ u " - marking as failed")]).
Proof.
  intros Hd Hsrc.
  unfold _analyze_result, bind, via_driver, observe.
  rewrite Hd, Hsrc. cbv zeta.
  unfold debug, warning, success, error, _log, emit, preview.
  repeat (destruct (any_in _ _)); reflexivity.
Qed.

(** C1. The keyword lists are tried in the fixed order already-claimed,
    success, error, default. A page whose lower-cased markup contains an
    already-claimed keyword is classified as [ALREADY_CLAIMED], and never
    as [SUCCESS], also when it contains a success keyword; without an
    already-claimed keyword, a success keyword gives [SUCCESS], also when
    an error keyword is there; without either, an error keyword gives
    [FAILED], logged as an error; and a page with no keyword at all gives
    the default [FAILED], logged as a warning. *)
Theorem classifier_priority (code source : str) (w : World Env) :
  driver w = true →
  page_source (env w) = Ok source →
  let has keywords := has_keyword keywords (lower source) in
  let result := fst (_analyze_result code w) in
  let logged := trace (snd (_analyze_result code w)) in
  (has (config.already_claimed config.LANGUAGE_KEYWORDS) →
   has (config.success config.LANGUAGE_KEYWORDS) →
   result = Ok ALREADY_CLAIMED ∧ result ≠ Ok SUCCESS)
  ∧ (has (config.already_claimed config.LANGUAGE_KEYWORDS) →
     result = Ok ALREADY_CLAIMED
     ∧ logged =
         trace w ++
         [preview source;
          Log (u "warning")
            (u "[!] Code " ++ code ++ u " was already claimed previously")])
  ∧ (¬ has (config.already_claimed config.LANGUAGE_KEYWORDS) →
     has (config.success config.LANGUAGE_KEYWORDS) →
     result = Ok SUCCESS
     ∧ logged =
         trace w ++
         [preview source;
          Log (u "info")
            (u "[+] Code " ++ code ++ u " redeemed successfully!")])
  ∧ (¬ has (config.already_claimed config.LANGUAGE_KEYWORDS) →
     ¬ has (config.success config.LANGUAGE_KEYWORDS) →
     has (config.error config.LANGUAGE_KEYWORDS) →
     result = Ok FAILED
     ∧ logged =
         trace w ++
         [preview source;
          Log (u "error") (u "[ERROR] Error redeeming code " ++ code)])
  ∧ (¬ has (config.already_claimed config.LANGUAGE_KEYWORDS) →
     ¬ has (config.success config.LANGUAGE_KEYWORDS) →
     ¬ has (config.error config.LANGUAGE_KEYWORDS) →
     result = Ok FAILED
     ∧ logged =
         trace w ++
         [preview source;
          Log (u "warning")
            (u "[!] Could not determine result for code " ++ code
             ++ u " - marking as failed")]).
Proof.
  intros Hd Hsrc. cbv zeta.
  rewrite (analyze_result_priority code source w Hd Hsrc). cbv zeta.
  assert (Hyes : ∀ keywords,
            has_keyword keywords (lower source) →
            any_in keywords (lower source) = true)
    by (intros keywords; apply any_in_spec).
  split; [|split; [|split; [|split]]].
  - intros Hac _. rewrite (Hyes _ Hac). by split.
  - intros Hac. rewrite (Hyes _ Hac). split; [done|].
    simpl. rewrite <- app_assoc. reflexivity.
  - intros Hac Hs. rewrite (any_in_false _ _ Hac), (Hyes _ Hs).
    split; [done|]. simpl. rewrite <- app_assoc. reflexivity.
  - intros Hac Hs He.
    rewrite (any_in_false _ _ Hac), (any_in_false _ _ Hs), (Hyes _ He).
    split; [done|]. simpl. rewrite <- app_assoc. reflexivity.
  - intros Hac Hs He.
    rewrite (any_in_false _ _ Hac), (any_in_false _ _ Hs),
      (any_in_false _ _ He).
    split; [done|]. simpl. rewrite <- app_assoc. reflexivity.
Qed.

(** C7. A page whose lower-cased markup contains no keyword of the
    already-claimed, success and error lists is classified as [FAILED]
    without raising, and the only line logged after the preview is the
    warning that the result could not be determined; no line of level
    [error] is logged, in contrast with a classified error. *)
Theorem classifier_completeness (code source : str) (w : World Env) :
  driver w = true →
  page_source (env w) = Ok source →
  ¬ has_keyword (config.already_claimed config.LANGUAGE_KEYWORDS)
                (lower source) →
  ¬ has_keyword (config.success config.LANGUAGE_KEYWORDS) (lower source) →
  ¬ has_keyword (config.error config.LANGUAGE_KEYWORDS) (lower source) →
  fst (_analyze_result code w) = Ok FAILED
  ∧ trace (snd (_analyze_result code w)) =
      trace w ++
      [preview source;
       Log (u "warning")
         (u "[!] Could not determine result for code " ++ code
          ++ u " - marking as failed")]
  ∧ (∀ msg, Log (u "error") msg ∉ [preview source;
       Log (u "warning")
         (u "[!] Could not determine result for code " ++ code
          ++ u " - marking as failed")]).
Proof.
  intros Hd Hsrc Hac Hs He.
  rewrite (analyze_result_priority code source w Hd Hsrc). cbv zeta.
  rewrite (any_in_false _ _ Hac), (any_in_false _ _ Hs), (any_in_false _ _ He).
  split; [done|]. split.
  - simpl. rewrite <- app_assoc. reflexivity.
  - intros msg Hin. apply list_elem_of_In in Hin.
    destruct Hin as [Hev|[Hev|[]]]; [unfold preview in Hev|];
      injection Hev as Hlevel _; vm_compute in Hlevel; discriminate.
Qed.

(** The contrast for C7: a page with an error keyword and no keyword of
    the two lists tried before is a classified error, logged at level
    [error]. *)
Lemma classified_error_log (code source : str) (w : World Env) :
  driver w = true →
  page_source (env w) = Ok source →
  ¬ has_keyword (config.already_claimed config.LANGUAGE_KEYWORDS)
                (lower source) →
  ¬ has_keyword (config.success config.LANGUAGE_KEYWORDS) (lower source) →
  has_keyword (config.error config.LANGUAGE_KEYWORDS) (lower source) →
  fst (_analyze_result code w) = Ok FAILED
  ∧ trace (snd (_analyze_result code w)) =
      trace w ++
      [preview source;
       Log (u "error") (u "[ERROR] Error redeeming code " ++ code)].
Proof.
  intros Hd Hsrc Hac Hs He.
  rewrite (analyze_result_priority code source w Hd Hsrc). cbv zeta.
  rewrite (any_in_false _ _ Hac), (any_in_false _ _ Hs).
  apply any_in_spec in He. rewrite He.
  split; [done|]. simpl. rewrite <- app_assoc. reflexivity.
Qed.

End Classifier.

(** ** Exception classes *)

Section Classes.

Lemma stale_not_intercepted (e : exn) :
  isinstance e StaleElementReferenceException = true →
  isinstance e ElementClickInterceptedException = false.
Proof. unfold isinstance. by destruct (cls e). Qed.

Lemma intercepted_is_exception (e : exn) :
  isinstance e ElementClickInterceptedException = true →
  isinstance e Exception = true.
Proof. unfold isinstance. by destruct (cls e). Qed.

Lemma keyboard_interrupt_not_exception (e : exn) :
  isinstance e KeyboardInterrupt = true → isinstance e Exception = false.
Proof. unfold isinstance. by destruct (cls e). Qed.

End Classes.

(** ** Traces *)

Section Traces.

Lemma count_app (p : Event → bool) (a b : list Event) :
  count p (a ++ b) = count p a + count p b.
Proof. unfold count. by rewrite List.filter_app, length_app. Qed.

Lemma deeds_app (a b : list Event) : deeds (a ++ b) = deeds a ++ deeds b.
Proof. apply List.filter_app. Qed.

Lemma count_forallb_false (p q : Event → bool) (new : list Event) :
  (∀ ev, q ev = true → p ev = false) →
  forallb q new = true → count p new = 0.
Proof.
  intros Hpq. induction new as [|ev new IH]; [done|].
  simpl. rewrite andb_true_iff. intros [Hq Hnew].
  unfold count in *. cbn [List.filter]. rewrite (Hpq ev Hq). by apply IH.
Qed.

Lemma sections_app (a b : list Event) :
  sections (a ++ b) = sections a ++ sections b.
Proof. unfold sections. apply omap_app. Qed.

Lemma sections_quiet (new : list Event) :
  forallb quiet new = true → sections new = [].
Proof.
  induction new as [|ev new IH]; [done|].
  simpl. rewrite andb_true_iff. intros [Hq Hnew].
  destruct ev; try (by apply IH). discriminate.
Qed.

Lemma quiet_keeps_open (ev : Event) : quiet ev = true → keeps_open ev = true.
Proof.
  unfold quiet, keeps_open. destruct (is_close ev), (is_quit ev); try done.
Qed.

Lemma forallb_impl (p q : Event → bool) (new : list Event) :
  (∀ ev, p ev = true → q ev = true) →
  forallb p new = true → forallb q new = true.
Proof.
  intros Hpq. rewrite !forallb_forall. auto.
Qed.

End Traces.

(** ** Running the monad *)

Ltac run :=
  unfold bot_core.debug, bot_core.info, bot_core.success, bot_core.warning,
    bot_core.error, bot_core._log, bot_core.section, print, finally;
  unfold bind, try, ret, raise, emit, extend, observe, act, via_driver,
    set_driver, get_driver, sleep;
  cbn [outcome fst snd env driver trace].

(** ** Safe clicks *)

Section Clicks.
Context {Env : Type} `{!WebDriver Env} `{!Clock Env} `{!PyStr}.
Import bot_core.

(** One turn of the retry loop on an intercepted click, when it is not the
    last attempt. *)
Lemma click_loop_intercepted (element : WebElement) (max_attempts attempt : nat)
    (rest : list nat) (w : World Env) (e : exn) :
  fst (click element (env w)) = Raise e →
  isinstance e ElementClickInterceptedException = true →
  (attempt =? max_attempts - 1)%nat = false →
  _click_element_safe_loop element max_attempts (attempt :: rest) w =
  _click_element_safe_loop element max_attempts rest
    {| env := retried element (env w);
       driver := driver w;
       trace := trace w ++
         [Call (a_click element) (Raise e);
          Log (u "debug")
            (u "[DEBUG]" ++ u " " ++ u "Click intercepted, attempt "
             ++ str_of_nat (attempt + 1) ++ u "/" ++ str_of_nat max_attempts);
          Sleep (config.click_delay config.TIMEOUTS)] |}.
Proof.
  intros Hc Hi Hlast.
  cbn [_click_element_safe_loop]. run. rewrite Hc. run. rewrite Hi. run.
  rewrite Hlast. unfold retried. rewrite <- !app_assoc. reflexivity.
Qed.

(** What [_click_element_safe] does with a stale handle. *)
Lemma stale_click_run (element : WebElement) (w : World Env) (e : exn) :
  fst (click element (env w)) = Raise e →
  isinstance e StaleElementReferenceException = true →
  _click_element_safe element w =
    (Ok false,
     {| env := snd (click element (env w));
        driver := driver w;
        trace := trace w ++
          [Call (a_click element) (Raise e);
           Log (u "debug") (u "[DEBUG]" ++ u " " ++ u "Element became stale")]
     |}).
Proof.
  intros Hc Hs.
  unfold _click_element_safe. cbn [seq _click_element_safe_loop]. run.
  rewrite Hc. run. rewrite (stale_not_intercepted e Hs), Hs. run.
  rewrite <- !app_assoc. reflexivity.
Qed.

(** C6. A click on a stale handle fails at once: the first attempt is the
    only one, and no delay, retry or script-level click follows it. *)
Theorem stale_short_circuit (element : WebElement) (w : World Env) (e : exn) :
  fst (click element (env w)) = Raise e →
  isinstance e StaleElementReferenceException = true →
  fst (_click_element_safe element w) = Ok false
  ∧ deeds (trace (snd (_click_element_safe element w))) =
      deeds (trace w) ++ [Call (a_click element) (Raise e)].
Proof.
  intros Hc Hs. rewrite (stale_click_run element w e Hc Hs). run.
  split; [done|]. rewrite deeds_app. reflexivity.
Qed.

(** The last turn of the retry loop on an intercepted click: the
    script-level click decides. *)
Lemma click_loop_last (element : WebElement) (w : World Env) (e : exn) :
  fst (click element (env w)) = Raise e →
  isinstance e ElementClickInterceptedException = true →
  let forced :=
    if driver w
    then fst (execute_script js_click [element] (retried element (env w)))
    else Raise none_type_error in
  fst (_click_element_safe_loop element 3 [2] w) =
    match forced with
    | Ok _ => Ok true
    | Raise e' => if isinstance e' Exception then Ok false else Raise e'
    end
  ∧ deeds (trace (snd (_click_element_safe_loop element 3 [2] w))) =
      deeds (trace w) ++
      [Call (a_click element) (Raise e);
       Sleep (config.click_delay config.TIMEOUTS)] ++
      (if driver w
       then [Call (a_execute_script js_click [element]) forced]
       else []).
Proof.
  intros Hc Hi. cbv zeta.
  cbn [_click_element_safe_loop]. run. rewrite Hc. run. rewrite Hi. run.
  cbn [Nat.eqb Nat.sub]. unfold retried.
  destruct (driver w); run.
  - destruct (fst (execute_script js_click [element] _)) as [[]|e'] eqn:Hf;
      run; [|destruct (isinstance e' Exception); run];
      (split; [reflexivity|]);
      rewrite !deeds_app; cbn; rewrite <- !app_assoc; reflexivity.
  - replace (isinstance none_type_error Exception) with true by reflexivity.
    run. split; [reflexivity|].
    rewrite !deeds_app; cbn; rewrite <- !app_assoc; reflexivity.
Qed.

(** C5. On a target whose click is intercepted at every attempt,
    [_click_element_safe] clicks three times, each click followed by the
    fixed delay, then tries the script-level click once; it returns [True]
    when that click is delivered and [False] when it fails. *)
Theorem click_retry_bound (element : WebElement) (w : World Env) :
  (∀ n, (n < 3)%nat →
     intercepted element (Nat.iter n (retried element) (env w))) →
  ∃ e1 e2 e3,
    deeds (trace (snd (_click_element_safe element w))) =
      deeds (trace w) ++
      [Call (a_click element) (Raise e1);
       Sleep (config.click_delay config.TIMEOUTS);
       Call (a_click element) (Raise e2);
       Sleep (config.click_delay config.TIMEOUTS);
       Call (a_click element) (Raise e3);
       Sleep (config.click_delay config.TIMEOUTS)] ++
      (if driver w
       then [Call (a_execute_script js_click [element])
                  (forced_click element w)]
       else [])
    ∧ fst (_click_element_safe element w) =
        match forced_click element w with
        | Ok _ => Ok true
        | Raise e' => if isinstance e' Exception then Ok false else Raise e'
        end
    ∧ (fst (_click_element_safe element w) = Ok false →
       ∃ e', forced_click element w = Raise e').
Proof.
  intros Hperm.
  destruct (Hperm 0) as (e1 & Hc1 & Hi1); [lia|].
  destruct (Hperm 1) as (e2 & Hc2 & Hi2); [lia|].
  destruct (Hperm 2) as (e3 & Hc3 & Hi3); [lia|].
  cbn [Nat.iter nat_rect] in Hc1, Hc2, Hc3.
  exists e1, e2, e3.
  unfold _click_element_safe. cbn [seq].
  rewrite (click_loop_intercepted element 3 0 _ w e1 Hc1 Hi1 eq_refl).
  match goal with |- context [_click_element_safe_loop _ _ _ ?w1] =>
    rewrite (click_loop_intercepted element 3 1 _ w1 e2 Hc2 Hi2 eq_refl);
    cbn [env driver trace]
  end.
  match goal with |- context [_click_element_safe_loop _ _ _ ?w2] =>
    destruct (click_loop_last element w2 e3 Hc3 Hi3) as [Hr Ht];
    cbn [env driver trace] in Hr, Ht
  end.
  unfold forced_click. split; [|split].
  - rewrite Ht, !deeds_app. cbn. rewrite <- !app_assoc. reflexivity.
  - rewrite Hr. reflexivity.
  - rewrite Hr. destruct (driver w); [|eauto].
    destruct (fst (execute_script js_click [element] _)) as [[]|e'];
      [discriminate | eauto].
Qed.

(** Whatever the target does, the loop clicks it at most once per attempt
    that remains. *)
Lemma click_loop_bound (element : WebElement) (max_attempts : nat)
    (attempts : list nat) (w : World Env) :
  ∃ new,
    trace (snd (_click_element_safe_loop element max_attempts attempts w))
    = trace w ++ new
    ∧ (count (is_click_on element) new ≤ length attempts)%nat.
Proof.
  revert w. induction attempts as [|attempt rest IH]; intros w.
  - exists []. cbn. rewrite app_nil_r. split; [done | unfold count; simpl; lia].
  - cbn [_click_element_safe_loop]. run.
    assert (Hone : ∀ r, count (is_click_on element)
                          [Call (a_click element) r] = 1).
    { intros r. unfold count. cbn [List.filter is_click_on].
      rewrite bool_decide_eq_true_2 by done. reflexivity. }
    destruct (fst (click element (env w))) as [[]|e] eqn:Hc; run.
    { eexists. split; [reflexivity|]. rewrite Hone. cbn. lia. }
    destruct (isinstance e ElementClickInterceptedException); run.
    + destruct (attempt =? max_attempts - 1)%nat.
      * destruct (driver w); run.
        -- destruct (fst (execute_script js_click [element] _)) as [[]|e'];
             run.
           ++ eexists. split; [rewrite <- !app_assoc; reflexivity|].
              rewrite !count_app, Hone. unfold count. cbn. lia.
           ++ destruct (isinstance e' Exception); run.
              ** match goal with
                 |- context [_click_element_safe_loop _ _ _ ?w1] =>
                   destruct (IH w1) as (new & -> & Hn)
                 end.
                 cbn [trace]. eexists.
                 split; [rewrite <- !app_assoc; reflexivity|].
                 rewrite !count_app, Hone. unfold count at 1 2 3. cbn. lia.
              ** eexists. split; [rewrite <- !app_assoc; reflexivity|].
                 rewrite !count_app, Hone. unfold count. cbn. lia.
        -- replace (isinstance none_type_error Exception)
             with true by reflexivity.
           match goal with
           |- context [_click_element_safe_loop _ _ _ ?w1] =>
             destruct (IH w1) as (new & -> & Hn)
           end.
           cbn [trace]. eexists.
           split; [rewrite <- !app_assoc; reflexivity|].
           rewrite !count_app, Hone. unfold count at 1 2. cbn. lia.
      * match goal with
        |- context [_click_element_safe_loop _ _ _ ?w1] =>
          destruct (IH w1) as (new & -> & Hn)
        end.
        cbn [trace]. eexists.
        split; [rewrite <- !app_assoc; reflexivity|].
        rewrite !count_app, Hone. unfold count at 1 2. cbn. lia.
    + destruct (isinstance e StaleElementReferenceException); run.
      * eexists. split; [rewrite <- !app_assoc; reflexivity|].
        rewrite !count_app, Hone. unfold count. cbn. lia.
      * destruct (isinstance e Exception); run.
        -- eexists. split; [rewrite <- !app_assoc; reflexivity|].
           rewrite !count_app, Hone. unfold count. cbn. lia.
        -- eexists. split; [reflexivity|]. rewrite Hone. cbn. lia.
Qed.

(** [_click_element_safe] never clicks its target more than three times. *)
Lemma click_attempts_at_most_three (element : WebElement) (w : World Env) :
  ∃ new,
    trace (snd (_click_element_safe element w)) = trace w ++ new
    ∧ (count (is_click_on element) new ≤ 3)%nat.
Proof. apply (click_loop_bound element 3 (seq 0 3) w). Qed.

(** A direct click that is delivered makes [_click_element_safe] return
    [True] at once. *)
Lemma click_delivered (element : WebElement) (w : World Env) :
  fst (click element (env w)) = Ok tt →
  fst (_click_element_safe element w) = Ok true.
Proof.
  intros Hc. unfold _click_element_safe. cbn [seq _click_element_safe_loop].
  run. rewrite Hc. reflexivity.
Qed.

(** X4. A direct click that is delivered at a later attempt, after
    intercepted ones, makes [_click_element_safe] return [True] as
    well. *)
Lemma click_delivered_on_retry (element : WebElement) (n : nat)
    (w : World Env) :
  (n < 3)%nat →
  (∀ m, (m < n)%nat →
     intercepted element (Nat.iter m (retried element) (env w))) →
  fst (click element (Nat.iter n (retried element) (env w))) = Ok tt →
  fst (_click_element_safe element w) = Ok true.
Proof.
  intros Hn Hbefore Hc.
  destruct n as [|[|[|n]]]; [by apply click_delivered | | | lia].
  - destruct (Hbefore 0) as (e1 & Hc1 & Hi1); [lia|].
    cbn [Nat.iter nat_rect] in Hc, Hc1.
    unfold _click_element_safe. cbn [seq].
    rewrite (click_loop_intercepted element 3 0 _ w e1 Hc1 Hi1 eq_refl).
    cbn [_click_element_safe_loop]. run. rewrite Hc. reflexivity.
  - destruct (Hbefore 0) as (e1 & Hc1 & Hi1); [lia|].
    destruct (Hbefore 1) as (e2 & Hc2 & Hi2); [lia|].
    cbn [Nat.iter nat_rect] in Hc, Hc1, Hc2.
    unfold _click_element_safe. cbn [seq].
    rewrite (click_loop_intercepted element 3 0 _ w e1 Hc1 Hi1 eq_refl).
    match goal with |- context [_click_element_safe_loop _ _ _ ?w1] =>
      rewrite (click_loop_intercepted element 3 1 _ w1 e2 Hc2 Hi2 eq_refl);
      cbn [env driver trace]
    end.
    cbn [_click_element_safe_loop]. run. rewrite Hc. reflexivity.
Qed.

End Clicks.

(** ** What a computation adds to the trace *)

Section Frames.
Context {Env : Type} `{!Clock Env}.
Variable P : Event → bool.

Local Abbreviation M := (@M Env).

Lemma Emits_ret {A} (a : A) : Emits P (ret a : M A).
Proof. intros w. exists []. by rewrite app_nil_r. Qed.

Lemma Emits_raise {A} (e : exn) : Emits P (raise e : M A).
Proof. intros w. exists []. by rewrite app_nil_r. Qed.

Lemma Emits_bind {A B} (m : M A) (k : A → M B) :
  Emits P m → (∀ a, Emits P (k a)) → Emits P (bind m k).
Proof.
  intros Hm Hk w. unfold bind.
  destruct (Hm w) as (new1 & Ht1 & Hp1).
  destruct (m w) as [[a|e] w1]; cbn [snd] in Ht1.
  - destruct (Hk a w1) as (new2 & Ht2 & Hp2).
    exists (new1 ++ new2). rewrite Ht2, Ht1, <- app_assoc.
    split; [done|]. rewrite forallb_app. by rewrite Hp1, Hp2.
  - by exists new1.
Qed.

Lemma Emits_try {A} (m : M A) : Emits P m → Emits P (try m).
Proof. intros Hm w. apply (Hm w). Qed.

Lemma Emits_finally {A} (m : M A) (fin : M unit) :
  Emits P m → Emits P fin → Emits P (finally m fin).
Proof.
  intros Hm Hf. unfold finally.
  apply Emits_bind; [by apply Emits_try|]. intros r.
  apply Emits_bind; [done|]. intros _.
  destruct r; [apply Emits_ret | apply Emits_raise].
Qed.

Lemma Emits_emit (ev : Event) : P ev = true → Emits P (emit ev : M unit).
Proof. intros Hp w. exists [ev]. cbn. by rewrite Hp. Qed.

Lemma Emits_observe {A} (f : Env → Res A) : Emits P (observe f).
Proof. intros w. exists []. by rewrite app_nil_r. Qed.

Lemma Emits_act {A} (a : Action) (f : Env → Res A * Env) :
  (∀ r, P (Call a r) = true) → Emits P (act a f).
Proof. intros Hp w. eexists [_]. cbn. by rewrite Hp. Qed.

Lemma Emits_via_driver {A} (m : M A) : Emits P m → Emits P (via_driver m).
Proof.
  intros Hm w. unfold via_driver. destruct (driver w); [apply Hm|].
  exists []. by rewrite app_nil_r.
Qed.

Lemma Emits_set_driver (b : bool) : Emits P (set_driver b : M unit).
Proof. intros w. exists []. by rewrite app_nil_r. Qed.

Lemma Emits_get_driver : Emits P (get_driver : M bool).
Proof. intros w. exists []. by rewrite app_nil_r. Qed.

Lemma Emits_sleep (seconds : Q) :
  P (Sleep seconds) = true → Emits P (sleep seconds : M unit).
Proof. intros Hp w. exists [Sleep seconds]. cbn. by rewrite Hp. Qed.

End Frames.

Lemma Emits_weaken {Env A} (P Q : Event → bool) (m : @M Env A) :
  (∀ ev, P ev = true → Q ev = true) → Emits P m → Emits Q m.
Proof.
  intros Hpq Hm w. destruct (Hm w) as (new & Ht & Hp).
  exists new. split; [done|]. by apply (forallb_impl P Q).
Qed.

Create HintDb emits.

(** Solves [Emits P m] by following the structure of [m]; [P] is decided
    by computation on each event [m] emits. *)
Ltac emits_step :=
  match goal with
  | |- Emits _ (ret _) => apply Emits_ret
  | |- Emits _ (raise _) => apply Emits_raise
  | |- Emits _ (bind _ _) => apply Emits_bind; [|intros ?]
  | |- Emits _ (try _) => apply Emits_try
  | |- Emits _ (finally _ _) => apply Emits_finally
  | |- Emits _ (via_driver _) => apply Emits_via_driver
  | |- Emits _ (observe _) => apply Emits_observe
  | |- Emits _ (set_driver _) => apply Emits_set_driver
  | |- Emits _ get_driver => apply Emits_get_driver
  | |- Emits _ (act _ _) => apply Emits_act; intros ?; reflexivity
  | |- Emits _ (sleep _) => apply Emits_sleep; reflexivity
  | |- Emits _ (emit _) => apply Emits_emit; vm_compute; reflexivity
  | |- Emits _ (print _) => apply Emits_emit; reflexivity
  | |- Emits _ (bot_core.info _) => apply Emits_emit; vm_compute; reflexivity
  | |- Emits _ (bot_core.success _) =>
      apply Emits_emit; vm_compute; reflexivity
  | |- Emits _ (bot_core.warning _) =>
      apply Emits_emit; vm_compute; reflexivity
  | |- Emits _ (bot_core.error _) => apply Emits_emit; vm_compute; reflexivity
  | |- Emits _ (bot_core.debug _) => apply Emits_emit; vm_compute; reflexivity
  | |- Emits _ (match ?x with _ => _ end) => destruct x
  | IH : ∀ _, Emits _ _ |- Emits _ _ => apply IH
  | IH : ∀ _ _, Emits _ _ |- Emits _ _ => apply IH
  | |- Emits _ _ => solve [eauto with emits]
  | |- Emits keeps_open _ =>
      apply (Emits_weaken quiet keeps_open);
      [exact quiet_keeps_open | solve [eauto with emits]]
  end.

Ltac emits := repeat emits_step.

Section QuietBot.
Context {Env : Type} `{!WebDriver Env} `{!Clock Env} `{!PyStr}.
Import bot_core.

Lemma quiet_find_elements_safe by_ value :
  Emits quiet (_find_elements_safe by_ value).
Proof. unfold _find_elements_safe. emits. Qed.

Lemma quiet_find_element_safe by_ value :
  Emits quiet (_find_element_safe by_ value).
Proof. unfold _find_element_safe. emits. Qed.

Lemma quiet_click_element_safe_loop element max_attempts attempts :
  Emits quiet (_click_element_safe_loop element max_attempts attempts).
Proof.
  induction attempts as [|attempt rest IH]; cbn [_click_element_safe_loop];
    emits.
Qed.

Lemma quiet_click_element_safe element :
  Emits quiet (_click_element_safe element).
Proof. apply quiet_click_element_safe_loop. Qed.

Local Hint Resolve quiet_find_elements_safe quiet_find_element_safe
  quiet_click_element_safe : emits.

Lemma quiet_until_loop method polls :
  Emits quiet method → Emits quiet (until_loop method polls).
Proof.
  intros Hm. induction polls as [|polls IH]; cbn [until_loop]; emits.
Qed.

Lemma quiet_wait_for_vue : Emits quiet _wait_for_vue.
Proof.
  unfold _wait_for_vue, wait_until. emits.
  apply quiet_until_loop. emits.
Qed.

Lemma quiet_find_all_clickables_elems elements clickables :
  Emits quiet (_find_all_clickables_elems elements clickables).
Proof.
  revert clickables.
  induction elements as [|elem rest IH]; intros clickables;
    cbn [_find_all_clickables_elems]; emits.
Qed.

Local Hint Resolve quiet_find_all_clickables_elems : emits.

Lemma quiet_find_all_clickables_loop selectors clickables :
  Emits quiet (_find_all_clickables_loop selectors clickables).
Proof.
  revert clickables.
  induction selectors as [|selector rest IH]; intros clickables;
    cbn [_find_all_clickables_loop]; emits.
Qed.

Lemma quiet_find_all_clickables : Emits quiet _find_all_clickables.
Proof. apply quiet_find_all_clickables_loop. Qed.

Lemma quiet_find_button_by_keywords_loop keywords clickables :
  Emits quiet (_find_button_by_keywords_loop keywords clickables).
Proof.
  induction clickables as [|elem rest IH];
    cbn [_find_button_by_keywords_loop]; emits.
Qed.

Lemma quiet_find_button_by_selector css_selector :
  Emits quiet (_find_button_by_selector css_selector).
Proof. unfold _find_button_by_selector. emits. Qed.

Local Hint Resolve quiet_find_all_clickables
  quiet_find_button_by_keywords_loop quiet_find_button_by_selector : emits.

Lemma quiet_find_button_by_keywords keywords css_selector :
  Emits quiet (_find_button_by_keywords keywords css_selector).
Proof. unfold _find_button_by_keywords. emits. Qed.

Lemma quiet_is_element_visible element :
  Emits quiet (_is_element_visible element).
Proof. unfold _is_element_visible. emits. Qed.

Local Hint Resolve quiet_find_button_by_keywords quiet_is_element_visible
  : emits.

Lemma quiet_visible_only inputs : Emits quiet (visible_only inputs).
Proof. induction inputs as [|inp rest IH]; cbn [visible_only]; emits. Qed.

Lemma quiet_find_input_field_by_maxlength maxlength visible_inputs :
  Emits quiet (_find_input_field_by_maxlength maxlength visible_inputs).
Proof.
  induction visible_inputs as [|inp rest IH];
    cbn [_find_input_field_by_maxlength]; emits.
Qed.

Lemma quiet_find_input_field_by_placeholder field_type visible_inputs :
  Emits quiet (_find_input_field_by_placeholder field_type visible_inputs).
Proof.
  induction visible_inputs as [|inp rest IH];
    cbn [_find_input_field_by_placeholder]; emits.
Qed.

Local Hint Resolve quiet_visible_only quiet_find_input_field_by_maxlength
  quiet_find_input_field_by_placeholder : emits.

Lemma quiet_gather_visible_inputs : Emits quiet gather_visible_inputs.
Proof. unfold gather_visible_inputs. emits. Qed.

Local Hint Resolve quiet_gather_visible_inputs : emits.

Lemma quiet_find_input_field field_type maxlength :
  Emits quiet (_find_input_field field_type maxlength).
Proof. unfold _find_input_field. emits. Qed.

Lemma quiet_clear_browser_state self :
  Emits quiet (_clear_browser_state self).
Proof. unfold _clear_browser_state. emits. Qed.

Lemma quiet_dismiss_modal_buttons buttons :
  Emits quiet (dismiss_modal_buttons buttons).
Proof.
  induction buttons as [|btn rest IH]; cbn [dismiss_modal_buttons]; emits.
Qed.

Local Hint Resolve quiet_find_input_field quiet_clear_browser_state
  quiet_dismiss_modal_buttons quiet_wait_for_vue : emits.

Lemma quiet_dismiss_modal_selectors selectors :
  Emits quiet (dismiss_modal_selectors selectors).
Proof.
  induction selectors as [|selector rest IH];
    cbn [dismiss_modal_selectors]; emits.
Qed.

Lemma quiet_dismiss_modal_mask : Emits quiet dismiss_modal_mask.
Proof. unfold dismiss_modal_mask. emits. Qed.

Lemma quiet_dismiss_modal_force : Emits quiet dismiss_modal_force.
Proof. unfold dismiss_modal_force. emits. Qed.

Local Hint Resolve quiet_dismiss_modal_selectors quiet_dismiss_modal_mask
  quiet_dismiss_modal_force : emits.

Lemma quiet_dismiss_modal : Emits quiet dismiss_modal.
Proof. unfold dismiss_modal, dismiss_modal_body. emits. Qed.

Lemma quiet_login self : Emits quiet (login self).
Proof. unfold login, login_body. emits. Qed.

Lemma quiet_analyze_result code : Emits quiet (_analyze_result code).
Proof. unfold _analyze_result. emits. Qed.

Lemma quiet_report_progress callback total_steps current_step description :
  Emits (Env:=Env) quiet
    (report_progress callback total_steps current_step description).
Proof. unfold report_progress. cbv zeta. emits. Qed.

Local Hint Resolve quiet_dismiss_modal quiet_analyze_result
  quiet_report_progress : emits.

Lemma quiet_redeem_code_body code callback :
  Emits quiet (redeem_code_body code callback).
Proof. unfold redeem_code_body. cbv zeta. emits. Qed.

Lemma quiet_initialize_edge : Emits quiet _initialize_edge.
Proof. unfold _initialize_edge. emits. Qed.

Local Hint Resolve quiet_initialize_edge : emits.

Lemma quiet_initialize_driver self : Emits quiet (_initialize_driver self).
Proof. unfold _initialize_driver. emits. Qed.

Local Hint Resolve quiet_initialize_driver : emits.

Lemma quiet_init player_id headless browser_path browser_name :
  Emits quiet (__init__ player_id headless browser_path browser_name).
Proof. unfold __init__. cbv zeta. emits. Qed.

End QuietBot.

#[global] Hint Resolve quiet_login quiet_init quiet_redeem_code_body : emits.

(** ** One code, then the next *)

Section Isolation.
Context {Env : Type} `{!WebDriver Env} `{!Clock Env} `{!PyStr}.
Import bot_core bot.

Lemma Emits_counts {A} (m : @M Env A) (w : World Env) :
  Emits keeps_open m →
  closes (trace (snd (m w))) = closes (trace w)
  ∧ quits (trace (snd (m w))) = quits (trace w).
Proof.
  intros Hm. destruct (Hm w) as (new & -> & Hk).
  unfold closes, quits. rewrite !count_app.
  rewrite (count_forallb_false is_close keeps_open new),
          (count_forallb_false is_quit keeps_open new); [lia|..|done]; try done.
  - intros ev. unfold keeps_open.
    destruct (is_close ev), (is_quit ev); done.
  - intros ev. unfold keeps_open. destruct (is_close ev); done.
Qed.

(** [redeem_code] turns every [Exception] of its pipeline into [FAILED]. *)
Lemma redeem_code_catches (code : str) (callback : option ProgressCallback)
    (w : World Env) (e : exn) :
  fst (redeem_code_body code callback (extend w [LogSection (title_of code)]))
    = Raise e →
  isinstance e Exception = true →
  fst (redeem_code code callback w) = Ok FAILED.
Proof.
  intros Hb He. unfold redeem_code. run. unfold extend, title_of in Hb.
  rewrite Hb, He. reflexivity.
Qed.

Lemma redeem_code_no_exception (code : str)
    (callback : option ProgressCallback) :
  NoException (redeem_code code callback).
Proof.
  intros w e. unfold redeem_code. run.
  destruct (fst (redeem_code_body _ _ _)) as [result|e'];
    [discriminate|].
  destruct (isinstance e' Exception) eqn:He'; [discriminate|].
  cbn. intros [= <-]. exact He'.
Qed.

(** The trace of one [redeem_code]: the section header of the code, then
    events of the pipeline. *)
Lemma redeem_code_trace (code : str) (callback : option ProgressCallback)
    (w : World Env) :
  ∃ new,
    trace (snd (redeem_code code callback w))
    = trace w ++ LogSection (title_of code) :: new
    ∧ forallb quiet new = true.
Proof.
  unfold redeem_code.
  match goal with |- context [bind (section ?t) ?k] =>
    assert (Hk : Emits quiet (k tt)) by emits;
    destruct (Hk (extend w [LogSection t])) as (new & Ht & Hq);
    exists new
  end.
  split; [|done]. unfold bind at 1, section, emit. rewrite Ht.
  cbn [extend trace]. rewrite <- app_assoc. reflexivity.
Qed.

Lemma keeps_open_redeem_code (code : str)
    (callback : option ProgressCallback) :
  Emits keeps_open (redeem_code code callback).
Proof.
  intros w. destruct (redeem_code_trace code callback w) as (new & Ht & Hq).
  eexists. split; [exact Ht|]. cbn [forallb].
  by rewrite (forallb_impl quiet keeps_open new quiet_keeps_open Hq).
Qed.

(** The loop of [run_cli]: the codes are attempted in order, and only
    something that is not an [Exception] stops it early. *)
Lemma process_codes_spec (codes : list str) (len_codes i : nat)
    (counts : nat * nat * nat) (w : World Env) :
  ∃ new attempted,
    trace (snd (process_codes len_codes i codes counts w)) = trace w ++ new
    ∧ forallb keeps_open new = true
    ∧ sections new = map title_of attempted
    ∧ match fst (process_codes len_codes i codes counts w) with
      | Ok counts' =>
        attempted = codes
        ∧ tally_total counts' = tally_total counts + length codes
      | Raise e =>
        isinstance e Exception = false ∧ attempted `prefix_of` codes
      end.
Proof.
  revert i counts w.
  induction codes as [|code rest IH]; intros i counts w.
  - exists [], []. cbn. rewrite app_nil_r. repeat split; try done; lia.
  - destruct (redeem_code_trace code None w) as (new1 & Ht1 & Hq1).
    pose proof (redeem_code_no_exception code None w) as Hne.
    destruct (redeem_code code None w) as [[result|e] w1] eqn:Hr;
      cbn [fst snd] in *.
    + assert (Hs : ∃ w2,
                 (∀ k : unit → @M Env (nat * nat * nat),
                    bind (if (i <? len_codes)%nat
                          then sleep (config.between_codes config.TIMEOUTS)
                          else ret tt) k w1 = k tt w2)
                 ∧ ∃ new2, trace w2 = trace w1 ++ new2
                           ∧ forallb quiet new2 = true).
      { destruct (i <? len_codes)%nat.
        - eexists. split; [intros k; reflexivity|].
          by exists [Sleep (config.between_codes config.TIMEOUTS)].
        - exists w1. split; [intros k; reflexivity|]. exists [].
          by rewrite app_nil_r. }
      destruct Hs as (w2 & Hs & new2 & Ht2 & Hq2).
      assert (Hpc : process_codes len_codes i (code :: rest) counts w
                    = process_codes len_codes (i + 1) rest
                        (tally counts result) w2).
      { cbn [process_codes]. unfold bind at 1. rewrite Hr. apply Hs. }
      rewrite Hpc.
      destruct (IH (i + 1) (tally counts result) w2)
        as (new3 & attempted & Ht3 & Hk3 & Hsec3 & Hres).
      exists (LogSection (title_of code) :: new1 ++ new2 ++ new3).
      exists (code :: attempted).
      rewrite Ht3, Ht2, Ht1. split; [by rewrite <- !app_assoc|]. split.
      { cbn [forallb]. rewrite !forallb_app.
        rewrite (forallb_impl quiet keeps_open new1 quiet_keeps_open Hq1).
        rewrite (forallb_impl quiet keeps_open new2 quiet_keeps_open Hq2).
        by rewrite Hk3. }
      split.
      { change (LogSection (title_of code) :: new1 ++ new2 ++ new3)
          with ([LogSection (title_of code)] ++ new1 ++ new2 ++ new3).
        rewrite !sections_app, (sections_quiet new1 Hq1),
          (sections_quiet new2 Hq2), Hsec3.
        reflexivity. }
      destruct (fst (process_codes len_codes (i + 1) rest
                       (tally counts result) w2)) as [counts'|e].
      * destruct Hres as [-> Htot]. split; [done|]. rewrite Htot.
        cbn [length]. unfold tally, tally_total.
        destruct counts as [[s a] f].
        repeat case_decide; lia.
      * destruct Hres as [He Hpre]. split; [done|].
        by apply prefix_cons.
    + assert (Hpc : process_codes len_codes i (code :: rest) counts w
                    = (Raise e, w1)).
      { cbn [process_codes]. unfold bind at 1. by rewrite Hr. }
      rewrite Hpc. cbn [fst snd].
      exists (LogSection (title_of code) :: new1), [code].
      split; [done|]. split.
      { cbn [forallb].
        by rewrite (forallb_impl quiet keeps_open new1 quiet_keeps_open Hq1). }
      split.
      { change (LogSection (title_of code) :: new1)
          with ([LogSection (title_of code)] ++ new1).
        by rewrite sections_app, (sections_quiet new1 Hq1). }
      split; [by apply Hne|]. by exists rest.
Qed.

(** [redeem_code] passes on what is not an [Exception]. *)
Lemma redeem_code_passes (code : str) (callback : option ProgressCallback)
    (w : World Env) (e : exn) :
  fst (redeem_code_body code callback (extend w [LogSection (title_of code)]))
    = Raise e →
  isinstance e Exception = false →
  fst (redeem_code code callback w) = Raise e.
Proof.
  intros Hb He. unfold redeem_code. run. unfold extend, title_of in Hb.
  rewrite Hb, He. reflexivity.
Qed.

(** C3, as amended. An [Exception] raised at any step of the pipeline of a
    code is caught by [redeem_code], which returns [FAILED]; what is not
    an [Exception] (an interrupt) is not caught and leaves [redeem_code];
    [redeem_code] lets no [Exception] escape; and the loop of [run_cli]
    therefore attempts every code of the list, in order, unless something
    that is not an [Exception] ends it, in which case the codes attempted
    are an initial part of the list: the loop ends with the call of
    [redeem_code] that raises, and nothing is done after it. *)
Theorem sequential_isolation (codes : list str) (w : World Env) :
  (∀ code callback w0 e,
     fst (redeem_code_body code callback
            (extend w0 [LogSection (title_of code)])) = Raise e →
     isinstance e Exception = true →
     fst (redeem_code code callback w0) = Ok FAILED)
  ∧ (∀ code callback w0 e,
       fst (redeem_code_body code callback
              (extend w0 [LogSection (title_of code)])) = Raise e →
       isinstance e Exception = false →
       fst (redeem_code code callback w0) = Raise e)
  ∧ (∀ code callback, NoException (redeem_code code callback))
  ∧ match fst (process_codes (length codes) 1 codes (0, 0, 0) w) with
    | Ok counts =>
      sections (trace (snd (process_codes (length codes) 1 codes (0, 0, 0) w)))
      = sections (trace w) ++ map title_of codes
      ∧ tally_total counts = length codes
    | Raise e =>
      isinstance e Exception = false
      ∧ ∃ attempted,
          attempted `prefix_of` codes
          ∧ sections (trace (snd (process_codes (length codes) 1 codes
                                    (0, 0, 0) w)))
            = sections (trace w) ++ map title_of attempted
    end
  ∧ (∀ code rest len_codes i counts w0 e,
       fst (redeem_code code None w0) = Raise e →
       process_codes len_codes i (code :: rest) counts w0
       = (Raise e, snd (redeem_code code None w0))).
Proof.
  split; [exact redeem_code_catches|].
  split; [exact redeem_code_passes|].
  split; [exact redeem_code_no_exception|].
  split.
  2: { intros code rest len_codes i counts w0 e Hr.
       cbn [process_codes]. unfold bind at 1.
       destruct (redeem_code code None w0) as [[result|e'] w1];
         cbn [fst snd] in *; [discriminate|]. by injection Hr as ->. }
  destruct (process_codes_spec codes (length codes) 1 (0, 0, 0) w)
    as (new & attempted & -> & _ & Hsec & Hres).
  destruct (fst (process_codes _ _ _ _ _)) as [counts|e].
  - destruct Hres as [-> Htot]. split; [|exact Htot].
    by rewrite sections_app, Hsec.
  - destruct Hres as [He Hpre]. split; [exact He|].
    exists attempted. split; [exact Hpre|].
    by rewrite sections_app, Hsec.
Qed.

End Isolation.

(** ** Session statistics *)

Section Statistics.
Context {Env : Type} `{!WebDriver Env} `{!Clock Env} `{!PyStr}.
Import bot_core bot.

Lemma update_total (stats : RedeemStats) (result : RedeemResult) :
  total (update stats result) = total stats + 1.
Proof. unfold update, total. repeat case_decide; cbn; lia. Qed.

Lemma updates_total (results : list RedeemResult) (stats : RedeemStats) :
  total (foldl update stats results) = total stats + length results.
Proof.
  revert stats. induction results as [|result results IH]; intros stats.
  - cbn. lia.
  - cbn [foldl length]. rewrite IH, update_total. lia.
Qed.

Lemma tally_update (results : list RedeemResult) (stats : RedeemStats) :
  foldl tally (successful stats, already_claimed stats, failed stats) results
  = (successful (foldl update stats results),
     already_claimed (foldl update stats results),
     failed (foldl update stats results)).
Proof.
  revert stats. induction results as [|result results IH]; intros stats.
  - reflexivity.
  - cbn [foldl]. rewrite <- IH. f_equal.
    unfold tally, update. repeat case_decide; reflexivity.
Qed.

(** C4. After one [update] per outcome the three counters add up to the
    number of outcomes; [update] never lowers a counter; an outcome that
    is neither [SUCCESS] nor [ALREADY_CLAIMED] is counted as failed; the
    counters of [run_cli] are the same tally, and a run of its loop that
    completes has counted every code. *)
Theorem statistics_conservation (results : list RedeemResult) :
  total (foldl update RedeemStats_new results) = length results
  ∧ (∀ stats result,
       (successful stats ≤ successful (update stats result))%nat
       ∧ (already_claimed stats ≤ already_claimed (update stats result))%nat
       ∧ (failed stats ≤ failed (update stats result))%nat)
  ∧ (∀ stats result,
       result ≠ SUCCESS → result ≠ ALREADY_CLAIMED →
       update stats result =
         {| successful := successful stats;
            already_claimed := already_claimed stats;
            failed := failed stats + 1 |})
  ∧ foldl tally (0, 0, 0) results
    = (successful (foldl update RedeemStats_new results),
       already_claimed (foldl update RedeemStats_new results),
       failed (foldl update RedeemStats_new results))
  ∧ (∀ (codes : list str) (w : World Env) counts,
       fst (process_codes (length codes) 1 codes (0, 0, 0) w) = Ok counts →
       tally_total counts = length codes).
Proof.
  split; [by rewrite updates_total|].
  split.
  { intros stats result. unfold update. repeat case_decide; cbn; lia. }
  split.
  { intros stats result H1 H2. unfold update.
    rewrite !decide_False by done. reflexivity. }
  split; [exact (tally_update results RedeemStats_new)|].
  intros codes w counts Hrun.
  destruct (process_codes_spec codes (length codes) 1 (0, 0, 0) w)
    as (new & attempted & _ & _ & _ & Hres).
  rewrite Hrun in Hres. by destruct Hres.
Qed.

End Statistics.

(** ** Releasing the browser *)

Section Release.
Context {Env : Type} `{!WebDriver Env} `{!Scraping Env} `{!Clock Env} `{!PyStr}.
Import bot_core bot.

(** What [close] does, case by case. *)
Lemma close_run (w : World Env) :
  close w =
    if driver w then
      match fst (quit (env w)) with
      | Ok _ =>
        (Ok tt,
         {| env := snd (quit (env w)); driver := false;
            trace := trace w ++
              [Log (u "info") close_log;
               Call a_quit (Ok tt);
               Log (u "info")
                 (u "[+]" ++ u " " ++ u "Browser closed successfully")] |})
      | Raise e =>
        if isinstance e Exception then
          (Ok tt,
           {| env := snd (quit (env w)); driver := true;
              trace := trace w ++
                [Log (u "info") close_log;
                 Call a_quit (Raise e);
                 Log (u "debug")
                   (u "[DEBUG]" ++ u " " ++ u "Error closing browser: "
                    ++ message e)] |})
        else
          (Raise e,
           {| env := snd (quit (env w)); driver := true;
              trace := trace w ++
                [Log (u "info") close_log; Call a_quit (Raise e)] |})
      end
    else
      (Ok tt,
       extend w
         [Log (u "info") close_log;
          Log (u "info")
            (u "[+]" ++ u " " ++ u "Browser closed successfully")]).
Proof.
  unfold close. run. destruct (driver w) eqn:Hd; run.
  - destruct (fst (quit (env w))) as [[]|e]; run.
    + rewrite <- !app_assoc. reflexivity.
    + destruct (isinstance e Exception); run;
        rewrite <- !app_assoc; reflexivity.
  - rewrite <- !app_assoc. reflexivity.
Qed.

Lemma close_no_exception : NoException (close (Env:=Env)).
Proof.
  intros w e. rewrite close_run.
  destruct (driver w); [|discriminate].
  destruct (fst (quit (env w))) as [[]|e']; [discriminate|].
  destruct (isinstance e' Exception) eqn:He'; [discriminate|].
  cbn. intros [= <-]. exact He'.
Qed.

Lemma close_counts (w : World Env) :
  closes (trace (snd (close w))) = closes (trace w) + 1
  ∧ quits (trace (snd (close w)))
    = quits (trace w) + (if driver w then 1 else 0).
Proof.
  rewrite close_run. unfold closes, quits.
  destruct (driver w).
  - destruct (fst (quit (env w))) as [[]|e];
      [|destruct (isinstance e Exception)];
      cbn [snd trace]; rewrite !count_app; split; reflexivity.
  - cbn [snd trace extend]. rewrite !count_app; split; reflexivity.
Qed.

Lemma finally_world {A} (m : @M Env A) (fin : @M Env unit) (w : World Env) :
  snd (finally m fin w) = snd (fin (snd (m w))).
Proof.
  unfold finally, bind, try. cbn [fst snd].
  destruct (fin (snd (m w))) as [[[]|e] w']; [|done].
  by destruct (fst (m w)).
Qed.

Lemma keeps_open_process_codes len_codes i codes counts :
  Emits (Env:=Env) keeps_open (process_codes len_codes i codes counts).
Proof.
  intros w.
  destruct (process_codes_spec codes len_codes i counts w)
    as (new & attempted & Ht & Hk & _).
  by exists new.
Qed.

Local Hint Resolve keeps_open_process_codes : emits.

Lemma keeps_open_run_cli_except (r : Res nat) :
  Emits (Env:=Env) keeps_open (run_cli_except r).
Proof. unfold run_cli_except. emits. Qed.

Local Hint Resolve keeps_open_run_cli_except : emits.

Lemma keeps_open_run_cli_session bot_ codes :
  Emits keeps_open (run_cli_session bot_ codes).
Proof. unfold run_cli_session. cbv zeta. emits. Qed.

Local Hint Resolve keeps_open_run_cli_session : emits.

(** The guarded part of [run_cli]: [close] runs once when the bot was
    constructed and not at all otherwise, and [quit] at most once. *)
Lemma run_cli_guarded_counts player_id headless browser_path browser_name
    codes (w : World Env) :
  let run := run_cli_guarded player_id headless browser_path browser_name
               codes w in
  (quits (trace (snd run)) ≤ quits (trace w) + 1)%nat
  ∧ closes (trace (snd run)) =
      closes (trace w)
      + match fst (__init__ player_id headless browser_path browser_name w)
        with
        | Ok _ => 1
        | Raise _ => 0
        end.
Proof.
  cbv zeta.
  assert (Hrun :
    snd (run_cli_guarded player_id headless browser_path browser_name codes w)
    = match fst (__init__ player_id headless browser_path browser_name w) with
      | Ok bot_ =>
        snd (close (snd ((r <- try (run_cli_session bot_ codes) ;;
                          run_cli_except r)
                         (snd (__init__ player_id headless browser_path
                                 browser_name w)))))
      | Raise e =>
        snd (run_cli_except (Raise e)
               (snd (__init__ player_id headless browser_path
                       browser_name w)))
      end).
  { unfold run_cli_guarded. unfold bind at 1, try at 1. cbn [fst snd].
    destruct (fst (__init__ _ _ _ _ w)); [|reflexivity].
    apply finally_world. }
  rewrite Hrun. clear Hrun.
  assert (Hinit : Emits keeps_open
            (__init__ player_id headless browser_path browser_name))
    by emits.
  destruct (Emits_counts _ w Hinit) as [Hc1 Hq1].
  destruct (__init__ player_id headless browser_path browser_name w)
    as [[bot_|e] w1]; cbn [fst snd] in *.
  - match goal with |- context [close (snd (?m w1))] =>
      assert (Hm : Emits keeps_open m) by emits;
      destruct (Emits_counts m w1 Hm) as [Hc2 Hq2];
      destruct (close_counts (snd (m w1))) as [Hc3 Hq3]
    end.
    rewrite Hc3, Hq3, Hc2, Hq2, Hc1, Hq1.
    split; [|done]. destruct (driver _); lia.
  - destruct (Emits_counts _ w1 (keeps_open_run_cli_except (Raise e)))
      as [Hc2 Hq2].
    rewrite Hc2, Hq2, Hc1, Hq1. split; lia.
Qed.

(** C10, as amended. [close] lets no [Exception] escape; a [close] whose
    [quit] succeeds clears the driver reference, and a [close] that finds
    the reference cleared neither quits nor fails; [run_cli] calls [close]
    exactly once on every path that follows the construction of the bot,
    and so quits at most once. *)
Theorem single_release player_id headless browser_path browser_name codes
    (w : World Env) :
  NoException (close (Env:=Env))
  ∧ (∀ w0 : World Env,
       driver w0 = true → fst (quit (env w0)) = Ok tt →
       fst (close w0) = Ok tt ∧ driver (snd (close w0)) = false)
  ∧ (∀ w0 : World Env,
       driver w0 = false →
       fst (close w0) = Ok tt
       ∧ driver (snd (close w0)) = false
       ∧ env (snd (close w0)) = env w0
       ∧ quits (trace (snd (close w0))) = quits (trace w0))
  ∧ (let run := run_cli_guarded player_id headless browser_path browser_name
                  codes w in
     (quits (trace (snd run)) ≤ quits (trace w) + 1)%nat
     ∧ closes (trace (snd run)) =
         closes (trace w)
         + match fst (__init__ player_id headless browser_path browser_name w)
           with
           | Ok _ => 1
           | Raise _ => 0
           end).
Proof.
  split; [exact close_no_exception|].
  split.
  { intros w0 Hd Hq. rewrite close_run, Hd, Hq. by split. }
  split.
  { intros w0 Hd. pose proof (close_counts w0) as [_ Hq].
    rewrite Hd in Hq. rewrite Hq.
    rewrite close_run, Hd. cbn. repeat split; try done; lia. }
  apply run_cli_guarded_counts.
Qed.

End Release.

(** ** Modal dismissal *)

Section Modal.
Context {Env : Type} `{!WebDriver Env} `{!Clock Env} `{!PyStr}.
Import bot_core.

Lemma dismiss_modal_no_exception : NoException dismiss_modal.
Proof.
  intros w e. unfold dismiss_modal. run.
  destruct (fst (dismiss_modal_body w)) as [b|e']; [discriminate|].
  destruct (isinstance e' Exception) eqn:He'; [discriminate|].
  cbn. intros [= <-]. exact He'.
Qed.

(** Method 1 finds nothing to click when no selector matches. *)
Lemma dismiss_modal_selectors_none (selectors : list str) (w : World Env) :
  driver w = true →
  (∀ selector, selector ∈ selectors →
     find_elements CSS_SELECTOR selector (env w) = Ok []) →
  dismiss_modal_selectors selectors w = (Ok false, w).
Proof.
  intros Hd. induction selectors as [|selector rest IH]; intros Hnone.
  - reflexivity.
  - cbn [dismiss_modal_selectors]. unfold _find_elements_safe. run.
    rewrite Hd, (Hnone selector) by apply list_elem_of_here.
    cbn [dismiss_modal_buttons]. run.
    apply IH. intros s Hs. apply Hnone. by apply list_elem_of_further.
Qed.

(** C2, what the code does. On a page without close button, mask, modal or
    dialog, where the clean-up script runs without error,
    [dismiss_modal] reports [True]: it logs that the modal was force-closed
    and never reaches the branch that logs [No active modal found] and
    returns [False]. *)
Theorem dismiss_modal_clean_page (w : World Env) :
  driver w = true →
  (∀ selector, selector ∈ config.close_buttons config.SELECTORS →
     find_elements CSS_SELECTOR selector
       (elapse (config.modal_check config.TIMEOUTS) (env w)) = Ok []) →
  (∃ e, find_element CSS_SELECTOR (config.mask config.SELECTORS)
          (elapse (config.modal_check config.TIMEOUTS) (env w)) = Raise e
        ∧ isinstance e NoSuchElementException = true) →
  fst (execute_script js_force_close_modals []
         (elapse (config.modal_check config.TIMEOUTS) (env w))) = Ok tt →
  fst (dismiss_modal w) = Ok true
  ∧ trace (snd (dismiss_modal w)) =
      trace w ++
      [Log (u "info") (u "[*]" ++ u " " ++ u "Checking for active modal...");
       Sleep (config.modal_check config.TIMEOUTS);
       Call (a_execute_script js_force_close_modals []) (Ok tt);
       Log (u "info")
         (u "[+]" ++ u " " ++ u "Modal force-closed with JavaScript");
       Sleep (config.modal_check config.TIMEOUTS)].
Proof.
  intros Hd Hnone (e & Hmask & He) Hscript.
  unfold dismiss_modal, dismiss_modal_body. run.
  match goal with |- context [dismiss_modal_selectors _ ?w1] =>
    rewrite (dismiss_modal_selectors_none _ w1 Hd Hnone)
  end.
  cbn [fst snd]. unfold dismiss_modal_mask, _find_element_safe. run.
  rewrite Hd. cbn [fst snd]. rewrite Hmask, He. cbn [orb fst snd].
  unfold dismiss_modal_force. run.
  rewrite Hscript. cbn [fst snd outcome trace].
  split; [done|]. rewrite <- !app_assoc. reflexivity.
Qed.

End Modal.

(** ** The input locator *)

Section Locator.
Context {Env : Type} `{!WebDriver Env} `{!Clock Env} `{!PyStr}.
Import bot_core.

Local Abbreviation M := (@M Env).

Lemma Pure_ret {A} (a : A) : Pure (ret a : M A).
Proof. by intros w. Qed.

Lemma Pure_raise {A} (e : exn) : Pure (raise e : M A).
Proof. by intros w. Qed.

Lemma Pure_bind {A B} (m : M A) (k : A → M B) :
  Pure m → (∀ a, Pure (k a)) → Pure (bind m k).
Proof.
  intros Hm Hk w. unfold bind. specialize (Hm w).
  destruct (m w) as [[a|e] w1]; cbn [snd] in Hm; subst w1; [apply Hk|done].
Qed.

Lemma Pure_try {A} (m : M A) : Pure m → Pure (try m).
Proof. intros Hm w. apply Hm. Qed.

Lemma Pure_observe {A} (f : Env → Res A) : Pure (observe f).
Proof. by intros w. Qed.

Lemma Pure_via_driver {A} (m : M A) : Pure m → Pure (via_driver m).
Proof. intros Hm w. unfold via_driver. destruct (driver w); [apply Hm|done]. Qed.

Ltac pure_step :=
  match goal with
  | |- Pure (ret _) => apply Pure_ret
  | |- Pure (raise _) => apply Pure_raise
  | |- Pure (bind _ _) => apply Pure_bind; [|intros ?]
  | |- Pure (try _) => apply Pure_try
  | |- Pure (via_driver _) => apply Pure_via_driver
  | |- Pure (observe _) => apply Pure_observe
  | |- Pure (match ?x with _ => _ end) => destruct x
  | IH : Pure _ |- Pure _ => exact IH
  | |- Pure _ => solve [eauto]
  end.

Lemma Pure_find_elements_safe by_ value : Pure (_find_elements_safe by_ value).
Proof. unfold _find_elements_safe. repeat pure_step. Qed.











End Locator.

(** ** The code fetcher *)

Section Unique.

Lemma unique_loop_spec (matches : list str) (seen : gset str)
    (unique_codes : list str) :
  utils.unique_loop matches seen unique_codes
  = unique_codes ++ first_occurrences seen matches.
Proof.
  revert seen unique_codes.
  induction matches as [|code rest IH]; intros seen unique_codes.
  - cbn. by rewrite app_nil_r.
  - cbn [utils.unique_loop first_occurrences].
    destruct (bool_decide (code ∉ seen)); [|apply IH].
    rewrite IH, <- app_assoc. reflexivity.
Qed.

Lemma first_occurrences_elem (x : str) (seen : gset str) (l : list str) :
  x ∈ first_occurrences seen l ↔ x ∈ l ∧ x ∉ seen.
Proof.
  revert seen. induction l as [|y l IH]; intros seen.
  - cbn. rewrite elem_of_nil. tauto.
  - cbn [first_occurrences]. case_bool_decide as Hy.
    + rewrite !elem_of_cons, IH, elem_of_union, elem_of_singleton.
      destruct (decide (x = y)) as [->|Hne]; tauto.
    + rewrite IH, elem_of_cons.
      destruct (decide (x = y)) as [->|Hne]; tauto.
Qed.

Lemma first_occurrences_NoDup (seen : gset str) (l : list str) :
  NoDup (first_occurrences seen l).
Proof.
  revert seen. induction l as [|y l IH]; intros seen.
  - constructor.
  - cbn [first_occurrences]. case_bool_decide as Hy; [|apply IH].
    constructor; [|apply IH].
    rewrite first_occurrences_elem, elem_of_union, elem_of_singleton. tauto.
Qed.

Lemma index_of_cons_ne (x y : str) (l : list str) :
  x ≠ y → index_of x (y :: l) = S <$> index_of x l.
Proof. intros Hne. cbn. by rewrite bool_decide_eq_false_2. Qed.

Lemma index_of_elem (x : str) (l : list str) :
  x ∈ l → ∃ i, index_of x l = Some i.
Proof.
  induction l as [|y l IH]; [by intros ?%elem_of_nil|].
  intros Hin. cbn. case_bool_decide as Hxy; [eauto|].
  apply elem_of_cons in Hin as [?|Hin]; [done|].
  destruct (IH Hin) as [i ->]. cbn. eauto.
Qed.

Lemma first_occurrences_order (seen : gset str) (l : list str) :
  first_occurrence_order (first_occurrences seen l) l.
Proof.
  revert seen. induction l as [|y l IH]; intros seen i j a b Ha Hb Hij.
  - destruct i; discriminate.
  - cbn [first_occurrences] in Ha, Hb. case_bool_decide as Hy.
    + destruct j as [|j]; [lia|]. cbn in Hb.
      assert (Hby : b ≠ y).
      { apply list_elem_of_lookup_2, first_occurrences_elem in Hb.
        rewrite elem_of_union, elem_of_singleton in Hb. tauto. }
      destruct i as [|i].
      * assert (a = y) as -> by (cbn in Ha; congruence).
        apply list_elem_of_lookup_2, first_occurrences_elem in Hb as Hb'.
        destruct (index_of_elem b l) as [ib Hib]; [apply Hb'|].
        exists 0, (S ib). rewrite (index_of_cons_ne b y l Hby), Hib.
        cbn. rewrite bool_decide_eq_true_2 by done. repeat split. lia.
      * cbn in Ha.
        assert (Hay : a ≠ y).
        { apply list_elem_of_lookup_2, first_occurrences_elem in Ha.
          rewrite elem_of_union, elem_of_singleton in Ha. tauto. }
        destruct (IH _ i j a b Ha Hb) as (ia & ib & Hia & Hib & Hlt); [lia|].
        exists (S ia), (S ib).
        rewrite (index_of_cons_ne a y l Hay), (index_of_cons_ne b y l Hby).
        rewrite Hia, Hib. repeat split. lia.
    + assert (Hay : a ≠ y).
      { apply list_elem_of_lookup_2, first_occurrences_elem in Ha.
        intros ->. destruct Ha as [_ Ha]. by apply Ha. }
      assert (Hby : b ≠ y).
      { apply list_elem_of_lookup_2, first_occurrences_elem in Hb.
        intros ->. destruct Hb as [_ Hb]. by apply Hb. }
      destruct (IH _ i j a b Ha Hb Hij) as (ia & ib & Hia & Hib & Hlt).
      exists (S ia), (S ib).
      rewrite (index_of_cons_ne a y l Hay), (index_of_cons_ne b y l Hby).
      rewrite Hia, Hib. repeat split. lia.
Qed.

(** The list [fetch] returns for the matches [matches]: no duplicates, in
    the order of first occurrence. *)
Lemma active_codes_spec (matches : list str) :
  let active_codes :=
    take config.MAX_CODES_TO_FETCH (utils.unique_loop matches ∅ []) in
  NoDup active_codes
  ∧ first_occurrence_order active_codes matches
  ∧ (∀ code, code ∈ active_codes → code ∈ matches).
Proof.
  cbv zeta. rewrite unique_loop_spec. cbn [app].
  split; [|split].
  - eapply sublist_NoDup;
      first [apply sublist_take | apply first_occurrences_NoDup].
  - intros i j a b Ha Hb Hij.
    apply lookup_take_Some in Ha as [Ha _].
    apply lookup_take_Some in Hb as [Hb _].
    by apply (first_occurrences_order ∅ matches i j).
  - intros code Hin. apply elem_of_take in Hin as (i & Hi & _).
    apply list_elem_of_lookup_2 in Hi.
    by apply first_occurrences_elem in Hi as [? _].
Qed.

(** No match is left out unless the list is full, and then the codes
    kept are those that occur first. *)
Lemma active_codes_complete (matches : list str) (code : str) :
  let active_codes :=
    take config.MAX_CODES_TO_FETCH (utils.unique_loop matches ∅ []) in
  code ∈ matches →
  code ∈ active_codes
  ∨ (length active_codes = config.MAX_CODES_TO_FETCH
     ∧ ∀ c, c ∈ active_codes → occurs_before c code matches).
Proof.
  cbv zeta. rewrite unique_loop_spec. cbn [app]. intros Hin.
  assert (Hfo : code ∈ first_occurrences ∅ matches)
    by (apply first_occurrences_elem; split; [done | set_solver]).
  apply list_elem_of_lookup_1 in Hfo as [p Hp].
  destruct (decide (p < config.MAX_CODES_TO_FETCH)%nat) as [Hlt|Hge].
  - left. apply list_elem_of_lookup_2 with p.
    apply lookup_take_Some. by split.
  - right. apply lookup_lt_Some in Hp as Hlen. split.
    + rewrite length_take. lia.
    + intros c Hc. apply list_elem_of_lookup_1 in Hc as [i Hi].
      apply lookup_take_Some in Hi as [Hi Hi20].
      apply (first_occurrences_order ∅ matches i p c code Hi Hp). lia.
Qed.

End Unique.

(** [findall] on pages where the group has to give characters back, is
    too short or too long, or swallows the next marker. *)
Example findall_check :
  utils.findall
    (u "ActiveKINGSHOT2025CopyExpires soon ActiveABCDECopyActiveVIP777Expires")
  = map u ["KINGSHOT2025Copy"; "ABCDE"; "VIP777"]
  ∧ utils.findall (u "ActiveABCDCopy") = []
  ∧ utils.findall (u "ActiveAAAAABBBBBCCCCCDDDDDCopy")
    = [u "AAAAABBBBBCCCCCDDDDD"]
  ∧ utils.findall (u "ActiveAAAAABBBBBCCCCCDDDDDECopy") = []
  ∧ utils.findall (u "ActiveCopyCopyCopy") = [u "CopyCopy"]
  ∧ utils.findall (u "ActiveActiveHELLO1Expires") = [u "ActiveHELLO1"]
  ∧ utils.findall (u "ActiveExpiresExpires") = [u "Expires"]
  ∧ utils.findall (u "xActiveabcde-Copy ActiveZZ99ZCopyright") = [u "ZZ99Z"]
  ∧ utils.findall (u "ActiveCODE1ActiveCODE2Copy") = [u "CODE1ActiveCODE2"]
  ∧ utils.findall
      (u "ActiveAB_CDECopy ActiveQWERT Expires ActiveQWERTExpire ActiveQWERTYExpires")
    = [u "QWERTY"].
Proof. vm_compute. repeat split; reflexivity. Qed.

Section Fetch.
Context {Env : Type} `{!Scraping Env} `{!Clock Env}.
Import utils.

Lemma fetch_retry_no_exception (attempts : list nat)
    (last_error : option str) :
  NoException (_fetch_with_retry_loop CODES_SOURCE_URL attempts last_error).
Proof.
  revert last_error.
  induction attempts as [|attempt rest IH]; intros last_error w e.
  - cbn [_fetch_with_retry_loop]. run. discriminate.
  - cbn [_fetch_with_retry_loop]. cbv zeta. unfold bind at 1, try at 1.
    cbn [fst snd].
    match goal with |- context [fst (?m w)] =>
      destruct (fst (m w)) as [text_|e']; [discriminate|];
      generalize (snd (m w)); intros w1
    end.
    destruct (isinstance e' requests_Timeout);
      [unfold bind at 1, print, emit; apply IH|].
    destruct (isinstance e' requests_ConnectionError);
      [unfold bind at 1, print, emit; apply IH|].
    destruct (isinstance e' requests_HTTPError);
      [unfold bind at 1, print, emit; apply IH|].
    destruct (isinstance e' Exception) eqn:He';
      [unfold bind at 1, print, emit; apply IH|].
    cbn. intros [= <-]. exact He'.
Qed.

(** One failed attempt: a single request, then the next attempt. *)
Lemma fetch_retry_step (down : Env → Prop) (attempt : nat)
    (rest : list nat) (last_error : option str) (w : World Env) :
  source_down down → down (env w) →
  ∃ last_error' w1 new,
    _fetch_with_retry_loop CODES_SOURCE_URL (attempt :: rest) last_error w
    = _fetch_with_retry_loop CODES_SOURCE_URL rest (Some last_error') w1
    ∧ trace w1 = trace w ++ new
    ∧ count is_request_call new = 1
    ∧ down (env w1).
Proof.
  intros Hdown Hw. cbn [_fetch_with_retry_loop]. cbv zeta. run.
  destruct (0 <? attempt)%nat; cbn [fst snd env driver trace];
    match goal with |- context [requests_get ?url_ ?t ?env0] =>
      assert (Hf : request_fails env0
                   ∧ down (snd (requests_get url_ t env0)))
        by (split; apply Hdown; try apply Hdown; exact Hw);
      destruct Hf as [Hf Hnext]; unfold request_fails in Hf;
      destruct (fst (requests_get url_ t env0)) as [response|e]
    end.
  all: cbn [fst snd outcome].
  all: try (unfold raise_for_status;
            match type of Hf with _ ∧ _ => destruct Hf as [Hlo Hhi] end;
            apply Nat.leb_le in Hlo; apply Nat.ltb_lt in Hhi;
            rewrite Hlo, Hhi; cbn [andb fst snd];
            change (isinstance _ requests_Timeout) with false;
            change (isinstance _ requests_ConnectionError) with false;
            change (isinstance _ requests_HTTPError) with true;
            cbv iota).
  all: try (destruct (isinstance e requests_Timeout);
            [|destruct (isinstance e requests_ConnectionError);
              [|destruct (isinstance e requests_HTTPError);
                [|rewrite Hf]]]).
  all: cbv beta iota; cbn [fst snd env driver trace];
    eexists _, _, _; (split; [reflexivity|]); cbn [trace env];
    (split; [rewrite <- !app_assoc; reflexivity|]);
    (split; [reflexivity | exact Hnext]).
Qed.

(** When every request fails, every attempt is used and the result is
    [None]. *)
Lemma fetch_retry_exhausted (down : Env → Prop) (attempts : list nat)
    (last_error : option str) (w : World Env) :
  source_down down → down (env w) →
  ∃ new,
    fst (_fetch_with_retry_loop CODES_SOURCE_URL attempts last_error w)
    = Ok None
    ∧ trace (snd (_fetch_with_retry_loop CODES_SOURCE_URL attempts
                    last_error w)) = trace w ++ new
    ∧ count is_request_call new = length attempts.
Proof.
  intros Hdown. revert last_error w.
  induction attempts as [|attempt rest IH]; intros last_error w Hw.
  - cbn [_fetch_with_retry_loop]. run. eexists. repeat split.
  - destruct (fetch_retry_step down attempt rest last_error w Hdown Hw)
      as (last_error' & w1 & new1 & -> & Ht1 & Hc1 & Hw1).
    destruct (IH (Some last_error') w1 Hw1) as (new2 & Hr & Ht2 & Hc2).
    exists (new1 ++ new2). rewrite Hr, Ht2, Ht1, count_app, Hc1, Hc2.
    rewrite <- app_assoc. by repeat split.
Qed.

Lemma print_codes_ok (active_codes : list str) (w : World Env) :
  fst (print_codes active_codes w) = Ok tt
  ∧ env (snd (print_codes active_codes w)) = env w.
Proof.
  revert w. induction active_codes as [|code rest IH]; intros w; [done|].
  cbn [print_codes]. run.
  match goal with |- context [print_codes rest ?w1] =>
    destruct (IH w1) as [Hr He]
  end.
  by rewrite Hr, He.
Qed.

(** What the parsing step of [fetch] returns. *)
Lemma fetch_body_result (html_content : str) (w : World Env) :
  fst (fetch_body html_content w) =
    match get_text html_content (env w) with
    | Ok all_text =>
      Ok (take config.MAX_CODES_TO_FETCH
            (unique_loop (findall all_text) ∅ []))
    | Raise e => Raise e
    end.
Proof.
  unfold fetch_body. run. destruct (get_text html_content (env w)); [|done].
  cbv zeta.
  destruct (take config.MAX_CODES_TO_FETCH _) as [|code rest] eqn:Hcodes;
    [reflexivity|].
  run.
  match goal with |- context [print_codes ?l ?w1] =>
    destruct (print_codes_ok l w1) as [Hp _];
    destruct (print_codes l w1) as [r w2]; cbn [fst] in Hp; subst r
  end.
  reflexivity.
Qed.

(** The page [_fetch_with_retry] returns is the text of a response of the
    code source that passed [raise_for_status]. *)
Lemma fetch_retry_text (attempts : list nat) (last_error : option str)
    (w : World Env) (text_ : str) :
  fst (_fetch_with_retry_loop CODES_SOURCE_URL attempts last_error w)
    = Ok (Some text_) →
  ∃ env0 response,
    fst (requests_get CODES_SOURCE_URL (config.http_request config.TIMEOUTS)
           env0) = Ok response
    ∧ raise_for_status CODES_SOURCE_URL response = Ok tt
    ∧ resp_text response = text_.
Proof.
  revert last_error w.
  induction attempts as [|attempt rest IH]; intros last_error w.
  - cbn [_fetch_with_retry_loop]. run. discriminate.
  - cbn [_fetch_with_retry_loop]. cbv zeta. unfold bind at 1, try at 1.
    cbn [fst snd].
    match goal with |- context [fst (?m w)] =>
      assert (Hm : ∀ t, fst (m w) = Ok t →
                ∃ env0 response,
                  fst (requests_get CODES_SOURCE_URL
                         (config.http_request config.TIMEOUTS) env0)
                  = Ok response
                  ∧ raise_for_status CODES_SOURCE_URL response = Ok tt
                  ∧ resp_text response = t);
      [|destruct (fst (m w)) as [t|e'];
        [|generalize (snd (m w)); intros w1]]
    end.
    { intros t. run.
      destruct (0 <? attempt)%nat; cbn [fst snd env driver trace];
        match goal with |- context [requests_get ?url_ ?tm ?env0] =>
          destruct (fst (requests_get url_ tm env0)) as [response|e] eqn:Hreq
        end; cbn [fst snd]; try discriminate.
      all: destruct (raise_for_status CODES_SOURCE_URL response) as [[]|e]
             eqn:Hstatus; cbn [fst snd]; try discriminate.
      all: intros [= <-]; eauto. }
    + cbn [fst ret]. intros [= <-]. by apply Hm.
    + destruct (isinstance e' requests_Timeout);
        [unfold bind at 1, print, emit; apply IH|].
      destruct (isinstance e' requests_ConnectionError);
        [unfold bind at 1, print, emit; apply IH|].
      destruct (isinstance e' requests_HTTPError);
        [unfold bind at 1, print, emit; apply IH|].
      destruct (isinstance e' Exception) eqn:He';
        [unfold bind at 1, print, emit; apply IH|].
      discriminate.
Qed.
(** C8. The list [fetch] returns has no duplicates and lists matches of
    the scraping pattern in the page text by first occurrence; [fetch]
    lets no [Exception] escape; when the code source is down it gives up
    after [max_attempts] requests and returns the empty list; when the
    parser raises it returns the empty list; and when a page was fetched
    and parsed, the list is made of the distinct matches of the pattern
    in its text, none left out unless [MAX_CODES_TO_FETCH] matches that
    occur before it were kept; the page is the text of a response of
    the code source that passed [raise_for_status]. *)
Theorem code_fetcher_contract (HAS_SCRAPING : bool) (w : World Env) :
  match fst (fetch HAS_SCRAPING w) with
  | Ok codes =>
    NoDup codes
    ∧ (length codes ≤ config.MAX_CODES_TO_FETCH)%nat
    ∧ (codes = [] ∨
       ∃ html_content all_text,
         fst (_fetch_with_retry HAS_SCRAPING CODES_SOURCE_URL
                (snd (print (u "[*] Fetching active codes from "
                             ++ CODES_SOURCE_URL ++ u "...") w)))
         = Ok (Some html_content)
         ∧ get_text html_content
             (env (snd (_fetch_with_retry HAS_SCRAPING CODES_SOURCE_URL
                          (snd (print (u "[*] Fetching active codes from "
                                       ++ CODES_SOURCE_URL ++ u "...") w)))))
           = Ok all_text
         ∧ first_occurrence_order codes (findall all_text)
         ∧ ∀ code, code ∈ codes → code ∈ findall all_text)
  | Raise e => isinstance e Exception = false
  end
  ∧ (∀ down, source_down down → down (env w) →
     fst (fetch true w) = Ok []
     ∧ ∃ new, trace (snd (fetch true w)) = trace w ++ new
              ∧ count is_request_call new
                = config.max_attempts config.RETRY_CONFIG)
  ∧ (∀ html_content e,
       fst (_fetch_with_retry HAS_SCRAPING CODES_SOURCE_URL
              (snd (print (u "[*] Fetching active codes from "
                           ++ CODES_SOURCE_URL ++ u "...") w)))
       = Ok (Some html_content) →
       get_text html_content
         (env (snd (_fetch_with_retry HAS_SCRAPING CODES_SOURCE_URL
                      (snd (print (u "[*] Fetching active codes from "
                                   ++ CODES_SOURCE_URL ++ u "...") w)))))
       = Raise e →
       isinstance e Exception = true →
       fst (fetch HAS_SCRAPING w) = Ok [])
  ∧ (∀ html_content all_text,
       fst (_fetch_with_retry HAS_SCRAPING CODES_SOURCE_URL
              (snd (print (u "[*] Fetching active codes from "
                           ++ CODES_SOURCE_URL ++ u "...") w)))
       = Ok (Some html_content) →
       html_content ≠ [] →
       get_text html_content
         (env (snd (_fetch_with_retry HAS_SCRAPING CODES_SOURCE_URL
                      (snd (print (u "[*] Fetching active codes from "
                                   ++ CODES_SOURCE_URL ++ u "...") w)))))
       = Ok all_text →
       ∃ codes,
         fst (fetch HAS_SCRAPING w) = Ok codes
         ∧ NoDup codes
         ∧ first_occurrence_order codes (findall all_text)
         ∧ (∀ code, code ∈ codes → code ∈ findall all_text)
         ∧ (∀ code, code ∈ findall all_text →
              code ∈ codes
              ∨ (length codes = config.MAX_CODES_TO_FETCH
                 ∧ ∀ c, c ∈ codes →
                     occurs_before c code (findall all_text))))
  ∧ (∀ html_content,
       fst (_fetch_with_retry HAS_SCRAPING CODES_SOURCE_URL
              (snd (print (u "[*] Fetching active codes from "
                           ++ CODES_SOURCE_URL ++ u "...") w)))
       = Ok (Some html_content) →
       ∃ env0 response,
         fst (requests_get CODES_SOURCE_URL
                (config.http_request config.TIMEOUTS) env0) = Ok response
         ∧ raise_for_status CODES_SOURCE_URL response = Ok tt
         ∧ resp_text response = html_content).
Proof.
  split; [|split; [|split; [|split]]].
  - assert (Hempty : NoDup (@nil str)
                       ∧ (length (@nil str) ≤ config.MAX_CODES_TO_FETCH)%nat).
    { split; [constructor | cbn; lia]. }
    unfold fetch. cbv zeta. unfold bind, print, emit.
    cbv beta. cbn [fst snd].
    match goal with |- context [_fetch_with_retry ?h ?url_ ?w1] =>
      assert (Hne : ∀ e, fst (_fetch_with_retry h url_ w1) = Raise e →
                         isinstance e Exception = false);
      [|destruct (_fetch_with_retry h url_ w1) as [[html|e] w2];
        cbn [fst snd] in *]
    end.
    { intros e. unfold _fetch_with_retry. destruct HAS_SCRAPING; cbn [negb].
      - apply fetch_retry_no_exception.
      - run. discriminate. }
    2: { by apply Hne. }
    destruct html as [[|c html]|]; cbn [fst ret];
      [destruct Hempty; repeat split; [done..|by left] |
      |destruct Hempty; repeat split; [done..|by left]].
    unfold try. cbn [fst snd].
    rewrite fetch_body_result.
    destruct (get_text (c :: html) (env w2)) as [all_text|e] eqn:Hparse.
    + cbn [fst ret].
      destruct (active_codes_spec (findall all_text)) as (Hnd & Hord & Hin).
      split; [exact Hnd|]. split; [rewrite length_take; lia|]. right.
      by exists (c :: html), all_text.
    + destruct (isinstance e Exception) eqn:He.
      * cbn [fst]. destruct Hempty. repeat split; [done..|by left].
      * cbn. exact He.
  - intros down Hdown Hw. unfold fetch, _fetch_with_retry. cbv zeta.
    cbn [negb]. unfold bind, print, emit.
    match goal with |- context [_fetch_with_retry_loop ?url_ ?a ?l ?w1] =>
      destruct (fetch_retry_exhausted down a l w1 Hdown Hw)
        as (new & Hr & Ht & Hc);
      destruct (_fetch_with_retry_loop url_ a l w1) as [r w2];
      cbn [fst snd] in Hr, Ht; subst r
    end.
    cbn [fst snd ret]. split; [done|].
    eexists. rewrite Ht. cbn [extend trace]. rewrite <- app_assoc.
    split; [reflexivity|]. rewrite count_app, Hc. reflexivity.
  - intros html_content e Hfetch Hparse He.
    unfold fetch. cbv zeta. unfold bind, print, emit in *.
    destruct (_fetch_with_retry HAS_SCRAPING CODES_SOURCE_URL _)
      as [r w2]; cbn [fst snd] in *. subst r.
    destruct html_content as [|c html]; [done|].
    unfold try. cbn [fst snd].
    rewrite fetch_body_result, Hparse, He. reflexivity.
  - intros html_content all_text Hfetch Hne Hparse.
    exists (take config.MAX_CODES_TO_FETCH
              (unique_loop (findall all_text) ∅ [])).
    destruct (active_codes_spec (findall all_text)) as (Hnd & Hord & Hin).
    split; [|split; [exact Hnd|split; [exact Hord|split; [exact Hin|]]]].
    + unfold fetch. cbv zeta. unfold bind, print, emit in *.
      destruct (_fetch_with_retry HAS_SCRAPING CODES_SOURCE_URL _)
        as [r w2]; cbn [fst snd] in *. subst r.
      destruct html_content as [|c html]; [done|].
      unfold try. cbn [fst snd].
      rewrite fetch_body_result, Hparse. reflexivity.
    + intros code. apply active_codes_complete.
  - intros html_content. unfold _fetch_with_retry.
    destruct HAS_SCRAPING; cbn [negb]; [apply fetch_retry_text|].
    run. discriminate.
Qed.

End Fetch.

(** * Concrete runs

    The theorems above, applied on the scripted sites of [sim]. *)

Section Runs.
Import bot_core.

(** Witness of C1: a page that says both that the code was already claimed
    and that the reward is in the mail; a page that reports a success and
    mentions an error; and a page that reports an invalid code. *)
Lemma classifier_priority_witness :
  let both := u "<p>Already claimed. Check your mail.</p>" in
  let mixed := u "<p>Success! No error.</p>" in
  let wrong := u "<p>Invalid gift code.</p>" in
  (fst (_analyze_result (u "ABC123") (sim.started (sim.showing both)))
   = Ok ALREADY_CLAIMED
   ∧ fst (_analyze_result (u "ABC123") (sim.started (sim.showing both)))
     ≠ Ok SUCCESS)
  ∧ fst (_analyze_result (u "ABC123") (sim.started (sim.showing mixed)))
    = Ok SUCCESS
  ∧ fst (_analyze_result (u "ABC123") (sim.started (sim.showing wrong)))
    = Ok FAILED.
Proof.
  cbv zeta. split; [|split].
  - destruct (classifier_priority (u "ABC123")
                (u "<p>Already claimed. Check your mail.</p>")
                (sim.started
                   (sim.showing (u "<p>Already claimed. Check your mail.</p>"))))
      as (Hboth & _); [reflexivity | reflexivity |].
    apply Hboth; apply any_in_spec; vm_compute; reflexivity.
  - destruct (classifier_priority (u "ABC123") (u "<p>Success! No error.</p>")
                (sim.started (sim.showing (u "<p>Success! No error.</p>"))))
      as (_ & _ & Hsuccess & _); [reflexivity | reflexivity |].
    apply Hsuccess.
    + intros Hk. apply any_in_spec in Hk. vm_compute in Hk. discriminate.
    + apply any_in_spec. vm_compute. reflexivity.
  - destruct (classifier_priority (u "ABC123") (u "<p>Invalid gift code.</p>")
                (sim.started (sim.showing (u "<p>Invalid gift code.</p>"))))
      as (_ & _ & _ & Herror & _); [reflexivity | reflexivity |].
    apply Herror.
    + intros Hk. apply any_in_spec in Hk. vm_compute in Hk. discriminate.
    + intros Hk. apply any_in_spec in Hk. vm_compute in Hk. discriminate.
    + apply any_in_spec. vm_compute. reflexivity.
Defined.

(** Witness of C7: an empty page. *)
Lemma classifier_completeness_witness :
  let w := sim.started (sim.showing (u "<html><body></body></html>")) in
  fst (_analyze_result (u "ABC123") w) = Ok FAILED
  ∧ trace (snd (_analyze_result (u "ABC123") w)) =
      trace w ++
      [preview (u "<html><body></body></html>");
       Log (u "warning")
         (u "[!] Could not determine result for code " ++ u "ABC123"
          ++ u " - marking as failed")].
Proof.
  cbv zeta.
  destruct (classifier_completeness (u "ABC123")
              (u "<html><body></body></html>")
              (sim.started (sim.showing (u "<html><body></body></html>"))))
    as (Hr & Ht & _).
  - reflexivity.
  - reflexivity.
  - intros Hk. apply any_in_spec in Hk. vm_compute in Hk. discriminate.
  - intros Hk. apply any_in_spec in Hk. vm_compute in Hk. discriminate.
  - intros Hk. apply any_in_spec in Hk. vm_compute in Hk. discriminate.
  - split; [exact Hr | exact Ht].
Defined.

(** Witness of C6: a click on a page that was re-rendered. *)
Lemma stale_short_circuit_witness :
  let w := sim.started sim.rerendered in
  let stale := sim.exc StaleElementReferenceException
                 "Message: stale element reference" in
  fst (_click_element_safe 3 w) = Ok false
  ∧ deeds (trace (snd (_click_element_safe 3 w))) =
      deeds (trace w) ++ [Call (a_click 3) (Raise stale)].
Proof.
  apply (stale_short_circuit 3 (sim.started sim.rerendered)).
  - reflexivity.
  - reflexivity.
Defined.

(** Witness of C5: a button under an overlay, clicked by script in the
    end. *)
Lemma click_retry_bound_witness :
  let w := sim.started (sim.overlaid true) in
  (∀ n, (n < 3)%nat → intercepted 3 (Nat.iter n (retried 3) (env w)))
  ∧ fst (_click_element_safe 3 w) = Ok true
  ∧ count (is_click_on 3) (trace (snd (_click_element_safe 3 w))) = 3.
Proof.
  cbv zeta.
  assert (Hperm : ∀ n, (n < 3)%nat →
            intercepted 3
              (Nat.iter n (retried 3) (env (sim.started (sim.overlaid true))))).
  { intros n Hn.
    exists (sim.exc ElementClickInterceptedException
              "Message: element click intercepted").
    destruct n as [|[|[|n]]]; [split; reflexivity ..|lia]. }
  split; [exact Hperm|].
  destruct (click_retry_bound 3 (sim.started (sim.overlaid true)) Hperm)
    as (e1 & e2 & e3 & _ & Hr & _).
  split; [rewrite Hr; reflexivity|]. vm_compute. reflexivity.
Defined.

(** The same button when the script-level click fails too: three clicks,
    one script, and [False]. *)
Lemma click_retry_bound_failure :
  let w := sim.started (sim.overlaid false) in
  fst (_click_element_safe 3 w) = Ok false
  ∧ count (is_click_on 3) (trace (snd (_click_element_safe 3 w))) = 3.
Proof. vm_compute. split; reflexivity. Qed.

(** Witness of C2: a page with nothing on it. *)
Lemma dismiss_modal_clean_page_witness :
  let w := sim.started sim.blank in
  fst (dismiss_modal w) = Ok true
  ∧ trace (snd (dismiss_modal w)) =
      trace w ++
      [Log (u "info") (u "[*]" ++ u " " ++ u "Checking for active modal...");
       Sleep (config.modal_check config.TIMEOUTS);
       Call (a_execute_script js_force_close_modals []) (Ok tt);
       Log (u "info")
         (u "[+]" ++ u " " ++ u "Modal force-closed with JavaScript");
       Sleep (config.modal_check config.TIMEOUTS)].
Proof.
  apply (dismiss_modal_clean_page (sim.started sim.blank)).
  - reflexivity.
  - intros selector _. reflexivity.
  - exists (sim.exc NoSuchElementException "no such element").
    split; reflexivity.
  - reflexivity.
Defined.



(** It fails as well when an input cannot be read. Inputs 1 and 2 are
    displayed and the [maxlength] attribute of 2 is [20], but the handle
    of 1 is stale by the time its attribute is read: [get_attribute] is
    called outside any [try], and the locator raises instead of
    returning input 2. *)
Lemma input_locator_replaced_field :
  let w := sim.started sim.replaced_field in
  fst (gather_visible_inputs w) = Ok [1; 2]
  ∧ get_attribute 2 (u "maxlength") (env w) = Ok (Some (u "20"))
  ∧ fst (_find_input_field (u "code") (Some (u "20")) w)
    = Raise (sim.exc StaleElementReferenceException
               "Message: stale element reference").
Proof. vm_compute. repeat split; reflexivity. Qed.

(** The guard [if maxlength:] skips the first tier for the empty string
    too. Input 2 of the form is the first visible input whose [maxlength]
    attribute equals the empty argument, and the placeholder tier returns
    input 1. *)
Lemma input_locator_empty_maxlength :
  let w := sim.started sim.form in
  fst (gather_visible_inputs w) = Ok [1; 2; 3]
  ∧ List.find (maxlength_is (env w) []) [1; 2; 3] = Some 2
  ∧ fst (_find_input_field (u "code") (Some []) w) = Ok (Some 1).
Proof. vm_compute. repeat split; reflexivity. Qed.

(** C10 as stated fails when [quit] raises. [close] catches the error, but
    the driver reference is not cleared, and the next [close] calls [quit]
    again. *)
Lemma close_keeps_failed_driver :
  let w := sim.started sim.stuck in
  fst (close w) = Ok tt
  ∧ driver (snd (close w)) = true
  ∧ quits (trace (snd (close w))) = 1
  ∧ quits (trace (snd (close (snd (close w))))) = 2.
Proof. vm_compute. repeat split; reflexivity. Qed.

(** The other path on which nothing is released: with Edge, the constructor
    starts the driver and then loads a first page; an interrupt during that
    load leaves the constructor before [bot] is bound, and the [finally]
    block of [run_cli] closes nothing. *)
Lemma constructor_interrupted :
  let run := bot.run_cli_guarded (u "12345678") true
               (Some (u "/usr/bin/microsoft-edge")) (Some (u "Edge"))
               [u "ABC123"] (sim.start sim.interrupted) in
  fst run = Ok 1
  ∧ In (Call (a_Chrome true) (Ok tt)) (trace (snd run))
  ∧ In (Print (bot.newline ++ u "[!] Process interrupted by user"))
       (trace (snd run))
  ∧ closes (trace (snd run)) = 0
  ∧ quits (trace (snd run)) = 0.
Proof. vm_compute. repeat split; try reflexivity; tauto. Qed.

(** C10 as amended on the blank site: the first [close] quits and clears
    the reference, the second one finds it cleared, and a whole run closes
    once. *)
Lemma single_release_witness :
  let w := sim.started sim.blank in
  let run := bot.run_cli_guarded (u "12345678") true
               (Some (u "/usr/bin/google-chrome")) (Some (u "Chrome"))
               [u "ABC123"] (sim.start sim.blank) in
  (fst (close w) = Ok tt ∧ driver (snd (close w)) = false)
  ∧ quits (trace (snd (close (snd (close w))))) = 1
  ∧ closes (trace (snd run)) = 1
  ∧ (quits (trace (snd run)) ≤ 1)%nat.
Proof.
  cbv zeta.
  destruct (single_release (u "12345678") true
              (Some (u "/usr/bin/google-chrome")) (Some (u "Chrome"))
              [u "ABC123"] (sim.start sim.blank))
    as (_ & Hfirst & Hsecond & Hquits & Hcloses).
  split; [apply Hfirst; reflexivity|].
  split.
  { destruct (Hsecond (snd (close (sim.started sim.blank))))
      as (_ & _ & _ & Hq); [reflexivity|].
    rewrite Hq. vm_compute. reflexivity. }
  split.
  { rewrite Hcloses. vm_compute. reflexivity. }
  exact Hquits.
Defined.

(** C3 as amended on the portal: typing [BREAK] makes the driver raise;
    the code is recorded as failed and the code after it is attempted. *)
Lemma sequential_isolation_witness :
  let codes := [u "GOOD1"; u "BREAK"; u "GOOD2"] in
  let w := sim.started (sim.portal [] [] [u "BREAK"] []) in
  fst (redeem_code (u "BREAK") None w) = Ok FAILED
  ∧ sections (trace (snd (bot.process_codes (length codes) 1 codes
                            (0, 0, 0) w)))
    = map title_of codes.
Proof.
  cbv zeta.
  destruct (sequential_isolation [u "GOOD1"; u "BREAK"; u "GOOD2"]
              (sim.started (sim.portal [] [] [u "BREAK"] [])))
    as (Hcatch & _ & _ & Hloop & _).
  split.
  - apply (Hcatch (u "BREAK") None _
             (sim.exc WebDriverException "Message: unknown error")).
    + vm_compute. reflexivity.
    + reflexivity.
  - assert (Hrun : fst (bot.process_codes
                          (length [u "GOOD1"; u "BREAK"; u "GOOD2"]) 1
                          [u "GOOD1"; u "BREAK"; u "GOOD2"] (0, 0, 0)
                          (sim.started (sim.portal [] [] [u "BREAK"] [])))
                   = Ok (2, 0, 1)) by (vm_compute; reflexivity).
    rewrite Hrun in Hloop. destruct Hloop as [Hs _]. exact Hs.
Defined.

(** C3 as stated fails for an exception that is not an [Exception]. Typing
    [STOP] is interrupted from the keyboard: the [KeyboardInterrupt] is
    raised by [send_keys], a step of the pipeline of the second code; it
    is not caught by [redeem_code], no outcome is returned for the code,
    the loop ends, and the third code is never attempted. *)
Lemma interrupt_ends_the_run :
  let codes := [u "GOOD1"; u "STOP"; u "GOOD2"] in
  let w := sim.started (sim.interrupting [u "STOP"]) in
  let interrupt := sim.exc KeyboardInterrupt "KeyboardInterrupt" in
  let run := bot.process_codes (length codes) 1 codes (0, 0, 0) w in
  In (Call (a_send_keys 1 (u "STOP")) (Raise interrupt))
     (trace (snd (redeem_code (u "STOP") None w)))
  ∧ fst (redeem_code (u "STOP") None w) = Raise interrupt
  ∧ fst run = Raise interrupt
  ∧ sections (trace (snd run)) = map title_of [u "GOOD1"; u "STOP"].
Proof. vm_compute. repeat split; try reflexivity; tauto. Qed.

(** C8 on a source that answers 503, on a page the parser rejects, and on
    a page that lists a code twice. *)
Lemma code_fetcher_contract_witness :
  let w := sim.start (sim.source_site 503 [] true) in
  let page := u "ActiveAAAAA1Copy ActiveBBBBB2Copy ActiveAAAAA1Expires" in
  (fst (utils.fetch true w) = Ok []
   ∧ ∃ new, trace (snd (utils.fetch true w)) = trace w ++ new
            ∧ count is_request_call new = 3)
  ∧ fst (utils.fetch true (sim.start (sim.source_site 200 page false)))
    = Ok []
  ∧ ∃ codes,
      fst (utils.fetch true (sim.start (sim.source_site 200 page true)))
      = Ok codes
      ∧ NoDup codes
      ∧ first_occurrence_order codes (utils.findall page)
      ∧ (∀ code, code ∈ codes → code ∈ utils.findall page)
      ∧ (∀ code, code ∈ utils.findall page →
           code ∈ codes
           ∨ (length codes = config.MAX_CODES_TO_FETCH
              ∧ ∀ c, c ∈ codes → occurs_before c code (utils.findall page))).
Proof.
  cbv zeta. split; [|split].
  - destruct (code_fetcher_contract true
                (sim.start (sim.source_site 503 [] true)))
      as (_ & Hdown & _).
    apply (Hdown (fun b => sim.site b = sim.source_site 503 [] true)).
    + intros b Hb. split; [|split].
      * unfold request_fails. cbn. rewrite Hb. cbn. lia.
      * exact Hb.
      * intros seconds. exact Hb.
    + reflexivity.
  - destruct (code_fetcher_contract true
                (sim.start
                   (sim.source_site 200
                      (u "ActiveAAAAA1Copy ActiveBBBBB2Copy ActiveAAAAA1Expires")
                      false)))
      as (_ & _ & Hparse & _).
    apply (Hparse (u "ActiveAAAAA1Copy ActiveBBBBB2Copy ActiveAAAAA1Expires")
             (sim.exc Exception "parser error")).
    + vm_compute. reflexivity.
    + reflexivity.
    + reflexivity.
  - destruct (code_fetcher_contract true
                (sim.start
                   (sim.source_site 200
                      (u "ActiveAAAAA1Copy ActiveBBBBB2Copy ActiveAAAAA1Expires")
                      true)))
      as (_ & _ & _ & Hlisted & _).
    apply (Hlisted (u "ActiveAAAAA1Copy ActiveBBBBB2Copy ActiveAAAAA1Expires")
             (u "ActiveAAAAA1Copy ActiveBBBBB2Copy ActiveAAAAA1Expires")).
    + vm_compute. reflexivity.
    + vm_compute. discriminate.
    + reflexivity.
Defined.

(** The scenario of the specification: the source lists [ABC123] and
    [XYZ789]; the portal reports the first as already claimed and redeems
    the second. The run ends with one success, one already claimed, no
    failure, and one [close] that quits the browser. *)
Lemma scenario_two_codes :
  let s := sim.portal [u "ABC123"] [] []
             (u "ActiveABC123Copy ActiveXYZ789Expires ActiveABC123Copy") in
  let run := bot.run_cli sim.cli_host (sim.start s) in
  fst run = Ok 0
  ∧ sections (trace (snd run)) = map title_of [u "ABC123"; u "XYZ789"]
  ∧ In (Print (u "[+] Successful: 1")) (trace (snd run))
  ∧ In (Print (u "[!] Already claimed: 1")) (trace (snd run))
  ∧ In (Print (u "[-] Failed: 0")) (trace (snd run))
  ∧ closes (trace (snd run)) = 1
  ∧ quits (trace (snd run)) = 1.
Proof.
  vm_compute. repeat split; try reflexivity; tauto.
Qed.

(** A run in which the pipeline of the second code raises: the code is
    recorded as failed and the third code is still redeemed. *)
Lemma isolation_run :
  let s := sim.portal [] [] [u "BREAK"] [] in
  let codes := [u "GOOD1"; u "BREAK"; u "GOOD2"] in
  let run := bot.process_codes 3 1 codes (0, 0, 0) (sim.started s) in
  fst run = Ok (2, 0, 1)
  ∧ sections (trace (snd run)) = map title_of codes.
Proof. vm_compute. split; reflexivity. Qed.

(** The fetcher on a source that answers 503: three requests, the delays
    2.0 and 3.0 seconds between them, and no code. *)
Lemma fetch_source_down :
  let w := sim.start (sim.source_site 503 [] true) in
  fst (utils.fetch true w) = Ok []
  ∧ count is_request_call (trace (snd (utils.fetch true w))) = 3
  ∧ List.filter (fun ev => match ev with Sleep _ => true | _ => false end)
      (trace (snd (utils.fetch true w))) = [Sleep 2; Sleep (6 # 2)].
Proof. vm_compute. repeat split; reflexivity. Qed.

(** The fetcher on a page that lists a code twice, and on a page the
    parser rejects. *)
Lemma fetch_listing :
  let page := u "ActiveAAAAA1Copy ActiveBBBBB2Copy ActiveAAAAA1Expires" in
  fst (utils.fetch true (sim.start (sim.source_site 200 page true)))
  = Ok [u "AAAAA1"; u "BBBBB2"]
  ∧ fst (utils.fetch true (sim.start (sim.source_site 200 page false)))
    = Ok [].
Proof. vm_compute. split; reflexivity. Qed.

End Runs.

(** * Further properties

    Properties of the code beside the claims of the specification. *)

(** ** Outcomes of a computation *)

Section Outcomes.
Context {Env : Type}.

Local Abbreviation M := (@M Env).

Lemma Yields_ret {A} (Q : A → Prop) (a : A) : Q a → Yields Q (ret a : M A).
Proof. intros Hq w a'. unfold ret. cbn. by intros [= <-]. Qed.

Lemma Yields_raise {A} (Q : A → Prop) (e : exn) : Yields Q (raise e : M A).
Proof. intros w a. discriminate. Qed.

Lemma Yields_bind_of {A B} (P : A → Prop) (Q : B → Prop) (m : M A)
    (k : A → M B) :
  Yields P m → (∀ a, P a → Yields Q (k a)) → Yields Q (bind m k).
Proof.
  intros Hm Hk w b. unfold bind. specialize (Hm w).
  destruct (m w) as [[a|e] w1]; cbn [fst] in *; [|discriminate].
  apply (Hk a). by apply Hm.
Qed.

Lemma Yields_bind {A B} (Q : B → Prop) (m : M A) (k : A → M B) :
  (∀ a, Yields Q (k a)) → Yields Q (bind m k).
Proof.
  intros Hk. apply (Yields_bind_of (fun _ => True)); [done|]. intros a _.
  apply Hk.
Qed.

Lemma Yields_catch {A B} (P : A → Prop) (Q : B → Prop) (m : M A)
    (k : Res A → M B) :
  Yields P m →
  (∀ a, P a → Yields Q (k (Ok a))) →
  (∀ e, Yields Q (k (Raise e))) →
  Yields Q (bind (try m) k).
Proof.
  intros Hm Hok Hraise w b. unfold bind, try. cbn [fst snd].
  specialize (Hm w).
  destruct (fst (m w)) as [a|e]; [apply Hok; by apply Hm | apply Hraise].
Qed.

(** The outcome of [try: m finally: fin]. *)
Lemma finally_outcome {A} (m : M A) (fin : M unit) (w : World Env) :
  fst (finally m fin w) =
    match fst (fin (snd (m w))) with
    | Ok _ => fst (m w)
    | Raise e => Raise e
    end.
Proof.
  unfold finally, bind, try. cbn [fst snd].
  destruct (fin (snd (m w))) as [[[]|e] w']; cbn [fst]; [|done].
  by destruct (fst (m w)).
Qed.

End Outcomes.

Ltac yields_step :=
  match goal with
  | |- Yields _ (ret _) => apply Yields_ret
  | |- Yields _ (raise _) => apply Yields_raise
  | |- Yields _ (bind _ _) => apply Yields_bind; intros ?
  | |- Yields _ (match ?x with _ => _ end) => destruct x
  end.

(** ** What a redemption and a run report *)

Section Reports.
Context {Env : Type} `{!WebDriver Env} `{!Scraping Env} `{!Clock Env}
  `{!PyStr}.
Import bot_core bot.

Lemma analyze_result_reported (code : str) :
  Yields (Env:=Env) reported (_analyze_result code).
Proof.
  unfold _analyze_result. cbv zeta. repeat yields_step; unfold reported; tauto.
Qed.

Lemma redeem_code_body_reported (code : str)
    (callback : option ProgressCallback) :
  Yields (Env:=Env) reported (redeem_code_body code callback).
Proof.
  unfold redeem_code_body. cbv zeta.
  repeat first
    [ match goal with
      | |- Yields _ (bind (_analyze_result _) _) =>
        apply (Yields_bind_of reported);
        [apply analyze_result_reported | intros ? ?]
      end
    | yields_step ];
    first [assumption | unfold reported; tauto].
Qed.

(** X1. [redeem_code] reports [SUCCESS], [ALREADY_CLAIMED] or [FAILED]:
    the values [INVALID] and [EXPIRED] of [RedeemResult] are never
    returned, and no [Exception] leaves the call. *)
Theorem redeem_code_results (code : str) (callback : option ProgressCallback)
    (w : World Env) :
  match fst (redeem_code code callback w) with
  | Ok result =>
    result = SUCCESS ∨ result = ALREADY_CLAIMED ∨ result = FAILED
  | Raise e => isinstance e Exception = false
  end.
Proof.
  pose proof (redeem_code_no_exception code callback w) as Hne.
  assert (Hy : Yields (Env:=Env) reported (redeem_code code callback)).
  { unfold redeem_code. apply Yields_bind. intros _.
    apply (Yields_catch reported); [apply redeem_code_body_reported|..].
    - intros result Hr. by apply Yields_ret.
    - intros e. repeat yields_step. unfold reported. tauto. }
  specialize (Hy w).
  destruct (fst (redeem_code code callback w)) as [result|e].
  - by apply Hy.
  - by apply Hne.
Qed.

Lemma run_cli_session_exit_status (bot_ : KingshotBotHeadless)
    (codes : list str) :
  Yields (Env:=Env) exit_status (run_cli_session bot_ codes).
Proof.
  unfold run_cli_session. cbv zeta.
  repeat yields_step; unfold exit_status; tauto.
Qed.

(** X2. From the construction of the bot on, [run_cli] ends with the exit
    code 0 or 1 and lets no [Exception] escape. An [Exception] or a
    [KeyboardInterrupt] of the constructor gives 1. Once the bot is
    constructed and when [close] returns in the [finally] block, an
    [Exception] or a [KeyboardInterrupt] of the login or of the loop
    gives 1, and the exit code of a session that returns is passed on.
    The exit code 0 is only ever that of a session that returned 0. *)
Theorem run_cli_exit_codes (player_id : str) (headless : bool)
    (browser_path browser_name : option str) (codes : list str)
    (w : World Env) :
  let init := __init__ player_id headless browser_path browser_name w in
  let run :=
    run_cli_guarded player_id headless browser_path browser_name codes w in
  match fst run with
  | Ok exit_code => exit_code = 0 ∨ exit_code = 1
  | Raise e => isinstance e Exception = false
  end
  ∧ (∀ e, fst init = Raise e →
       isinstance e KeyboardInterrupt || isinstance e Exception = true →
       fst run = Ok 1)
  ∧ (∀ bot_ e, fst init = Ok bot_ →
       fst (run_cli_session bot_ codes (snd init)) = Raise e →
       isinstance e KeyboardInterrupt || isinstance e Exception = true →
       fst (close (snd (run_cli_handled bot_ codes (snd init)))) = Ok tt →
       fst run = Ok 1)
  ∧ (∀ bot_ exit_code, fst init = Ok bot_ →
       fst (run_cli_session bot_ codes (snd init)) = Ok exit_code →
       fst (close (snd (run_cli_handled bot_ codes (snd init)))) = Ok tt →
       fst run = Ok exit_code)
  ∧ (fst run = Ok 0 →
     ∃ bot_, fst init = Ok bot_
             ∧ fst (run_cli_session bot_ codes (snd init)) = Ok 0).
Proof.
  cbv zeta.
  assert (Hexcept : ∀ (r : Res nat) (w0 : World Env),
            match r with Ok c => exit_status c | Raise _ => True end →
            match fst (run_cli_except r w0) with
            | Ok c => c = 0 ∨ c = 1
            | Raise e => isinstance e Exception = false
            end).
  { intros [c|e] w0 Hr; unfold run_cli_except; [exact Hr|].
    destruct (isinstance e KeyboardInterrupt); [run; auto|].
    destruct (isinstance e Exception) eqn:He; [run; auto|]. exact He. }
  assert (Hcaught : ∀ e (w0 : World Env),
            isinstance e KeyboardInterrupt || isinstance e Exception = true →
            fst (run_cli_except (Raise e) w0) = Ok 1).
  { intros e w0 He. unfold run_cli_except.
    destruct (isinstance e KeyboardInterrupt); [by run|].
    cbn [orb] in He. rewrite He. by run. }
  assert (Hzero : ∀ (r : Res nat) (w0 : World Env),
            fst (run_cli_except r w0) = Ok 0 → r = Ok 0).
  { intros [c|e] w0; unfold run_cli_except; [by intros [= ->]|].
    destruct (isinstance e KeyboardInterrupt); [by run|].
    destruct (isinstance e Exception); by run. }
  assert (Hrun : fst (run_cli_guarded player_id headless browser_path
                        browser_name codes w) =
            match fst (__init__ player_id headless browser_path
                         browser_name w) with
            | Raise e =>
              fst (run_cli_except (Raise e)
                     (snd (__init__ player_id headless browser_path
                             browser_name w)))
            | Ok bot_ =>
              let handled :=
                run_cli_handled bot_ codes
                  (snd (__init__ player_id headless browser_path
                          browser_name w)) in
              match fst (close (snd handled)) with
              | Ok _ => fst handled
              | Raise e => Raise e
              end
            end).
  { unfold run_cli_guarded. unfold bind at 1, try at 1. cbn [fst snd].
    destruct (fst (__init__ player_id headless browser_path browser_name w))
      as [bot_|e]; [|reflexivity].
    apply finally_outcome. }
  assert (Hhandled : ∀ bot_ (w1 : World Env),
            fst (run_cli_handled bot_ codes w1)
            = fst (run_cli_except (fst (run_cli_session bot_ codes w1))
                     (snd (run_cli_session bot_ codes w1)))).
  { intros bot_ w1. reflexivity. }
  rewrite Hrun.
  destruct (__init__ player_id headless browser_path browser_name w)
    as [[bot_|e] w1]; cbn [fst snd].
  - cbv zeta. split; [|split; [|split; [|split]]].
    + pose proof (close_no_exception (snd (run_cli_handled bot_ codes w1)))
        as Hc.
      destruct (fst (close (snd (run_cli_handled bot_ codes w1))))
        as [[]|e]; [|by apply Hc].
      rewrite Hhandled. apply Hexcept.
      pose proof (run_cli_session_exit_status bot_ codes w1) as Hs.
      destruct (fst (run_cli_session bot_ codes w1)); [by apply Hs | done].
    + discriminate.
    + intros bot' e [= <-] Hs He Hc. rewrite Hc, Hhandled, Hs.
      by apply Hcaught.
    + intros bot' c [= <-] Hs Hc. rewrite Hc, Hhandled, Hs. reflexivity.
    + intros H0. exists bot_. split; [done|].
      destruct (fst (close (snd (run_cli_handled bot_ codes w1))))
        as [[]|e]; [|discriminate].
      rewrite Hhandled in H0. by apply Hzero in H0.
  - split; [|split; [|split; [|split]]].
    + by apply Hexcept.
    + intros e' [= <-] He. by apply Hcaught.
    + discriminate.
    + discriminate.
    + intros H0. by apply Hzero in H0.
Qed.

End Reports.

(** ** Safe clicks, further *)

Section ClicksContained.
Context {Env : Type} `{!WebDriver Env} `{!Clock Env} `{!PyStr}.
Import bot_core.

Lemma click_loop_no_exception (element : WebElement) (max_attempts : nat)
    (attempts : list nat) :
  NoException (_click_element_safe_loop element max_attempts attempts).
Proof.
  induction attempts as [|attempt rest IH]; intros w e.
  - cbn [_click_element_safe_loop]. run. discriminate.
  - cbn [_click_element_safe_loop]. run.
    destruct (fst (click element (env w))) as [[]|e0]; run; [discriminate|].
    destruct (isinstance e0 ElementClickInterceptedException); run.
    + destruct (attempt =? max_attempts - 1)%nat; [|apply IH].
      destruct (driver w); run.
      * destruct (fst (execute_script js_click [element] _)) as [[]|e'];
          run; [discriminate|].
        destruct (isinstance e' Exception) eqn:He'; run; [apply IH|].
        intros [= <-]. exact He'.
      * replace (isinstance none_type_error Exception)
          with true by reflexivity.
        apply IH.
    + destruct (isinstance e0 StaleElementReferenceException); run;
        [discriminate|].
      destruct (isinstance e0 Exception) eqn:He0; run; [discriminate|].
      intros [= <-]. exact He0.
Qed.

(** The loop runs the script-level click at most once per attempt that is
    the last one. *)
Lemma click_loop_scripts (element : WebElement) (max_attempts : nat)
    (attempts : list nat) (w : World Env) :
  ∃ new,
    trace (snd (_click_element_safe_loop element max_attempts attempts w))
    = trace w ++ new
    ∧ (count is_script_click new
       ≤ length (List.filter
                   (fun attempt => (attempt =? max_attempts - 1)%nat)
                   attempts))%nat.
Proof.
  revert w. induction attempts as [|attempt rest IH]; intros w.
  - exists []. cbn. rewrite app_nil_r. split; [done | unfold count; simpl; lia].
  - cbn [_click_element_safe_loop List.filter]. run.
    destruct (fst (click element (env w))) as [[]|e] eqn:Hc; run.
    { eexists. split; [reflexivity|]. unfold count. cbn. lia. }
    destruct (isinstance e ElementClickInterceptedException); run.
    + destruct (attempt =? max_attempts - 1)%nat.
      * destruct (driver w); run.
        -- destruct (fst (execute_script js_click [element] _)) as [[]|e'];
             run.
           ++ eexists. split; [rewrite <- !app_assoc; reflexivity|].
              unfold count. cbn. lia.
           ++ destruct (isinstance e' Exception); run.
              ** match goal with
                 |- context [_click_element_safe_loop _ _ _ ?w1] =>
                   destruct (IH w1) as (new & -> & Hn)
                 end.
                 cbn [trace]. eexists.
                 split; [rewrite <- !app_assoc; reflexivity|].
                 rewrite !count_app. unfold count in *. cbn. lia.
              ** eexists. split; [rewrite <- !app_assoc; reflexivity|].
                 unfold count. cbn. lia.
        -- replace (isinstance none_type_error Exception)
             with true by reflexivity.
           match goal with
           |- context [_click_element_safe_loop _ _ _ ?w1] =>
             destruct (IH w1) as (new & -> & Hn)
           end.
           cbn [trace]. eexists.
           split; [rewrite <- !app_assoc; reflexivity|].
           rewrite !count_app. unfold count in *. cbn. lia.
      * match goal with
        |- context [_click_element_safe_loop _ _ _ ?w1] =>
          destruct (IH w1) as (new & -> & Hn)
        end.
        cbn [trace]. eexists.
        split; [rewrite <- !app_assoc; reflexivity|].
        rewrite !count_app. unfold count in *. cbn. lia.
    + destruct (isinstance e StaleElementReferenceException); run.
      * eexists. split; [rewrite <- !app_assoc; reflexivity|].
        unfold count. cbn. lia.
      * destruct (isinstance e Exception); run.
        -- eexists. split; [rewrite <- !app_assoc; reflexivity|].
           unfold count. cbn. lia.
        -- eexists. split; [reflexivity|]. unfold count. cbn. lia.
Qed.

(** X3. [_click_element_safe] is contained: whatever the target does, no
    [Exception] leaves the call, the target is clicked directly at most
    three times and the script-level click is tried at most once. *)
Theorem click_element_safe_contained (element : WebElement) (w : World Env) :
  match fst (_click_element_safe element w) with
  | Ok _ => True
  | Raise e => isinstance e Exception = false
  end
  ∧ ∃ new,
      trace (snd (_click_element_safe element w)) = trace w ++ new
      ∧ (count (is_click_on element) new ≤ 3)%nat
      ∧ (count is_script_click new ≤ 1)%nat.
Proof.
  split.
  - pose proof (click_loop_no_exception element 3 (seq 0 3) w) as Hne.
    unfold _click_element_safe. cbv zeta.
    destruct (fst (_click_element_safe_loop element 3 (seq 0 3) w));
      [done | by apply Hne].
  - destruct (click_loop_bound element 3 (seq 0 3) w) as (new & Ht & Hc).
    destruct (click_loop_scripts element 3 (seq 0 3) w) as (new' & Ht' & Hs).
    unfold _click_element_safe. cbv zeta.
    rewrite Ht in Ht'. apply app_inv_head in Ht'. subst new'.
    exists new. split; [exact Ht|]. split; [exact Hc | exact Hs].
Qed.

End ClicksContained.

(** ** The session: construction, navigation, use after [close] *)

Section Session.
Context {Env : Type} `{!WebDriver Env} `{!Clock Env} `{!PyStr}.
Import bot_core.

(** X5. [login] does not catch what the navigation raises: [driver.get]
    is called before the [try] of [login], so an error of the page load
    leaves [login] as an exception, not as the result [False], and nothing
    else is done to the browser. *)
Theorem login_navigation_error (self : KingshotBotHeadless) (w : World Env)
    (e : exn) :
  browser_name self ≠ u "Edge" →
  driver w = true →
  fst (get (url self) (env w)) = Raise e →
  fst (login self w) = Raise e
  ∧ trace (snd (login self w)) =
      trace w ++
      [Log (u "info") (u "[*]" ++ u " " ++ u "Opening " ++ url self);
       Call (a_get (url self)) (Raise e)].
Proof.
  intros Hname Hd Hget.
  assert (Hrun : login self w =
    (Raise e,
     {| env := snd (get (url self) (env w)); driver := driver w;
        trace := (trace w ++
                  [Log (u "info")
                     (u "[*]" ++ u " " ++ u "Opening " ++ url self)]) ++
                 [Call (a_get (url self)) (Raise e)] |})).
  { unfold login, _clear_browser_state.
    rewrite bool_decide_eq_false_2 by exact Hname.
    run. rewrite Hd. run. rewrite Hget. reflexivity. }
  rewrite Hrun. cbn [fst snd trace]. split; [done|].
  by rewrite <- app_assoc.
Qed.

(** X6. A bot whose driver reference is [None], as [close] leaves it,
    fails every code without touching the browser: [redeem_code] waits
    for the page update, finds no driver to search with, and returns
    [FAILED]. *)
Theorem redeem_code_without_driver (code : str) (w : World Env) :
  driver w = false →
  fst (redeem_code code None w) = Ok FAILED
  ∧ deeds (trace (snd (redeem_code code None w))) =
      deeds (trace w) ++
      [LogSection (u "REDEEMING CODE: " ++ code);
       Sleep (config.page_update config.TIMEOUTS)]
  ∧ driver (snd (redeem_code code None w)) = false.
Proof.
  intros Hd.
  assert (Hrun : ∃ logs1 logs2 logs3,
    redeem_code code None w =
    (Ok FAILED,
     {| env := elapse (config.page_update config.TIMEOUTS) (env w);
        driver := driver w;
        trace := trace w ++ [LogSection (u "REDEEMING CODE: " ++ code)]
                 ++ [Log (u "info") logs1]
                 ++ [Sleep (config.page_update config.TIMEOUTS)]
                 ++ [Log (u "info") logs2; Log (u "error") logs3;
                     Log (u "debug")
                       (u "[DEBUG]" ++ u " " ++ format_exc none_type_error)]
     |})).
  { unfold redeem_code, redeem_code_body, report_progress, _find_input_field,
      gather_visible_inputs, _find_elements_safe, section.
    cbv zeta. run. rewrite Hd. cbv beta iota. cbn [fst snd].
    change (isinstance none_type_error NoSuchElementException) with false.
    change (isinstance none_type_error StaleElementReferenceException)
      with false.
    cbn [orb]. cbv beta iota. cbn [fst snd env driver trace].
    change (isinstance none_type_error Exception) with true.
    cbv beta iota. cbn [fst snd env driver trace].
    eexists _, _, _. rewrite <- !app_assoc. reflexivity. }
  destruct Hrun as (logs1 & logs2 & logs3 & ->).
  cbn [fst snd trace driver]. split; [done|]. split; [|exact Hd].
  rewrite deeds_app. reflexivity.
Qed.

(** X7. On such a bot [login] raises the [AttributeError] of the missing
    driver: the navigation is outside the [try] of [login]. *)
Theorem login_without_driver (self : KingshotBotHeadless) (w : World Env) :
  driver w = false →
  fst (login self w) = Raise none_type_error
  ∧ count is_call (trace (snd (login self w))) = count is_call (trace w).
Proof.
  intros Hd. unfold login, _clear_browser_state.
  destruct (bool_decide (browser_name self = u "Edge")).
  - run. rewrite Hd. cbv beta iota. cbn [fst snd].
    change (isinstance none_type_error Exception) with true.
    cbv beta iota. cbn [fst snd env driver trace]. split; [done|].
    rewrite !count_app. unfold count. cbn. lia.
  - run. rewrite Hd. cbn [fst snd trace]. split; [done|].
    rewrite !count_app. unfold count. cbn. lia.
Qed.

(** X8. When the driver does not start, the constructor raises what
    [webdriver.Chrome] raised and leaves [self.driver] at [None]; a
    [WebDriverException] is logged first. *)
Theorem constructor_start_failure (player_id : str) (headless : bool)
    (browser_path browser_name : option str) (w : World Env) (e : exn) :
  fst (Chrome headless (env w)) = Raise e →
  fst (__init__ player_id headless browser_path browser_name w) = Raise e
  ∧ driver (snd (__init__ player_id headless browser_path browser_name w))
    = false
  ∧ (isinstance e WebDriverException = true →
     last (trace (snd (__init__ player_id headless browser_path browser_name
                         w)))
     = Some (Log (u "error")
               (u "[ERROR]" ++ u " " ++ u "Failed to start ChromeDriver: "
                ++ message e))).
Proof.
  intros Hc. unfold __init__, _initialize_driver. cbv zeta.
  cbn [bot_core.browser_path bot_core.headless bot_core.browser_name].
  destruct (truthy (or_empty browser_path)), headless; run;
    rewrite Hc; run;
    destruct (isinstance e WebDriverException); run;
    (split; [done|]); (split; [done|]); intros; try done;
    by rewrite last_snoc.
Qed.

Lemma initialize_edge_swallows (w : World Env) (e : exn) :
  driver w = true →
  fst (get (u "about:blank") (env w)) = Raise e →
  isinstance e Exception = true →
  _initialize_edge w =
    (Ok tt,
     {| env := snd (get (u "about:blank") (env w)); driver := true;
        trace := trace w ++
          [Call (a_get (u "about:blank")) (Raise e);
           Log (u "debug")
             (u "[DEBUG]" ++ u " " ++ u "Edge initialization note: "
              ++ message e)] |}).
Proof.
  intros Hd Hg He. unfold _initialize_edge. run. rewrite Hd. run.
  rewrite Hg. run. rewrite He. run. rewrite <- app_assoc. reflexivity.
Qed.

(** X9. With Edge, an [Exception] of the first page load is swallowed by
    [_initialize_edge]: the constructor returns the bot, with its driver,
    and only a debug line tells. *)
Theorem edge_initialization_swallowed (player_id : str) (headless : bool)
    (browser_path : option str) (w : World Env) (e : exn) :
  fst (Chrome headless (env w)) = Ok tt →
  fst (get (u "about:blank") (snd (Chrome headless (env w)))) = Raise e →
  isinstance e Exception = true →
  ∃ bot_,
    fst (__init__ player_id headless browser_path (Some (u "Edge")) w)
    = Ok bot_
    ∧ browser_name bot_ = u "Edge"
    ∧ driver (snd (__init__ player_id headless browser_path
                     (Some (u "Edge")) w)) = true
    ∧ last (trace (snd (__init__ player_id headless browser_path
                          (Some (u "Edge")) w)))
      = Some (Log (u "debug")
                (u "[DEBUG]" ++ u " " ++ u "Edge initialization note: "
                 ++ message e)).
Proof.
  intros Hc Hg He. unfold __init__, _initialize_driver.
  cbv zeta.
  cbn [bot_core.browser_path bot_core.headless bot_core.browser_name].
  change (truthy (or_empty (Some (u "Edge")))) with true. cbv iota.
  change (or_empty (Some (u "Edge"))) with (u "Edge").
  rewrite bool_decide_eq_true_2 by reflexivity.
  destruct (truthy (or_empty browser_path)), headless; run;
    rewrite Hc; run;
    (erewrite initialize_edge_swallows; [|reflexivity|exact Hg|exact He]);
    cbn [fst snd driver trace];
    eexists; (split; [reflexivity|]); (split; [reflexivity|]);
    (split; [reflexivity|]);
    match goal with |- last (?l ++ [?x; ?y]) = _ =>
      change (l ++ [x; y]) with (l ++ [x] ++ [y]);
      by rewrite app_assoc, last_snoc
    end.
Qed.

End Session.

(** ** What the locators return *)

Section Located.
Context {Env : Type} `{!WebDriver Env} `{!Clock Env} `{!PyStr}.
Import bot_core.

Lemma is_element_visible_run (element : WebElement) (w : World Env) :
  ∃ r, _is_element_visible element w = (r, w)
       ∧ (r = Ok true → is_displayed element (env w) = Ok true).
Proof.
  unfold _is_element_visible. run.
  destruct (is_displayed element (env w)) as [b|e].
  - eexists. split; [reflexivity|]. by intros [= ->].
  - destruct (isinstance e StaleElementReferenceException);
      eexists; (split; [reflexivity|]); discriminate.
Qed.

Lemma visible_only_run (inputs : list WebElement) (w : World Env) :
  ∃ r, visible_only inputs w = (r, w)
       ∧ ∀ l, r = Ok l →
           ∀ x, x ∈ l → x ∈ inputs ∧ is_displayed x (env w) = Ok true.
Proof.
  induction inputs as [|inp rest IH].
  - eexists. split; [reflexivity|]. intros l [= <-] x Hx.
    by apply elem_of_nil in Hx.
  - cbn [visible_only]. unfold bind at 1.
    destruct (is_element_visible_run inp w) as (r1 & -> & H1).
    destruct r1 as [b|e]; [|eexists; split; [reflexivity|discriminate]].
    unfold bind at 1. destruct IH as (r2 & -> & H2).
    destruct r2 as [l2|e]; [|eexists; split; [reflexivity|discriminate]].
    eexists. split; [reflexivity|]. intros l [= <-] x Hx.
    destruct b.
    + apply elem_of_cons in Hx as [->|Hx].
      * split; [apply list_elem_of_here | by apply H1].
      * destruct (H2 l2 eq_refl x Hx) as [Hin Hd].
        split; [by apply list_elem_of_further | done].
    + destruct (H2 l2 eq_refl x Hx) as [Hin Hd].
      split; [by apply list_elem_of_further | done].
Qed.

Lemma gather_visible_inputs_run (w : World Env) :
  ∃ r, gather_visible_inputs w = (r, w)
       ∧ ∀ l, r = Ok l → ∀ x, x ∈ l → is_displayed x (env w) = Ok true.
Proof.
  unfold gather_visible_inputs. unfold bind at 1.
  pose proof (Pure_find_elements_safe CSS_SELECTOR
                (config.text_inputs config.SELECTORS) w) as Hp1.
  destruct (_find_elements_safe CSS_SELECTOR _ w) as [[inputs|e] w1];
    cbn [snd] in Hp1; subst w1;
    [|eexists; split; [reflexivity|discriminate]].
  unfold bind at 1.
  assert (Hlast : ∀ inputs',
    ∃ r, visible_only inputs' w = (r, w)
         ∧ ∀ l, r = Ok l → ∀ x, x ∈ l → is_displayed x (env w) = Ok true).
  { intros inputs'. destruct (visible_only_run inputs' w) as (r & Hr & Hl).
    exists r. split; [done|]. intros l Hok x Hx. by apply (Hl l Hok x). }
  destruct inputs as [|inp inputs]; [|apply Hlast].
  unfold bind at 1.
  pose proof (Pure_find_elements_safe TAG_NAME (u "input") w) as Hp2.
  destruct (_find_elements_safe TAG_NAME (u "input") w)
    as [[all_inputs|e] w1]; cbn [snd] in Hp2; subst w1;
    [|eexists; split; [reflexivity|discriminate]].
  destruct (visible_only_run all_inputs w) as (r & -> & _).
  destruct r as [l|e]; [apply Hlast|].
  eexists; split; [reflexivity|discriminate].
Qed.

Lemma by_maxlength_member (maxlength : str) (visible_inputs : list WebElement)
    (w : World Env) (inp : WebElement) :
  fst (_find_input_field_by_maxlength maxlength visible_inputs w)
    = Ok (Some inp) →
  inp ∈ visible_inputs.
Proof.
  induction visible_inputs as [|first rest IH]; [discriminate|].
  cbn [_find_input_field_by_maxlength]. run.
  destruct (get_attribute first (u "maxlength") (env w)) as [a|e];
    [|discriminate].
  destruct (bool_decide (a = Some maxlength)).
  - run. intros [= <-]. apply list_elem_of_here.
  - intros Hr. apply list_elem_of_further. by apply IH.
Qed.

Lemma by_placeholder_member (field_type : str)
    (visible_inputs : list WebElement) (w : World Env) (inp : WebElement) :
  fst (_find_input_field_by_placeholder field_type visible_inputs w)
    = Ok (Some inp) →
  inp ∈ visible_inputs.
Proof.
  induction visible_inputs as [|first rest IH]; [discriminate|].
  cbn [_find_input_field_by_placeholder]. run.
  destruct (get_attribute first (u "placeholder") (env w)) as [a|e];
    [|discriminate].
  cbv zeta.
  destruct (any_in (placeholder_keywords field_type) (lower (or_empty a))).
  - run. intros [= <-]. apply list_elem_of_here.
  - intros Hr. apply list_elem_of_further. by apply IH.
Qed.

(** X10. Whatever tier finds it, the input [_find_input_field] returns
    is displayed on the page: it passed [is_displayed] when the inputs
    were gathered, and the page has not been acted on since. *)
Theorem find_input_field_displayed (field_type : str)
    (maxlength : option str) (w : World Env) (inp : WebElement) :
  fst (_find_input_field field_type maxlength w) = Ok (Some inp) →
  is_displayed inp (env w) = Ok true.
Proof.
  unfold _find_input_field. unfold bind at 1.
  destruct (gather_visible_inputs_run w) as (r & -> & Hshown).
  destruct r as [visible_inputs|e]; [|discriminate].
  specialize (Hshown visible_inputs eq_refl).
  unfold bind at 1, info, _log, emit.
  match goal with |- context [extend w ?new] => generalize (extend w new) end.
  intros w1. unfold bind at 1.
  assert (Htiers : ∀ w2,
    fst (bind (_find_input_field_by_placeholder field_type visible_inputs)
           (fun by_placeholder =>
              match by_placeholder with
              | Some inp0 => ret (Some inp0)
              | None =>
                match visible_inputs with
                | first :: _ =>
                  bind (warning (u "Using first visible input field"))
                    (fun _ => ret (Some first))
                | [] => ret None
                end
              end) w2) = Ok (Some inp) →
    inp ∈ visible_inputs).
  { intros w2. unfold bind at 1.
    destruct (_find_input_field_by_placeholder field_type visible_inputs w2)
      as [[[found|]|e] w3] eqn:Hp; cbn [fst]; [..|discriminate].
    - intros [= <-]. apply (by_placeholder_member field_type _ w2).
      by rewrite Hp.
    - destruct visible_inputs as [|first rest]; [discriminate|].
      run. intros [= <-]. apply list_elem_of_here. }
  destruct (truthy (or_empty maxlength)).
  - destruct (_find_input_field_by_maxlength (or_empty maxlength)
                visible_inputs w1) as [[[found|]|e] w2] eqn:Hm;
      cbn [fst]; [..|discriminate].
    + intros [= <-]. apply Hshown.
      apply (by_maxlength_member (or_empty maxlength) _ w1). by rewrite Hm.
    + intros Hr. apply Hshown. by apply (Htiers w2).
  - intros Hr. apply Hshown. by apply (Htiers w1).
Qed.

Lemma find_all_clickables_elems_run (elements clickables : list WebElement)
    (w : World Env) :
  ∃ r, _find_all_clickables_elems elements clickables w = (r, w)
       ∧ ∀ l, r = Ok l →
           ∀ x, x ∈ l → x ∈ clickables ∨ is_displayed x (env w) = Ok true.
Proof.
  revert clickables. induction elements as [|elem rest IH]; intros clickables.
  - eexists. split; [reflexivity|]. intros l [= <-] x Hx. by left.
  - cbn [_find_all_clickables_elems]. run.
    destruct (is_displayed elem (env w)) as [[]|e] eqn:Hd.
    + destruct (IH (clickables ++ [elem])) as (r & -> & Hl).
      eexists. split; [reflexivity|]. intros l Hok x Hx.
      destruct (Hl l Hok x Hx) as [Hin|Hshown]; [|by right].
      apply elem_of_app in Hin as [Hin|Hin]; [by left|].
      apply list_elem_of_singleton in Hin as ->. by right.
    + apply IH.
    + destruct (isinstance e StaleElementReferenceException); [apply IH|].
      eexists. split; [reflexivity|]. discriminate.
Qed.

Lemma find_all_clickables_loop_run (selectors : list str)
    (clickables : list WebElement) (w : World Env) :
  ∃ r, _find_all_clickables_loop selectors clickables w = (r, w)
       ∧ ∀ l, r = Ok l →
           ∀ x, x ∈ l → x ∈ clickables ∨ is_displayed x (env w) = Ok true.
Proof.
  revert clickables.
  induction selectors as [|selector rest IH]; intros clickables.
  - eexists. split; [reflexivity|]. intros l [= <-] x Hx. by left.
  - cbn [_find_all_clickables_loop]. unfold bind at 1.
    pose proof (Pure_find_elements_safe CSS_SELECTOR selector w) as Hp.
    destruct (_find_elements_safe CSS_SELECTOR selector w)
      as [[elements|e] w1]; cbn [snd] in Hp; subst w1;
      [|eexists; split; [reflexivity|discriminate]].
    unfold bind at 1.
    destruct (find_all_clickables_elems_run elements clickables w)
      as (r1 & -> & H1).
    destruct r1 as [clickables'|e];
      [|eexists; split; [reflexivity|discriminate]].
    destruct (IH clickables') as (r2 & -> & H2).
    eexists. split; [reflexivity|]. intros l Hok x Hx.
    destruct (H2 l Hok x Hx) as [Hin|Hshown]; [|by right].
    by apply (H1 clickables' eq_refl).
Qed.

Lemma find_button_by_keywords_loop_member (keywords : list str)
    (clickables : list WebElement) (w : World Env) (button : WebElement) :
  fst (_find_button_by_keywords_loop keywords clickables w)
    = Ok (Some button) →
  button ∈ clickables
  ∧ env (snd (_find_button_by_keywords_loop keywords clickables w)) = env w.
Proof.
  induction clickables as [|elem rest IH]; [discriminate|].
  cbn [_find_button_by_keywords_loop]. run.
  destruct (text elem (env w)) as [t|e] eqn:Ht; cbn [fst snd].
  - cbv zeta.
    destruct (truthy (lower (strip t)) && any_in keywords (lower (strip t)));
      cbn [fst snd];
      [|intros Hr; destruct (IH Hr) as [Hin Henv];
        split; [by apply list_elem_of_further | exact Henv]].
    destruct (get_attribute elem (u "class") (env w)) as [class_attr|e];
      cbn [fst snd].
    + destruct (negb (contains (lower (or_empty class_attr)) (u "disabled")));
        cbn [fst snd].
      * rewrite Ht. cbn [fst snd]. intros [= <-].
        split; [apply list_elem_of_here | reflexivity].
      * intros Hr. destruct (IH Hr) as [Hin Henv].
        split; [by apply list_elem_of_further | exact Henv].
    + destruct (isinstance e StaleElementReferenceException);
        [|discriminate].
      intros Hr. destruct (IH Hr) as [Hin Henv].
      split; [by apply list_elem_of_further | exact Henv].
  - destruct (isinstance e StaleElementReferenceException); [|discriminate].
    intros Hr. destruct (IH Hr) as [Hin Henv].
    split; [by apply list_elem_of_further | exact Henv].
Qed.

Lemma find_button_by_selector_run (css_selector : option str)
    (w : World Env) :
  env (snd (_find_button_by_selector css_selector w)) = env w
  ∧ ∀ button,
      fst (_find_button_by_selector css_selector w) = Ok (Some button) →
      is_displayed button (env w) = Ok true.
Proof.
  unfold _find_button_by_selector, _find_element_safe.
  destruct (truthy (or_empty css_selector)); [|split; [done|discriminate]].
  run. destruct (driver w); cbn [fst snd].
  - destruct (find_element CSS_SELECTOR (or_empty css_selector) (env w))
      as [button|e]; cbn [fst snd env].
    + destruct (is_displayed button (env w)) as [[]|e] eqn:Hd;
        cbn [fst snd env].
      * destruct (text button (env w)); cbn [fst snd env];
          split; try done. by intros ? [= <-].
      * split; [done|discriminate].
      * split; [done|discriminate].
    + destruct (isinstance e NoSuchElementException
                || isinstance e StaleElementReferenceException);
        cbn [fst snd env]; split; try done; discriminate.
  - replace (isinstance none_type_error NoSuchElementException
             || isinstance none_type_error StaleElementReferenceException)
      with false by reflexivity.
    cbn [fst snd env]. split; [done|discriminate].
Qed.

(** X11. The button [_find_button_by_keywords] returns is displayed on
    the page, whether the CSS selector or the text search found it. *)
Theorem find_button_displayed (keywords : list str)
    (css_selector : option str) (w : World Env) (button : WebElement) :
  fst (_find_button_by_keywords keywords css_selector w) = Ok (Some button) →
  is_displayed button (env w) = Ok true.
Proof.
  unfold _find_button_by_keywords. unfold bind at 1.
  destruct (find_button_by_selector_run css_selector w) as [Henv Hsel].
  destruct (_find_button_by_selector css_selector w)
    as [[[found|]|e] w1]; cbn [fst snd] in *; [..|discriminate].
  - intros [= <-]. by apply Hsel.
  - unfold bind at 1. unfold _find_all_clickables.
    destruct (find_all_clickables_loop_run
                (config.clickable_buttons config.SELECTORS) [] w1)
      as (r & -> & Hshown).
    destruct r as [clickables|e]; [|discriminate].
    unfold bind at 1, info, _log, emit.
    match goal with |- context [extend w1 ?new] =>
      generalize (extend w1 new) end.
    intros w2 Hr.
    apply find_button_by_keywords_loop_member in Hr as [Hin _].
    destruct (Hshown clickables eq_refl button Hin) as [Hnil|Hd].
    + by apply elem_of_nil in Hnil.
    + by rewrite <- Henv.
Qed.

End Located.

(** ** The fetcher, further *)

Section Fetched.
Context {Env : Type} `{!Scraping Env} `{!Clock Env}.
Import utils.

Lemma alnum_run_le (s : str) (n : nat) :
  (alnum_run s n ≤ n)%nat ∧ (alnum_run s n ≤ length s)%nat.
Proof.
  revert s. induction n as [|n IH]; intros s; [destruct s; cbn; lia|].
  destruct s as [|c s]; [cbn; lia|]. cbn [alnum_run length].
  destruct (is_alnum c); [|lia]. destruct (IH s). lia.
Qed.

Lemma alnum_run_take (s : str) (n k : nat) :
  (k ≤ alnum_run s n)%nat → forallb is_alnum (take k s) = true.
Proof.
  revert s k. induction n as [|n IH]; intros s k Hk.
  - assert (alnum_run s 0 = 0) as Hz by (by destruct s).
    rewrite Hz in Hk. by replace k with 0 by lia.
  - destruct s as [|c s]; [by destruct k|].
    cbn [alnum_run] in Hk. destruct k as [|k]; [done|].
    destruct (is_alnum c) eqn:Hc; [|lia].
    cbn [take forallb]. rewrite Hc. cbn [andb]. apply IH. lia.
Qed.

Lemma match_group_bounds (s : str) (k g t : nat) :
  match_group s k = Some (g, t) → (5 ≤ g)%nat ∧ (g ≤ k)%nat.
Proof.
  induction k as [|k IH]; cbn [match_group].
  - cbn. discriminate.
  - destruct (5 <=? S k)%nat eqn:Hk.
    + destruct (tail_length (drop (S k) s)).
      * intros [= <- <-]. apply Nat.leb_le in Hk. lia.
      * intros Hm. destruct (IH Hm). lia.
    + intros Hm. destruct (IH Hm). lia.
Qed.

Lemma match_at_well_formed (s group : str) (len : nat) :
  match_at s = Some (group, len) → well_formed_code group.
Proof.
  unfold match_at. destruct (startswith s (u "Active")); [|discriminate].
  cbv zeta.
  destruct (match_group (drop 6 s) (alnum_run (drop 6 s) 20))
    as [[g t]|] eqn:Hm; [|discriminate].
  intros [= <- <-]. apply match_group_bounds in Hm as [Hlo Hhi].
  destruct (alnum_run_le (drop 6 s) 20) as [H20 Hlen].
  unfold well_formed_code. rewrite length_take.
  repeat split; [lia | lia |]. by apply (alnum_run_take _ 20).
Qed.

Lemma findall_well_formed (all_text code : str) :
  code ∈ findall all_text → well_formed_code code.
Proof.
  unfold findall. generalize (length all_text). intros fuel.
  revert all_text. induction fuel as [|fuel IH]; intros s.
  - intros Hin. by apply elem_of_nil in Hin.
  - cbn [findall_fuel]. destruct s as [|c s].
    + intros Hin. by apply elem_of_nil in Hin.
    + destruct (match_at (c :: s)) as [[group len]|] eqn:Hm; [|apply IH].
      intros [->|Hin]%elem_of_cons; [|by apply (IH _ Hin)].
      by apply (match_at_well_formed (c :: s) _ len).
Qed.

(** The codes [fetch] returns are matches of the page it parsed. *)
Lemma fetch_codes_matched (HAS_SCRAPING : bool) (w : World Env)
    (codes : list str) :
  fst (fetch HAS_SCRAPING w) = Ok codes →
  codes = [] ∨ ∃ all_text, ∀ code, code ∈ codes → code ∈ findall all_text.
Proof.
  unfold fetch. cbv zeta. unfold bind at 1, print at 1, emit at 1.
  unfold bind at 1.
  destruct (_fetch_with_retry HAS_SCRAPING CODES_SOURCE_URL _)
    as [[html|e] w2]; [|discriminate].
  destruct html as [[|c html]|]; cbn [fst ret];
    [intros [= <-]; by left | | intros [= <-]; by left].
  unfold bind at 1, try at 1. cbn [fst snd]. rewrite fetch_body_result.
  destruct (get_text (c :: html) (env w2)) as [all_text|e].
  - cbn [fst ret]. intros [= <-]. right. exists all_text.
    by destruct (active_codes_spec (findall all_text)) as (_ & _ & Hin).
  - destruct (isinstance e Exception); [|discriminate].
    unfold bind, print, emit, ret. cbn [fst]. intros [= <-]. by left.
Qed.

(** X12. Every code [fetch] returns has the shape the scraping pattern
    captures: five to twenty characters, all of them ASCII letters or
    digits. *)
Theorem fetched_codes_well_formed (HAS_SCRAPING : bool) (w : World Env) :
  match fst (fetch HAS_SCRAPING w) with
  | Ok codes =>
    ∀ code, code ∈ codes →
      (5 ≤ length code)%nat ∧ (length code ≤ 20)%nat
      ∧ forallb is_alnum code = true
  | Raise _ => True
  end.
Proof.
  destruct (fst (fetch HAS_SCRAPING w)) as [codes|e] eqn:Hf; [|done].
  intros code Hin.
  destruct (fetch_codes_matched HAS_SCRAPING w codes Hf)
    as [->|[all_text Hall]].
  - by apply elem_of_nil in Hin.
  - apply (findall_well_formed all_text). by apply Hall.
Qed.

(** One failed attempt, seen through its delay and its request. *)
Lemma fetch_retry_step_events (down : Env → Prop) (attempt : nat)
    (rest : list nat) (last_error : option str) (w : World Env) :
  source_down down → down (env w) →
  ∃ last_error' w1 outcome_,
    _fetch_with_retry_loop CODES_SOURCE_URL (attempt :: rest) last_error w
    = _fetch_with_retry_loop CODES_SOURCE_URL rest (Some last_error') w1
    ∧ List.filter is_request_or_sleep (trace w1)
      = List.filter is_request_or_sleep (trace w)
        ++ (if (0 <? attempt)%nat then [Sleep (retry_delay attempt)] else [])
        ++ [Call (a_requests_get CODES_SOURCE_URL) outcome_]
    ∧ down (env w1).
Proof.
  intros Hdown Hw. cbn [_fetch_with_retry_loop]. cbv zeta. run.
  fold (retry_delay attempt).
  destruct (0 <? attempt)%nat; cbn [fst snd env driver trace];
    match goal with |- context [requests_get ?url_ ?t ?env0] =>
      assert (Hf : request_fails env0
                   ∧ down (snd (requests_get url_ t env0)))
        by (split; apply Hdown; try apply Hdown; exact Hw);
      destruct Hf as [Hf Hnext]; unfold request_fails in Hf;
      destruct (fst (requests_get url_ t env0)) as [response|e]
    end.
  all: cbn [fst snd outcome].
  all: try (unfold raise_for_status;
            match type of Hf with _ ∧ _ => destruct Hf as [Hlo Hhi] end;
            apply Nat.leb_le in Hlo; apply Nat.ltb_lt in Hhi;
            rewrite Hlo, Hhi; cbn [andb fst snd];
            change (isinstance _ requests_Timeout) with false;
            change (isinstance _ requests_ConnectionError) with false;
            change (isinstance _ requests_HTTPError) with true;
            cbv iota).
  all: try (destruct (isinstance e requests_Timeout);
            [|destruct (isinstance e requests_ConnectionError);
              [|destruct (isinstance e requests_HTTPError);
                [|rewrite Hf]]]).
  all: cbv beta iota; cbn [fst snd env driver trace];
    eexists _, _, _; (split; [reflexivity|]); cbn [trace env];
    (split; [|exact Hnext]);
    rewrite !List.filter_app; cbn [List.filter is_request_or_sleep];
    rewrite ?app_nil_r, <- ?app_assoc; reflexivity.
Qed.

(** X13. When every request fails, [_fetch_with_retry] asks three times
    and backs off between the requests: nothing before the first, 2.0
    seconds before the second, 3.0 seconds before the third; then it
    gives up with [None]. *)
Theorem fetch_backoff_schedule (down : Env → Prop) (w : World Env) :
  source_down down → down (env w) →
  fst (_fetch_with_retry true CODES_SOURCE_URL w) = Ok None
  ∧ (∃ o1 o2 o3,
       List.filter is_request_or_sleep
         (trace (snd (_fetch_with_retry true CODES_SOURCE_URL w)))
       = List.filter is_request_or_sleep (trace w) ++
         [Call (a_requests_get CODES_SOURCE_URL) o1;
          Sleep (retry_delay 1);
          Call (a_requests_get CODES_SOURCE_URL) o2;
          Sleep (retry_delay 2);
          Call (a_requests_get CODES_SOURCE_URL) o3])
  ∧ (retry_delay 1 == 2)%Q ∧ (retry_delay 2 == 3)%Q.
Proof.
  intros Hdown Hw. unfold _fetch_with_retry. cbn [negb].
  change (seq 0 (config.max_attempts config.RETRY_CONFIG)) with [0; 1; 2].
  destruct (fetch_retry_step_events down 0 [1; 2] None w Hdown Hw)
    as (err1 & w1 & o1 & -> & Ht1 & Hw1).
  destruct (fetch_retry_step_events down 1 [2] (Some err1) w1 Hdown Hw1)
    as (err2 & w2 & o2 & -> & Ht2 & Hw2).
  destruct (fetch_retry_step_events down 2 [] (Some err2) w2 Hdown Hw2)
    as (err3 & w3 & o3 & -> & Ht3 & Hw3).
  cbn [_fetch_with_retry_loop]. run. split; [done|]. split; [|done].
  exists o1, o2, o3.
  rewrite List.filter_app, Ht3, Ht2, Ht1. cbn [Nat.ltb Nat.leb List.filter app].
  rewrite <- !app_assoc. cbn [is_request_or_sleep]. by rewrite app_nil_r.
Qed.

End Fetched.

(** ** A run without codes *)

Section NoCodes.
Context {Env : Type} `{!WebDriver Env} `{!Scraping Env} `{!Clock Env}
  `{!PyStr}.
Import utils bot.

Lemma fetch_retry_loop_leaves_browser (url_ : str) (attempts : list nat)
    (last_error : option str) :
  Emits (Env:=Env) leaves_browser
    (_fetch_with_retry_loop url_ attempts last_error).
Proof.
  revert last_error.
  induction attempts as [|attempt rest IH]; intros last_error;
    cbn [_fetch_with_retry_loop]; cbv zeta; emits.
Qed.

Lemma print_codes_leaves_browser (active_codes : list str) :
  Emits (Env:=Env) leaves_browser (print_codes active_codes).
Proof.
  induction active_codes as [|code rest IH]; cbn [print_codes]; emits.
Qed.

Lemma fetch_leaves_browser (HAS_SCRAPING : bool) :
  Emits (Env:=Env) leaves_browser (fetch HAS_SCRAPING).
Proof.
  unfold fetch, _fetch_with_retry, fetch_body. cbv zeta.
  repeat first [apply fetch_retry_loop_leaves_browser
               | apply print_codes_leaves_browser
               | emits_step].
Qed.

(** X14. When the fetcher returns no code, [run_cli] reports it and ends
    with the exit code 1 before any bot is constructed: no browser is
    started and nothing is done to one. *)
Theorem run_cli_without_codes (host : Host) (w : World Env) :
  dependencies_ok host = true →
  bot_core.truthy (bot_core.or_empty (loaded_player_id host)) = true →
  fst (fetch_active_gift_codes (HAS_SCRAPING host)
         (snd (bind print_banner (fun _ => print []) w))) = Ok [] →
  fst (run_cli host w) = Ok 1
  ∧ ∃ new,
      trace (snd (run_cli host w)) = trace w ++ new
      ∧ count touches_browser new = 0.
Proof.
  intros Hdep Hid Hfetch. unfold run_cli.
  rewrite Hdep, Hid. cbn [negb].
  unfold fetch_active_gift_codes in *.
  destruct (fetch_leaves_browser (HAS_SCRAPING host)
              (snd (bind print_banner (fun _ => print []) w)))
    as (new & Ht & Hnew).
  unfold print_banner, print, bind, ret, emit, extend in Hfetch, Ht.
  cbn [fst snd env driver trace] in Hfetch, Ht.
  unfold print_banner. run.
  destruct (fetch (HAS_SCRAPING host) _) as [r w1].
  cbn [fst snd] in *. subst r. cbn [fst snd trace].
  split; [done|]. eexists. rewrite Ht, <- !app_assoc.
  split; [reflexivity|].
  rewrite !count_app.
  rewrite (count_forallb_false touches_browser leaves_browser new);
    [reflexivity | | exact Hnew].
  intros ev. unfold leaves_browser. by destruct (touches_browser ev).
Qed.

End NoCodes.

(** ** Browser detection *)

Section Detection.
Context `{!OS}.
Import utils.

Lemma find_browser_path_first (paths : list str) (found : str) :
  _find_browser_path paths = Some found ↔
  ∃ before after,
    paths = before ++ found :: after
    ∧ path_exists found = true
    ∧ ∀ q, q ∈ before → path_exists q = false.
Proof.
  induction paths as [|p rest IH]; cbn [_find_browser_path].
  - split; [discriminate|]. intros (before & after & Heq & _).
    by destruct before.
  - destruct (path_exists p) eqn:Hp.
    + split.
      * intros [= <-]. exists [], rest. repeat split; [done|].
        intros q Hq. by apply elem_of_nil in Hq.
      * intros (before & after & Heq & Hfound & Hbefore).
        destruct before as [|q before]; [by injection Heq as -> _|].
        injection Heq as <- _.
        rewrite (Hbefore p) in Hp; [done | apply list_elem_of_here].
    + rewrite IH. split.
      * intros (before & after & -> & Hfound & Hbefore).
        exists (p :: before), after. repeat split; [done|].
        intros q [->|Hq]%elem_of_cons; [done | by apply Hbefore].
      * intros (before & after & Heq & Hfound & Hbefore).
        destruct before as [|q before].
        -- injection Heq as -> _. by rewrite Hfound in Hp.
        -- injection Heq as <- ->. exists before, after.
           repeat split; [done|]. intros q Hq. apply Hbefore.
           by apply list_elem_of_further.
Qed.

Lemma detect_loop_app (items : list (str * list str))
    (available : list BrowserInfo) :
  detect_loop items available = available ++ detect_loop items [].
Proof.
  revert available. induction items as [|[browser_name paths] rest IH];
    intros available; cbn [detect_loop].
  - by rewrite app_nil_r.
  - destruct (_find_browser_path paths) as [[|c found_path]|];
      [apply IH | | apply IH].
    rewrite IH, (IH ([] ++ _)), app_assoc. reflexivity.
Qed.

Lemma detect_loop_elem (items : list (str * list str)) (b : BrowserInfo) :
  b ∈ detect_loop items [] ↔
  ∃ paths,
    (name b, paths) ∈ items
    ∧ _find_browser_path paths = Some (path b)
    ∧ path b ≠ []
    ∧ has_issues b = bool_decide (name b = u "Edge").
Proof.
  induction items as [|[browser_name paths] rest IH]; cbn [detect_loop].
  - split; [by intros ?%elem_of_nil|].
    intros (paths & Hin & _). by apply elem_of_nil in Hin.
  - assert (Hskip :
      (_find_browser_path paths = None
       ∨ _find_browser_path paths = Some []) →
      b ∈ detect_loop rest [] ↔
      ∃ paths0,
        (name b, paths0) ∈ (browser_name, paths) :: rest
        ∧ _find_browser_path paths0 = Some (path b)
        ∧ path b ≠ []
        ∧ has_issues b = bool_decide (name b = u "Edge")).
    { intros Hnone. rewrite IH. split.
      - intros (paths0 & Hin & Hrest). exists paths0.
        split; [by apply list_elem_of_further | done].
      - intros (paths0 & Hin & Hfound & Hne & Hissue).
        apply elem_of_cons in Hin as [[= _ ->]|Hin]; [|by exists paths0].
        destruct Hnone as [Hnone|Hnone]; rewrite Hnone in Hfound;
          [discriminate|]. congruence. }
    destruct (_find_browser_path paths) as [[|c found_path]|] eqn:Hfound;
      [apply Hskip; by right | | apply Hskip; by left].
    rewrite detect_loop_app. cbn [app]. rewrite elem_of_cons, IH. split.
    + intros [->|(paths0 & Hin & Hrest)].
      * exists paths. cbn. split; [apply list_elem_of_here|]. by repeat split.
      * exists paths0. split; [by apply list_elem_of_further | done].
    + intros (paths0 & Hin & Hfound0 & Hne & Hissue).
      apply elem_of_cons in Hin as [[= Hname ->]|Hin]; [|right; by exists paths0].
      left. destruct b as [n p i]. cbn in *. subst n.
      rewrite Hfound in Hfound0. injection Hfound0 as <-. by subst i.
Qed.

(** X15. [detect] lists a browser exactly when the table of the platform
    names it and one of its candidate paths exists; the path listed is
    the first candidate that exists, and [has_issues] marks Edge and
    nothing else. *)
Theorem detect_spec (b : BrowserInfo) :
  b ∈ detect ↔
  ∃ paths before after,
    (name b, paths) ∈ _get_paths_for_platform
    ∧ paths = before ++ path b :: after
    ∧ path_exists (path b) = true
    ∧ (∀ q, q ∈ before → path_exists q = false)
    ∧ path b ≠ []
    ∧ has_issues b = bool_decide (name b = u "Edge").
Proof.
  unfold detect. rewrite detect_loop_elem. split.
  - intros (paths & Hin & Hfound & Hne & Hissue).
    apply find_browser_path_first in Hfound
      as (before & after & Heq & Hex & Hbefore).
    by exists paths, before, after.
  - intros (paths & before & after & Hin & Heq & Hex & Hbefore & Hne & Hissue).
    exists paths. repeat split; try done.
    apply find_browser_path_first. by exists before, after.
Qed.

Lemma get_preferred_named_spec (priority_name : str)
    (browsers : list BrowserInfo) :
  match get_preferred_named priority_name browsers with
  | Some b => b ∈ browsers ∧ name b = priority_name
  | None => ∀ b, b ∈ browsers → name b ≠ priority_name
  end.
Proof.
  induction browsers as [|browser rest IH]; cbn [get_preferred_named].
  - intros b Hb. by apply elem_of_nil in Hb.
  - case_bool_decide as Hn.
    + split; [apply list_elem_of_here | done].
    + destruct (get_preferred_named priority_name rest) as [b|].
      * destruct IH. split; [by apply list_elem_of_further | done].
      * intros b [->|Hb]%elem_of_cons; [done | by apply IH].
Qed.

Lemma get_preferred_loop_spec (priorities : list str)
    (browsers : list BrowserInfo) :
  match get_preferred_loop priorities browsers with
  | Some b =>
    b ∈ browsers
    ∧ ∃ j, priorities !! j = Some (name b)
           ∧ ∀ b' i, b' ∈ browsers → (i < j)%nat →
               priorities !! i ≠ Some (name b')
  | None => ∀ b', b' ∈ browsers → name b' ∉ priorities
  end.
Proof.
  induction priorities as [|p rest IH]; cbn [get_preferred_loop].
  - intros b' _ Hin. by apply elem_of_nil in Hin.
  - pose proof (get_preferred_named_spec p browsers) as Hnamed.
    destruct (get_preferred_named p browsers) as [b|].
    + destruct Hnamed as [Hin <-]. split; [done|]. exists 0.
      split; [done|]. intros b' i _ Hi. lia.
    + destruct (get_preferred_loop rest browsers) as [b|].
      * destruct IH as (Hin & j & Hj & Hmin). split; [done|].
        exists (S j). split; [done|]. intros b' [|i] Hb' Hi; cbn.
        -- intros [= Heq]. by apply (Hnamed b' Hb').
        -- apply Hmin; [done | lia].
      * intros b' Hb' [Heq|Hin]%elem_of_cons.
        -- by apply (Hnamed b' Hb').
        -- by apply (IH b' Hb').
Qed.

(** X16. [get_preferred] returns [None] exactly when nothing was
    detected. Otherwise it returns a detected browser, and no detected
    browser stands before it in [BROWSER_PRIORITY]; when no detected
    browser is named in [BROWSER_PRIORITY] at all, it returns the first
    one detected. *)
Theorem get_preferred_spec :
  match get_preferred with
  | None => detect = []
  | Some b =>
    b ∈ detect
    ∧ ((∃ j, config.BROWSER_PRIORITY !! j = Some (name b)
             ∧ ∀ b', b' ∈ detect → ¬ ranked_before j (name b'))
       ∨ (head detect = Some b
          ∧ ∀ b', b' ∈ detect → name b' ∉ config.BROWSER_PRIORITY))
  end.
Proof.
  unfold get_preferred. cbv zeta.
  destruct detect as [|first rest] eqn:Hd; [done|].
  pose proof (get_preferred_loop_spec config.BROWSER_PRIORITY (first :: rest))
    as Hloop.
  destruct (get_preferred_loop config.BROWSER_PRIORITY (first :: rest))
    as [b|].
  - destruct Hloop as (Hin & j & Hj & Hmin). split; [done|]. left.
    exists j. split; [done|]. intros b' Hb' (i & Hi & Hrank).
    by apply (Hmin b' i Hb' Hi).
  - split; [apply list_elem_of_here|]. right. by split.
Qed.

(** X17. On a platform other than Windows, Linux and macOS the detector
    has no table: whatever is installed, it detects nothing and
    [get_preferred_browser] answers [(None, None)]. *)
Theorem unknown_platform_detects_nothing :
  system ≠ u "Windows" → system ≠ u "Linux" → system ≠ u "Darwin" →
  detect = []
  ∧ detect_available_browsers = []
  ∧ get_preferred_browser = (None, None).
Proof.
  intros Hw Hl Hm.
  assert (Hd : detect = []).
  { unfold detect, _get_paths_for_platform.
    by rewrite !bool_decide_eq_false_2. }
  unfold detect_available_browsers, get_preferred_browser, get_preferred.
  cbv zeta. by rewrite Hd.
Qed.

(** X18. The legacy listing never names a browser [Edge]: it names each
    browser by [str(b)], which for Edge, the one browser with
    [has_issues], is [Edge (may have issues)]. *)
Theorem legacy_listing_renames_edge :
  (∀ entry, entry ∈ detect_available_browsers → fst entry ≠ u "Edge")
  ∧ (∀ b, b ∈ detect → name b = u "Edge" →
       (u "Edge (may have issues)", path b) ∈ detect_available_browsers)
  ∧ (∀ b, b ∈ detect → name b ≠ u "Edge" →
       (name b, path b) ∈ detect_available_browsers).
Proof.
  unfold detect_available_browsers. cbv zeta.
  assert (Hstr : ∀ b, b ∈ detect →
            __str__ b = if bool_decide (name b = u "Edge")
                        then u "Edge (may have issues)" else name b).
  { intros b Hb. unfold detect in Hb.
    apply detect_loop_elem in Hb as (_ & _ & _ & _ & Hissue).
    unfold __str__. cbv zeta. rewrite Hissue.
    case_bool_decide as Hn; [|by rewrite app_nil_r].
    rewrite Hn. vm_compute. reflexivity. }
  split; [|split].
  - intros entry (b & -> & Hb)%list_elem_of_fmap. cbn [fst].
    rewrite (Hstr b Hb). case_bool_decide; [|done].
    vm_compute. discriminate.
  - intros b Hb Hn. apply list_elem_of_fmap. exists b. split; [|done].
    by rewrite (Hstr b Hb), bool_decide_eq_true_2.
  - intros b Hb Hn. apply list_elem_of_fmap. exists b. split; [|done].
    by rewrite (Hstr b Hb), bool_decide_eq_false_2.
Qed.

End Detection.

(** ** The tags of the log panel *)

Section Tags.
Import gui.

(** X19. The tag under which the log panel shows a line of the bot
    follows from the method that logged it, whatever the message:
    [success] lines are tagged [success], [error] lines [error],
    [warning] lines [warning]; [info] and [debug] lines are both tagged
    [info]. *)
Theorem log_callback_tags (msg : str) :
  snd (_log_callback (u "[+]" ++ u " " ++ msg)) = u "success"
  ∧ snd (_log_callback (u "[ERROR]" ++ u " " ++ msg)) = u "error"
  ∧ snd (_log_callback (u "[!]" ++ u " " ++ msg)) = u "warning"
  ∧ snd (_log_callback (u "[*]" ++ u " " ++ msg)) = u "info"
  ∧ snd (_log_callback (u "[DEBUG]" ++ u " " ++ msg)) = u "info".
Proof.
  unfold _log_callback. cbv zeta. cbn [snd]. repeat split.
Qed.

End Tags.

(** ** Dependencies and the player id *)

Section Hosted.
Context {Env : Type} `{!Machine Env} `{!PyStr}.
Import utils bot.

(** X20. [install] with nothing to install answers [True] without running
    pip. Otherwise it runs pip once; it answers [True] exactly when pip
    ends with the return code 0, and neither a timeout nor any other
    [Exception] of the run leaves the call. *)
Theorem install_contract (packages : list str) (w : World Env) :
  install [] w = (Ok true, w)
  ∧ match fst (install packages w) with
    | Ok true =>
      packages = []
      ∨ ∃ stderr,
          fst (pip_install_upgrade packages (env w)) = completed 0 stderr
    | Ok false =>
      packages ≠ []
      ∧ ∀ stderr,
          fst (pip_install_upgrade packages (env w)) ≠ completed 0 stderr
    | Raise e => isinstance e Exception = false
    end
  ∧ (packages ≠ [] →
     env (snd (install packages w))
     = snd (pip_install_upgrade packages (env w))).
Proof.
  split; [reflexivity|].
  destruct packages as [|pkg packages]; [split; [by left | done]|].
  unfold install, host_call. run.
  destruct (fst (pip_install_upgrade (pkg :: packages) (env w)))
    as [returncode stderr| |e] eqn:Hpip; cbn [fst snd env].
  - destruct (returncode =? 0)%Z eqn:Hz; cbn [fst snd env].
    + apply Z.eqb_eq in Hz as ->. split; [|done]. right. by exists stderr.
    + apply Z.eqb_neq in Hz. split; [|done]. split; [done|].
      intros stderr' [= -> _]. done.
  - split; [|done]. split; [done|]. discriminate.
  - destruct (isinstance e Exception) eqn:He; cbn [fst snd env].
    + split; [|done]. split; [done|]. discriminate.
    + split; [exact He | done].
Qed.

Lemma check_missing_loop_sublist (packages : list (str * str))
    (missing : list str) (w : World Env) (found : list str) :
  fst (check_missing_loop packages missing w) = Ok found →
  ∃ more, found = missing ++ more ∧ sublist more (map snd packages).
Proof.
  revert missing w.
  induction packages as [|[module_name package_name] rest IH];
    intros missing w; cbn [check_missing_loop].
  - unfold ret. cbn. intros [= <-]. exists []. by rewrite app_nil_r.
  - unfold bind at 1, host_call. cbn [fst snd].
    destruct (fst (import_module module_name (env w))).
    + intros Hr. destruct (IH _ _ Hr) as (more & -> & Hsub).
      exists more. split; [done|]. by apply sublist_cons.
    + intros Hr. destruct (IH _ _ Hr) as (more & -> & Hsub).
      exists (package_name :: more). rewrite <- app_assoc.
      split; [done|]. by apply sublist_skip.
    + discriminate.
Qed.

(** X21. [check_and_install_dependencies] imports [requests], [bs4] and
    [selenium], in this order, each on the machine as the import before
    left it. It answers with the pip names of the packages whose import
    raised [ImportError], in that order, [beautifulsoup4] standing for
    the module [bs4], and with [None] in place of the empty list; the
    list is the one [check_missing] returns. An import that raises
    anything else ends the call with that exception, and the modules
    after it are not imported. *)
Theorem check_and_install_dependencies_result (w : World Env) :
  let requests_ := import_module (u "requests") (env w) in
  let bs4_ := import_module (u "bs4") (snd requests_) in
  let selenium_ := import_module (u "selenium") (snd bs4_) in
  let missing :=
    missing_package (fst requests_) (u "requests")
    ++ missing_package (fst bs4_) (u "beautifulsoup4")
    ++ missing_package (fst selenium_) (u "selenium") in
  match fst (check_and_install_dependencies w) with
  | Ok answer =>
    import_settled (fst requests_)
    ∧ import_settled (fst bs4_)
    ∧ import_settled (fst selenium_)
    ∧ answer = match missing with
               | [] => None
               | _ :: _ => Some missing
               end
    ∧ fst (check_missing w) = Ok missing
    ∧ sublist missing (map u ["requests"; "beautifulsoup4"; "selenium"])
    ∧ env (snd (check_and_install_dependencies w)) = snd selenium_
  | Raise e =>
    fst (check_missing w) = Raise e
    ∧ (fst requests_ = import_raises e
         ∧ env (snd (check_and_install_dependencies w)) = snd requests_
       ∨ import_settled (fst requests_)
         ∧ fst bs4_ = import_raises e
         ∧ env (snd (check_and_install_dependencies w)) = snd bs4_
       ∨ import_settled (fst requests_)
         ∧ import_settled (fst bs4_)
         ∧ fst selenium_ = import_raises e
         ∧ env (snd (check_and_install_dependencies w)) = snd selenium_)
  end.
Proof.
  cbv zeta.
  unfold check_and_install_dependencies, check_missing, REQUIRED_PACKAGES.
  cbn [check_missing_loop]. unfold bind, host_call, ret, raise.
  cbn [fst snd env].
  destruct (fst (import_module (u "requests") (env w))) as [| |e1];
    cbn [fst snd env missing_package import_settled app].
  3: { split; [done|]. left. by split. }
  all: destruct (fst (import_module (u "bs4")
                        (snd (import_module (u "requests") (env w)))))
         as [| |e2]; cbn [fst snd env missing_package import_settled app].
  3, 6: split; [done|]; right; left; by repeat split.
  all: destruct (fst (import_module (u "selenium")
                        (snd (import_module (u "bs4")
                                (snd (import_module (u "requests")
                                        (env w)))))))
         as [| |e3]; cbn [fst snd env missing_package import_settled app].
  3, 6, 9, 12: split; [done|]; right; right; by repeat split.
  all: repeat split; try done.
  all: repeat first [apply sublist_nil | apply sublist_skip
                    | apply sublist_cons].
Qed.

Lemma print_packages_run (missing : list str) (w : World Env) :
  ∃ new, print_packages missing w = (Ok tt, extend w new).
Proof.
  revert w. induction missing as [|pkg rest IH]; intros w.
  - exists []. unfold extend. rewrite app_nil_r. by destruct w.
  - cbn [print_packages]. run.
    match goal with |- context [print_packages rest ?w1] =>
      destruct (IH w1) as [new ->]
    end.
    eexists. unfold extend. cbn [env driver trace].
    rewrite <- app_assoc. reflexivity.
Qed.

Lemma answer_dependencies_false (missing : list str) (line : str) :
  Yields (Env:=Env) (fun b => b = false) (answer_dependencies missing line).
Proof.
  unfold answer_dependencies. cbv zeta. repeat yields_step; reflexivity.
Qed.

Lemma ask_to_install_contract (missing : list str) (w1 : World Env) :
  let prompted :=
    stdout_write (u "Would you like to install them now? (y/n): ")
      (env w1) in
  match fst (ask_to_install missing w1) with
  | Ok true => False
  | Ok false => True
  | Raise e => isinstance e KeyboardInterrupt = false
  end
  ∧ (∀ line,
       fst (input prompted) = typed line →
       lower (strip line) ∉ [u "y"; u "yes"] →
       fst (ask_to_install missing w1) = Ok false
       ∧ env (snd (ask_to_install missing w1)) = snd (input prompted)).
Proof.
  cbv zeta. unfold ask_to_install.
  unfold bind, print, emit, print_no_end, host_call, try.
  match goal with |- context [print_packages missing ?w0] =>
    destruct (print_packages_run missing w0) as [new Hpp]; rewrite Hpp
  end.
  cbn [fst snd env driver trace extend].
  set (prompted :=
         stdout_write (u "Would you like to install them now? (y/n): ")
           (env w1)).
  destruct (fst (input prompted)) as [line| |e] eqn:Hin.
  - match goal with |- context [answer_dependencies missing line ?w2] =>
      pose proof (answer_dependencies_false missing line w2) as Hfalse;
      set (w2_ := w2) in *
    end.
    split.
    + destruct (fst (answer_dependencies missing line w2_)) as [b|e] eqn:Ha.
      * by rewrite (Hfalse b eq_refl).
      * destruct (isinstance e KeyboardInterrupt) eqn:He; [done|].
        exact He.
    + intros line' [= <-] Hno.
      assert (Hrun : answer_dependencies missing line w2_ =
        (Ok false,
         extend w2_
           [Print (newline
                   ++ u "[!] Cannot continue without required packages.");
            Print (u "    Please install manually: pip install "
                   ++ join (u " ") missing)])).
      { unfold answer_dependencies. cbv zeta.
        rewrite bool_decide_eq_false_2 by exact Hno. run.
        unfold extend. by rewrite <- app_assoc. }
      rewrite Hrun. cbn [fst snd ret env extend]. by split.
  - split; [done | discriminate].
  - split; [|discriminate].
    destruct (isinstance e KeyboardInterrupt) eqn:He; [done | exact He].
Qed.

(** X22. [check_and_install_cli_dependencies] answers [True] only when
    nothing is missing, and then it prints nothing and asks nothing.
    When a package is missing it answers [False] whatever follows, a
    successful installation included; and pip is run only on the answer
    [y] or [yes]: any other line ends the call with nothing further
    done to the machine. *)
Theorem cli_dependencies_contract (w : World Env) :
  let checked := check_and_install_dependencies w in
  let prompted :=
    stdout_write (u "Would you like to install them now? (y/n): ")
      (env (snd checked)) in
  match fst (check_and_install_cli_dependencies w) with
  | Ok true =>
    fst checked = Ok None
    ∧ snd (check_and_install_cli_dependencies w) = snd checked
  | Ok false => ∃ missing, fst checked = Ok (Some missing)
  | Raise e =>
    fst checked = Raise e ∨ isinstance e KeyboardInterrupt = false
  end
  ∧ (∀ missing line,
       fst checked = Ok (Some missing) →
       fst (input prompted) = typed line →
       lower (strip line) ∉ [u "y"; u "yes"] →
       fst (check_and_install_cli_dependencies w) = Ok false
       ∧ env (snd (check_and_install_cli_dependencies w))
         = snd (input prompted)).
Proof.
  cbv zeta. unfold check_and_install_cli_dependencies, bind.
  destruct (check_and_install_dependencies w) as [[[missing|]|e] w1];
    cbn [fst snd ret]; [|split; [by split | discriminate]
                        |split; [by left | discriminate]].
  destruct (ask_to_install_contract missing w1) as [Hask Hno].
  split.
  - destruct (fst (ask_to_install missing w1)) as [[]|e];
      [done | by exists missing | by right].
  - intros missing' line [= <-]. apply Hno.
Qed.

(** X23. [load_player_id] never answers an empty id: it answers the
    stripped content of the file when that is not empty, leaving no line
    on the console; and [None], after an error line, when the file is
    missing or blank. Any other error of the read leaves the call. *)
Theorem load_player_id_result (w : World Env) :
  match fst (load_player_id w) with
  | Ok (Some player_id) =>
    player_id ≠ []
    ∧ (∃ content,
         read_text config.PLAYER_ID_FILE (env w) = read_content content
         ∧ player_id = strip content)
    ∧ snd (load_player_id w) = w
  | Ok None =>
    (read_text config.PLAYER_ID_FILE (env w) = read_FileNotFoundError
     ∨ ∃ content,
         read_text config.PLAYER_ID_FILE (env w) = read_content content
         ∧ strip content = [])
    ∧ ∃ line new,
        trace (snd (load_player_id w)) = trace w ++ Print line :: new
  | Raise e => read_text config.PLAYER_ID_FILE (env w) = read_raises e
  end.
Proof.
  unfold load_player_id. run.
  destruct (read_text config.PLAYER_ID_FILE (env w)) as [content| |e];
    cbn [fst snd trace];
    [|split; [by left | eexists _, _; by rewrite <- app_assoc]|done].
  cbv zeta. destruct (strip content) as [|c player_id] eqn:Hs;
    cbn [bot_core.truthy negb fst snd trace].
  - split; [right; by exists content | by eexists _, _].
  - split; [done|]. split; [by exists content | by destruct w].
Qed.

End Hosted.

(** ** The classifier, the modal and the exit code *)

Section Verdicts.
Context {Env : Type} `{!WebDriver Env} `{!Scraping Env} `{!Clock Env}
  `{!PyStr}.
Import bot_core bot.

(** X24. On a page without a keyword of the already-claimed list,
    [_analyze_result] reports [SUCCESS], in a success line of the log,
    when the page holds a success keyword; and when it holds none but
    holds an error keyword, it reports [FAILED] in an error line. *)
Theorem classifier_success_and_error (code source : str) (w : World Env) :
  driver w = true →
  page_source (env w) = Ok source →
  ¬ has_keyword (config.already_claimed config.LANGUAGE_KEYWORDS)
                (lower source) →
  (has_keyword (config.success config.LANGUAGE_KEYWORDS) (lower source) →
   fst (_analyze_result code w) = Ok SUCCESS
   ∧ last (trace (snd (_analyze_result code w)))
     = Some (Log (u "info")
               (u "[+]" ++ u " " ++ u "Code " ++ code
                ++ u " redeemed successfully!")))
  ∧ (¬ has_keyword (config.success config.LANGUAGE_KEYWORDS) (lower source) →
     has_keyword (config.error config.LANGUAGE_KEYWORDS) (lower source) →
     fst (_analyze_result code w) = Ok FAILED
     ∧ last (trace (snd (_analyze_result code w)))
       = Some (Log (u "error")
                 (u "[ERROR]" ++ u " " ++ u "Error redeeming code "
                  ++ code))).
Proof.
  intros Hd Hsrc Hac.
  rewrite (analyze_result_priority code source w Hd Hsrc). cbv zeta.
  rewrite (any_in_false _ _ Hac). split.
  - intros Hs. apply any_in_spec in Hs. rewrite Hs.
    cbn [fst snd extend trace]. split; [done|]. by rewrite last_snoc.
  - intros Hs He. rewrite (any_in_false _ _ Hs).
    apply any_in_spec in He. rewrite He.
    cbn [fst snd extend trace]. split; [done|]. by rewrite last_snoc.
Qed.

(** X25. The exit code of a session follows the login alone. When
    [login] answers [False] the session ends with 1 and no code is
    attempted; when it answers [True] the session ends with 0 once the
    loop is through, however many codes failed; what [login] raises
    leaves the session as it is. *)
Theorem exit_code_follows_login (bot_ : KingshotBotHeadless)
    (codes : list str) (w : World Env) :
  match fst (login bot_ w) with
  | Ok false =>
    fst (run_cli_session bot_ codes w) = Ok 1
    ∧ sections (trace (snd (run_cli_session bot_ codes w)))
      = sections (trace w)
  | Ok true =>
    match fst (run_cli_session bot_ codes w) with
    | Ok exit_code => exit_code = 0
    | Raise e => isinstance e Exception = false
    end
  | Raise e => fst (run_cli_session bot_ codes w) = Raise e
  end.
Proof.
  destruct (quiet_login bot_ w) as (new & Ht & Hq).
  unfold run_cli_session, bind.
  destruct (login bot_ w) as [[[]|e] w1]; cbn [fst snd negb] in *; [| |done].
  - destruct (process_codes_spec codes (length codes) 1 (0, 0, 0) w1)
      as (new' & attempted & _ & _ & _ & Hres).
    destruct (process_codes (length codes) 1 codes (0, 0, 0) w1)
      as [[[[successful already_claimed] failed]|e] w2]; cbn [fst] in *.
    + reflexivity.
    + by destruct Hres.
  - unfold error, _log, emit, ret. cbn [fst snd extend trace].
    split; [done|]. rewrite Ht, !sections_app, (sections_quiet new Hq).
    cbn. by rewrite !app_nil_r.
Qed.

(** X26. A visible close button ends [dismiss_modal] at its first method:
    when the first selector of [SELECTORS.close_buttons] gives a
    displayed button and the click on it is delivered, the call answers
    [True], having clicked that button once and run no script. *)
Theorem dismiss_modal_by_button (w : World Env) (btn : WebElement)
    (others : list WebElement) (t : str) :
  let page := elapse (config.modal_check config.TIMEOUTS) (env w) in
  driver w = true →
  find_elements CSS_SELECTOR (u "div[class*='close']") page
    = Ok (btn :: others) →
  is_displayed btn page = Ok true →
  text btn page = Ok t →
  fst (click btn page) = Ok tt →
  fst (dismiss_modal w) = Ok true
  ∧ deeds (trace (snd (dismiss_modal w))) =
      deeds (trace w) ++
      [Sleep (config.modal_check config.TIMEOUTS);
       Call (a_click btn) (Ok tt);
       Sleep (config.modal_check config.TIMEOUTS)].
Proof.
  cbv zeta. intros Hd Hfind Hshown Htext Hclick.
  assert (Hrun : ∃ logs,
    dismiss_modal w =
    (Ok true,
     {| env := elapse (config.modal_check config.TIMEOUTS)
                 (snd (click btn
                         (elapse (config.modal_check config.TIMEOUTS)
                            (env w))));
        driver := true;
        trace := trace w
                 ++ [Log (u "info")
                       (u "[*]" ++ u " " ++ u "Checking for active modal...")]
                 ++ [Sleep (config.modal_check config.TIMEOUTS)]
                 ++ [Log (u "info") logs]
                 ++ [Call (a_click btn) (Ok tt)]
                 ++ [Sleep (config.modal_check config.TIMEOUTS)]
                 ++ [Log (u "info")
                       (u "[+]" ++ u " " ++ u "Modal closed with button")]
     |})).
  { unfold dismiss_modal, dismiss_modal_body.
    change (config.close_buttons config.SELECTORS)
      with (u "div[class*='close']"
            :: map u ["button[class*='close']"; "div[class*='btn-close']";
                      "div[class*='modal'] button";
                      "div[class*='dialog'] button"]).
    cbn [dismiss_modal_selectors].
    unfold _find_elements_safe. run. rewrite Hd. cbv beta iota.
    cbn [fst snd env driver trace]. rewrite Hfind. cbv beta iota.
    cbn [fst snd env driver trace dismiss_modal_buttons].
    unfold _is_element_visible, _click_element_safe. run.
    rewrite Hshown. cbv beta iota. cbn [fst snd env driver trace].
    rewrite Htext. cbv beta iota. cbn [fst snd env driver trace seq].
    cbn [_click_element_safe_loop]. run. rewrite Hclick.
    cbv beta iota. cbn [fst snd env driver trace].
    eexists. rewrite <- !app_assoc. reflexivity. }
  destruct Hrun as [logs ->]. cbn [fst snd trace]. split; [done|].
  rewrite deeds_app. reflexivity.
Qed.

End Verdicts.

(** ** The priority of the browsers *)

Section Ranked.
Context `{!OS}.
Import utils.

(** X27. Every browser the detector can list is named in
    [BROWSER_PRIORITY], so the choice of [get_preferred] is always made
    by priority: its fallback to the first browser detected is never
    taken. *)
Theorem detected_browsers_ranked :
  (∀ b, b ∈ detect → name b ∈ config.BROWSER_PRIORITY)
  ∧ get_preferred = get_preferred_loop config.BROWSER_PRIORITY detect.
Proof.
  assert (Hranked : ∀ b, b ∈ detect → name b ∈ config.BROWSER_PRIORITY).
  { intros b Hb. unfold detect in Hb.
    apply detect_loop_elem in Hb as (paths & Hin & _).
    unfold config.BROWSER_PRIORITY. cbn [map].
    unfold _get_paths_for_platform in Hin.
    repeat case_bool_decide.
    - unfold config.get_windows_paths in Hin. cbv zeta in Hin.
      rewrite !elem_of_cons, elem_of_nil in Hin.
      destruct Hin as [[= -> _]|[[= -> _]|[[= -> _]|[]]]];
        rewrite !elem_of_cons; tauto.
    - unfold config.get_linux_paths in Hin.
      rewrite !elem_of_cons, elem_of_nil in Hin.
      destruct Hin as [[= -> _]|[[= -> _]|[[= -> _]|[[= -> _]|[]]]]];
        rewrite !elem_of_cons; tauto.
    - unfold config.get_macos_paths in Hin.
      rewrite !elem_of_cons, elem_of_nil in Hin.
      destruct Hin as [[= -> _]|[[= -> _]|[[= -> _]|[]]]];
        rewrite !elem_of_cons; tauto.
    - by apply elem_of_nil in Hin. }
  split; [exact Hranked|].
  unfold get_preferred. cbv zeta.
  destruct detect as [|first rest] eqn:Hd; [reflexivity|].
  pose proof (get_preferred_loop_spec config.BROWSER_PRIORITY (first :: rest))
    as Hloop.
  destruct (get_preferred_loop config.BROWSER_PRIORITY (first :: rest));
    [done|].
  destruct (Hloop first); [apply list_elem_of_here|].
  apply Hranked, list_elem_of_here.
Qed.

End Ranked.

(** ** Further concrete runs *)

Section FurtherRuns.
Import bot_core.

(** A button whose overlay goes away at the first click: the second click
    is delivered. *)
Lemma click_delivered_on_retry_witness :
  let w := sim.started sim.overlay_once in
  fst (_click_element_safe 3 w) = Ok true
  ∧ count (is_click_on 3) (trace (snd (_click_element_safe 3 w))) = 2.
Proof.
  cbv zeta. split; [|vm_compute; reflexivity].
  apply (click_delivered_on_retry 3 1 (sim.started sim.overlay_once)).
  - lia.
  - intros m Hm. assert (m = 0) as -> by lia.
    exists (sim.exc ElementClickInterceptedException
              "Message: element click intercepted").
    split; reflexivity.
  - reflexivity.
Defined.

(** A page that does not load: [login] raises what [driver.get] raised. *)
Lemma login_navigation_error_witness :
  let w := sim.started sim.unreachable in
  let e := sim.exc WebDriverException
             "Message: unknown error: net::ERR_NAME_NOT_RESOLVED" in
  fst (login sim.chrome_bot w) = Raise e
  ∧ trace (snd (login sim.chrome_bot w)) =
      trace w ++
      [Log (u "info")
         (u "[*]" ++ u " " ++ u "Opening " ++ url sim.chrome_bot);
       Call (a_get (url sim.chrome_bot)) (Raise e)].
Proof.
  cbv zeta.
  apply (login_navigation_error sim.chrome_bot (sim.started sim.unreachable)
           (sim.exc WebDriverException
              "Message: unknown error: net::ERR_NAME_NOT_RESOLVED")).
  - vm_compute. discriminate.
  - reflexivity.
  - vm_compute. reflexivity.
Defined.

(** A run on a machine on which the driver does not start, and a run on
    a network on which no page loads: both end with the exit code 1. *)
Lemma run_cli_exit_codes_witness :
  fst (bot.run_cli_guarded (u "12345678") true None (Some (u "Chrome"))
         [u "ABC123"] (sim.start sim.driverless)) = Ok 1
  ∧ fst (bot.run_cli_guarded (u "12345678") true None (Some (u "Chrome"))
           [u "ABC123"] (sim.start sim.unreachable)) = Ok 1.
Proof.
  split.
  - destruct (run_cli_exit_codes (u "12345678") true None (Some (u "Chrome"))
                [u "ABC123"] (sim.start sim.driverless))
      as (_ & Hinit & _).
    apply (Hinit (sim.exc WebDriverException
                    "Message: session not created: cannot find Chrome binary")).
    + vm_compute. reflexivity.
    + reflexivity.
  - destruct (run_cli_exit_codes (u "12345678") true None (Some (u "Chrome"))
                [u "ABC123"] (sim.start sim.unreachable))
      as (_ & _ & Hsession & _).
    apply (Hsession sim.chrome_bot
             (sim.exc WebDriverException
                "Message: unknown error: net::ERR_NAME_NOT_RESOLVED")).
    + vm_compute. reflexivity.
    + vm_compute. reflexivity.
    + reflexivity.
    + vm_compute. reflexivity.
Defined.

(** A code redeemed after [close]: the portal is never asked. *)
Lemma redeem_code_without_driver_witness :
  let w := snd (close (sim.started (sim.portal [] [] [] []))) in
  driver w = false
  ∧ fst (redeem_code (u "ABC123") None w) = Ok FAILED
  ∧ count is_call (trace (snd (redeem_code (u "ABC123") None w)))
    = count is_call (trace w).
Proof.
  cbv zeta. split; [vm_compute; reflexivity|].
  destruct (redeem_code_without_driver (u "ABC123")
              (snd (close (sim.started (sim.portal [] [] [] [])))))
    as (Hr & _ & _); [vm_compute; reflexivity|].
  split; [exact Hr|]. vm_compute. reflexivity.
Defined.

(** A login after [close]. *)
Lemma login_without_driver_witness :
  let w := snd (close (sim.started (sim.portal [] [] [] []))) in
  fst (login sim.chrome_bot w) = Raise none_type_error
  ∧ count is_call (trace (snd (login sim.chrome_bot w)))
    = count is_call (trace w).
Proof.
  cbv zeta.
  apply (login_without_driver sim.chrome_bot
           (snd (close (sim.started (sim.portal [] [] [] []))))).
  vm_compute. reflexivity.
Defined.

(** A machine on which the driver does not start. *)
Lemma constructor_start_failure_witness :
  let w := sim.start sim.driverless in
  let e := sim.exc WebDriverException
             "Message: session not created: cannot find Chrome binary" in
  let made := __init__ (u "12345678") true None (Some (u "Chrome")) w in
  fst made = Raise e
  ∧ driver (snd made) = false
  ∧ last (trace (snd made))
    = Some (Log (u "error")
              (u "[ERROR]" ++ u " " ++ u "Failed to start ChromeDriver: "
               ++ message e)).
Proof.
  cbv zeta.
  destruct (constructor_start_failure (u "12345678") true None
              (Some (u "Chrome")) (sim.start sim.driverless)
              (sim.exc WebDriverException
                 "Message: session not created: cannot find Chrome binary"))
    as (Hr & Hd & Hlog); [vm_compute; reflexivity|].
  split; [exact Hr|]. split; [exact Hd|]. apply Hlog.
  vm_compute. reflexivity.
Defined.

(** Edge on a network on which [about:blank] does not load. *)
Lemma edge_initialization_swallowed_witness :
  let w := sim.start sim.unreachable in
  let made := __init__ (u "12345678") true
                (Some (u "/usr/bin/microsoft-edge")) (Some (u "Edge")) w in
  ∃ bot_,
    fst made = Ok bot_
    ∧ browser_name bot_ = u "Edge"
    ∧ driver (snd made) = true.
Proof.
  cbv zeta.
  destruct (edge_initialization_swallowed (u "12345678") true
              (Some (u "/usr/bin/microsoft-edge"))
              (sim.start sim.unreachable)
              (sim.exc WebDriverException
                 "Message: unknown error: net::ERR_NAME_NOT_RESOLVED"))
    as (bot_ & Hr & Hn & Hd & _); [vm_compute; reflexivity..|].
  exists bot_. split; [exact Hr|]. split; [exact Hn | exact Hd].
Defined.

(** The code field of the form. *)
Lemma find_input_field_displayed_witness :
  let w := sim.started sim.form in
  fst (_find_input_field (u "code") (Some (u "20")) w) = Ok (Some 3)
  ∧ is_displayed 3 (env w) = Ok true.
Proof.
  cbv zeta. split; [vm_compute; reflexivity|].
  apply (find_input_field_displayed (u "code") (Some (u "20"))
           (sim.started sim.form) 3).
  vm_compute. reflexivity.
Defined.

(** The login button of the portal. *)
Lemma find_button_displayed_witness :
  let w := sim.started (sim.portal [] [] [] []) in
  let found := _find_button_by_keywords
                 (config.login config.LANGUAGE_KEYWORDS)
                 (Some (config.login_button config.SELECTORS)) w in
  fst found = Ok (Some 2) ∧ is_displayed 2 (env w) = Ok true.
Proof.
  cbv zeta. split; [vm_compute; reflexivity|].
  apply (find_button_displayed (config.login config.LANGUAGE_KEYWORDS)
           (Some (config.login_button config.SELECTORS))
           (sim.started (sim.portal [] [] [] [])) 2).
  vm_compute. reflexivity.
Defined.

(** A code source that answers 503: three requests, 2.0 and 3.0 seconds
    apart. *)
Lemma fetch_backoff_schedule_witness :
  let w := sim.start (sim.source_site 503 [] true) in
  fst (utils._fetch_with_retry true utils.CODES_SOURCE_URL w) = Ok None
  ∧ ∃ o1 o2 o3,
      List.filter is_request_or_sleep
        (trace (snd (utils._fetch_with_retry true utils.CODES_SOURCE_URL w)))
      = List.filter is_request_or_sleep (trace w) ++
        [Call (a_requests_get utils.CODES_SOURCE_URL) o1;
         Sleep (retry_delay 1);
         Call (a_requests_get utils.CODES_SOURCE_URL) o2;
         Sleep (retry_delay 2);
         Call (a_requests_get utils.CODES_SOURCE_URL) o3].
Proof.
  cbv zeta.
  destruct (fetch_backoff_schedule
              (fun b => sim.site b = sim.source_site 503 [] true)
              (sim.start (sim.source_site 503 [] true)))
    as (Hr & Hsched & _).
  - intros b Hb. split; [|split].
    + unfold request_fails. cbn. rewrite Hb. cbn. lia.
    + exact Hb.
    + intros seconds. exact Hb.
  - reflexivity.
  - split; [exact Hr | exact Hsched].
Defined.

(** A run while the code source answers 503: no browser is started. *)
Lemma run_cli_without_codes_witness :
  let w := sim.start (sim.source_site 503 [] true) in
  fst (bot.run_cli sim.cli_host w) = Ok 1
  ∧ ∃ new,
      trace (snd (bot.run_cli sim.cli_host w)) = trace w ++ new
      ∧ count touches_browser new = 0.
Proof.
  cbv zeta.
  apply (run_cli_without_codes sim.cli_host
           (sim.start (sim.source_site 503 [] true))).
  - reflexivity.
  - vm_compute. reflexivity.
  - vm_compute. reflexivity.
Defined.

(** A FreeBSD machine with Chrome installed where Linux has it. *)
Lemma unknown_platform_detects_nothing_witness :
  let box := sim.bsd_box [u "/usr/bin/google-chrome"] in
  @utils.detect box = []
  ∧ @utils.detect_available_browsers box = []
  ∧ @utils.get_preferred_browser box = (None, None).
Proof.
  cbv zeta.
  apply (@unknown_platform_detects_nothing
           (sim.bsd_box [u "/usr/bin/google-chrome"]));
    vm_compute; discriminate.
Defined.

(** The office machine: Chrome is found at its second candidate path;
    Edge is found and flagged. *)
Lemma detect_spec_witness :
  let chrome := {| utils.name := u "Chrome";
                   utils.path := u "/usr/bin/google-chrome-stable";
                   utils.has_issues := false |} in
  @utils.detect sim.office_box
  = [chrome;
     {| utils.name := u "Edge"; utils.path := u "/usr/bin/microsoft-edge";
        utils.has_issues := true |}]
  ∧ ∃ paths before after,
      (utils.name chrome, paths)
        ∈ @utils._get_paths_for_platform sim.office_box
      ∧ paths = before ++ utils.path chrome :: after
      ∧ (∀ q, q ∈ before → @path_exists sim.office_box q = false).
Proof.
  cbv zeta.
  assert (Hd : @utils.detect sim.office_box
    = [{| utils.name := u "Chrome";
          utils.path := u "/usr/bin/google-chrome-stable";
          utils.has_issues := false |};
       {| utils.name := u "Edge"; utils.path := u "/usr/bin/microsoft-edge";
          utils.has_issues := true |}])
    by (vm_compute; reflexivity).
  split; [exact Hd|].
  destruct (proj1 (@detect_spec sim.office_box
                     {| utils.name := u "Chrome";
                        utils.path := u "/usr/bin/google-chrome-stable";
                        utils.has_issues := false |}))
    as (paths & before & after & Hin & Heq & _ & Hbefore & _).
  - rewrite Hd. apply list_elem_of_here.
  - exists paths, before, after.
    split; [exact Hin|]. split; [exact Heq | exact Hbefore].
Defined.

(** On the office machine Edge is listed under its longer name, and
    Chrome is preferred. *)
Lemma legacy_listing_renames_edge_witness :
  let edge := {| utils.name := u "Edge";
                 utils.path := u "/usr/bin/microsoft-edge";
                 utils.has_issues := true |} in
  (u "Edge (may have issues)", utils.path edge)
    ∈ @utils.detect_available_browsers sim.office_box
  ∧ @utils.get_preferred_browser sim.office_box
    = (Some (u "Chrome"), Some (u "/usr/bin/google-chrome-stable")).
Proof.
  cbv zeta. split; [|vm_compute; reflexivity].
  destruct (@legacy_listing_renames_edge sim.office_box) as (_ & Hedge & _).
  apply (Hedge {| utils.name := u "Edge";
                  utils.path := u "/usr/bin/microsoft-edge";
                  utils.has_issues := true |}); [|vm_compute; reflexivity].
  replace (@utils.detect sim.office_box)
    with [{| utils.name := u "Chrome";
             utils.path := u "/usr/bin/google-chrome-stable";
             utils.has_issues := false |};
          {| utils.name := u "Edge"; utils.path := u "/usr/bin/microsoft-edge";
             utils.has_issues := true |}]
    by (vm_compute; reflexivity).
  apply list_elem_of_further, list_elem_of_here.
Defined.

(** At a desk without [bs4] and [selenium], the two packages are reported
    under their pip names. *)
Lemma check_and_install_dependencies_result_witness :
  fst (utils.check_and_install_dependencies (sim.at_desk (sim.bare_desk [])))
  = Ok (Some (map u ["beautifulsoup4"; "selenium"])).
Proof.
  pose proof (check_and_install_dependencies_result
                (sim.at_desk (sim.bare_desk []))) as Hresult.
  cbv zeta in Hresult.
  destruct (fst (utils.check_and_install_dependencies
                   (sim.at_desk (sim.bare_desk [])))) as [answer|e].
  - destruct Hresult as (_ & _ & _ & -> & _). vm_compute. reflexivity.
  - exfalso.
    destruct Hresult as [_ [[Hr _]|[(_ & Hr & _)|(_ & _ & Hr & _)]]];
      vm_compute in Hr; discriminate.
Defined.

(** At a desk without [bs4] and [selenium]: the answer [n] ends the call
    with pip never run. *)
Lemma cli_dependencies_contract_witness :
  let w := sim.at_desk (sim.bare_desk [typed (u " N ")]) in
  fst (bot.check_and_install_cli_dependencies w) = Ok false
  ∧ sim.pip_runs (env (snd (bot.check_and_install_cli_dependencies w))) = [].
Proof.
  cbv zeta.
  destruct (cli_dependencies_contract
              (sim.at_desk (sim.bare_desk [typed (u " N ")])))
    as [_ Hno].
  destruct (Hno (map u ["beautifulsoup4"; "selenium"]) (u " N "))
    as [Hr Henv].
  - vm_compute. reflexivity.
  - vm_compute. reflexivity.
  - intros [Hin|[Hin|Hin%elem_of_nil]%elem_of_cons]%elem_of_cons;
      [vm_compute in Hin; discriminate..|done].
  - split; [exact Hr|]. rewrite Henv. vm_compute. reflexivity.
Defined.

(** At the same desk the answer [yes] runs pip once, on the two missing
    packages; the installation succeeds, and the call still answers
    [False]. *)
Lemma cli_dependencies_after_install :
  let w := sim.at_desk (sim.bare_desk [typed (u "yes")]) in
  fst (bot.check_and_install_cli_dependencies w) = Ok false
  ∧ sim.pip_runs (env (snd (bot.check_and_install_cli_dependencies w)))
    = [map u ["beautifulsoup4"; "selenium"]]
  ∧ last (trace (snd (bot.check_and_install_cli_dependencies w)))
    = Some (Print (u "[!] Please restart the application.")).
Proof. vm_compute. repeat split; reflexivity. Qed.

(** A page that reports a success, and a page that reports an invalid
    code. *)
Lemma classifier_success_and_error_witness :
  let good := u "<p>Reward sent. Check your mail.</p>" in
  let bad := u "<p>Invalid gift code.</p>" in
  fst (_analyze_result (u "ABC123") (sim.started (sim.showing good)))
    = Ok SUCCESS
  ∧ fst (_analyze_result (u "ABC123") (sim.started (sim.showing bad)))
    = Ok FAILED.
Proof.
  cbv zeta. split.
  - destruct (classifier_success_and_error (u "ABC123")
                (u "<p>Reward sent. Check your mail.</p>")
                (sim.started
                   (sim.showing (u "<p>Reward sent. Check your mail.</p>"))))
      as [Hgood _].
    + reflexivity.
    + reflexivity.
    + intros Hk. apply any_in_spec in Hk. vm_compute in Hk. discriminate.
    + destruct Hgood as [Hr _]; [|exact Hr].
      apply any_in_spec. vm_compute. reflexivity.
  - destruct (classifier_success_and_error (u "ABC123")
                (u "<p>Invalid gift code.</p>")
                (sim.started (sim.showing (u "<p>Invalid gift code.</p>"))))
      as [_ Hbad].
    + reflexivity.
    + reflexivity.
    + intros Hk. apply any_in_spec in Hk. vm_compute in Hk. discriminate.
    + destruct Hbad as [Hr _]; [| |exact Hr].
      * intros Hk. apply any_in_spec in Hk. vm_compute in Hk. discriminate.
      * apply any_in_spec. vm_compute. reflexivity.
Defined.

(** A dialog with a close button. *)
Lemma dismiss_modal_by_button_witness :
  let w := sim.started sim.popup in
  fst (dismiss_modal w) = Ok true
  ∧ deeds (trace (snd (dismiss_modal w))) =
      deeds (trace w) ++
      [Sleep (config.modal_check config.TIMEOUTS);
       Call (a_click 7) (Ok tt);
       Sleep (config.modal_check config.TIMEOUTS)].
Proof.
  cbv zeta.
  apply (dismiss_modal_by_button (sim.started sim.popup) 7 [] (u "Close"));
    vm_compute; reflexivity.
Defined.

(** A session in which every code is refused: the exit code is 0. *)
Lemma session_all_refused :
  let s := sim.portal [] [u "ABC123"; u "XYZ789"] [] [] in
  let w := sim.started s in
  fst (login sim.chrome_bot w) = Ok true
  ∧ fst (bot.run_cli_session sim.chrome_bot [u "ABC123"; u "XYZ789"] w)
    = Ok 0
  ∧ In (Print (u "[-] Failed: 2"))
       (trace (snd (bot.run_cli_session sim.chrome_bot
                      [u "ABC123"; u "XYZ789"] w))).
Proof. vm_compute. repeat split; try reflexivity; tauto. Qed.

End FurtherRuns.
